(** * Redes Viarias - Segmentos: the QGIS processing algorithm
      [OSMnxMunicipioSegments] of [osmnx_municipio_segmentos.py]

    A shallow embedding of the script: the code parser, the output path
    normaliser, the network-type selection and the per-municipality
    pipeline of [processAlgorithm].

    Conventions of the model.
    - A Python [str] is a [string] whose characters are the code points
      0..255 (the Latin-1 block); [isdigit] and [lower] are CPython's on
      that block.
    - External collaborators (the HTTP client, OSMnx, GeoPandas, the QGIS
      layer registry) are a record of oracles, [World]: each field gives the
      outcome of one call, indexed by the iteration that makes it.
    - Effects are threaded explicitly: the feedback channel and the external
      calls are logged in a trace, the GeoPackage is a list of named layers,
      and an exception stops the computation while keeping the state reached.
    - [self.tr] is the identity: the repository ships no translation
      catalogue. *)

From Stdlib Require Import String Ascii List ZArith QArith Bool Arith Lia.
From Stdlib Require Import DecimalString.
Import ListNotations.

Set Warnings "-register-all".

Local Close Scope Q_scope.
Local Open Scope string_scope.
Local Open Scope list_scope.
Local Open Scope nat_scope.

(** String concatenation, Python's [+] on [str]. *)
Infix "+++" := String.append (right associativity, at level 60).

(** ** Python string primitives *)

Module Py.

(** [c.isdigit()] on the Latin-1 block: the decimal digits and the
    superscripts two, three and one (U+00B2, U+00B3, U+00B9). *)
Definition isdigit (c : ascii) : bool :=
  let n := nat_of_ascii c in
  ((48 <=? n) && (n <=? 57)) || (n =? 178) || (n =? 179) || (n =? 185).

(** [c.lower()] on the Latin-1 block: A..Z and the accented capitals
    U+00C0..U+00DE other than the multiplication sign move up by 32. *)
Definition lower_char (c : ascii) : ascii :=
  let n := nat_of_ascii c in
  if ((65 <=? n) && (n <=? 90))
     || ((192 <=? n) && (n <=? 222) && negb (n =? 215))
  then ascii_of_nat (n + 32) else c.

Fixpoint lower (s : string) : string :=
  match s with
  | EmptyString => EmptyString
  | String c r => String (lower_char c) (lower r)
  end.

(** [s.replace(old, new)] for one-character [old] and [new]. *)
Fixpoint replace (old new : ascii) (s : string) : string :=
  match s with
  | EmptyString => EmptyString
  | String c r =>
      String (if Ascii.eqb c old then new else c) (replace old new r)
  end.

(** [s.split(sep)] for a one-character separator: a string with n
    separators gives n+1 parts, empty parts included. *)
Fixpoint split (sep : ascii) (s : string) : list string :=
  match s with
  | EmptyString => [EmptyString]
  | String c r =>
      if Ascii.eqb c sep then EmptyString :: split sep r
      else match split sep r with
           | [] => [String c EmptyString]
           | p :: ps => String c p :: ps
           end
  end.

(** ["".join(c for c in s if p(c))] *)
Fixpoint filter_chars (p : ascii -> bool) (s : string) : string :=
  match s with
  | EmptyString => EmptyString
  | String c r =>
      if p c then String c (filter_chars p r) else filter_chars p r
  end.

(** [sep.join(parts)] *)
Fixpoint join (sep : string) (parts : list string) : string :=
  match parts with
  | [] => EmptyString
  | [p] => p
  | p :: ps => p +++ sep +++ join sep ps
  end.

(** [x in seen] for a set of strings. *)
Definition mem (x : string) (seen : list string) : bool :=
  existsb (String.eqb x) seen.

(** [str(n)] for integers. *)
Definition str_of_nat (n : nat) : string :=
  NilEmpty.string_of_uint (Nat.to_uint n).

Definition str_of_Z (z : Z) : string :=
  NilZero.string_of_int (Z.to_int z).

(** [l[i]] with Python's indexing: a negative index counts from the end,
    and an index outside the list raises IndexError ([None]). *)
Definition index {A} (l : list A) (i : Z) : option A :=
  let n := Z.of_nat (length l) in
  if (0 <=? i)%Z then
    if (i <? n)%Z then nth_error l (Z.to_nat i) else None
  else
    if (- n <=? i)%Z then nth_error l (Z.to_nat (n + i)) else None.

(** [s.endswith(suffix)] *)
Definition endswith (s suffix : string) : bool :=
  let n := String.length s in
  let k := String.length suffix in
  (k <=? n) && String.eqb (substring (n - k) k s) suffix.

(** [sub in s] *)
Fixpoint contains (s sub : string) : bool :=
  if String.prefix sub s then true
  else match s with
       | EmptyString => false
       | String _ r => contains r sub
       end.

End Py.

(** ** The code parser *)

Definition all_chars (p : ascii -> bool) (s : string) : bool :=
  forallb p (list_ascii_of_string s).

(** The loop that removes duplicates: [seen] is the set, [unique_codes] the
    list built by [append]. *)
Fixpoint dedup_loop (codes seen unique_codes : list string) : list string :=
  match codes with
  | [] => unique_codes
  | c :: rest =>
      if negb (Py.mem c seen)
      then dedup_loop rest (c :: seen) (unique_codes ++ [c])
      else dedup_loop rest seen unique_codes
  end.

(** The loop that keeps the digits of each part and drops empty results. *)
Fixpoint digit_codes (parts : list string) : list string :=
  match parts with
  | [] => []
  | part :: rest =>
      let code := Py.filter_chars Py.isdigit part in
      match code with
      | EmptyString => digit_codes rest
      | _ => code :: digit_codes rest
      end
  end.

(** The digits of all the parts, in order. *)
Fixpoint digits_of_parts (parts : list string) : string :=
  match parts with
  | [] => ""
  | part :: rest => Py.filter_chars Py.isdigit part +++ digits_of_parts rest
  end.

Definition separators : list ascii :=
  [";"%char; ascii_of_nat 10; ascii_of_nat 9].

Definition _parse_municipality_codes (mun_codes_str : string) : list string :=
  match mun_codes_str with
  | EmptyString => []
  | _ =>
      let s := fold_left (fun acc sep => Py.replace sep ","%char acc)
                         separators mun_codes_str in
      let parts := Py.split ","%char s in
      let codes := digit_codes parts in
      dedup_loop codes [] []
  end.

(** ** Message texts

    The texts passed to the feedback channel and to the exceptions, with
    their format arguments. Accented letters are given by code point. *)

Module Msg.

Definition chr (n : nat) : string := String (ascii_of_nat n) EmptyString.
Definition nl : string := chr 10.
Definition a_acute : string := chr 225.
Definition a_tilde : string := chr 227.
Definition c_cedilla : string := chr 231.
Definition e_acute : string := chr 233.
Definition i_acute : string := chr 237.
Definition o_acute : string := chr 243.
Definition o_circ : string := chr 244.
Definition u_acute : string := chr 250.

Definition no_codes : string :=
  "Informe ao menos um c" +++ o_acute +++ "digo de munic" +++ i_acute +++
  "pio do IBGE.".

Definition codes_identified (codes : list string) : string :=
  "C" +++ o_acute +++ "digos de munic" +++ i_acute +++
  "pio identificados: " +++ Py.join ", " codes.

Definition code_length (code : string) : string :=
  "C" +++ o_acute +++ "digo IBGE geralmente possui 7 d" +++ i_acute +++
  "gitos (alguns servi" +++ c_cedilla +++ "os usam 6). C" +++ o_acute +++
  "digo informado: " +++ code.

Definition shapefile_selected (base : string) : string :=
  "Foi selecionado Shapefile na sa" +++ i_acute +++
  "da, mas o algoritmo salvar" +++ a_acute +++
  " em GeoPackage para permitir m" +++ u_acute +++
  "ltiplas camadas. O caminho ser" +++ a_acute +++
  " convertido para: '" +++ base +++ ".gpkg'.".

Definition extension_adjusted : string :=
  "Somente GeoPackage (*.gpkg) " +++ e_acute +++ " plenamente compat" +++
  i_acute +++ "vel com m" +++ u_acute +++
  "ltiplas camadas. O caminho foi ajustado para extens" +++ a_tilde +++
  "o .gpkg.".

Definition output_package (out_path : string) : string :=
  "GeoPackage de sa" +++ i_acute +++ "da: " +++ out_path.

Definition no_osmnx : string :=
  "O m" +++ o_acute +++ "dulo 'osmnx' n" +++ a_tilde +++ "o est" +++
  a_acute +++ " dispon" +++ i_acute +++ "vel no Python do QGIS." +++ nl +++
  "Instale o OSMnx no ambiente Python que o QGIS utiliza antes de rodar este algoritmo.".

Definition no_geopandas : string :=
  "O m" +++ o_acute +++ "dulo 'geopandas' n" +++ a_tilde +++ "o est" +++
  a_acute +++ " dispon" +++ i_acute +++ "vel no Python do QGIS." +++ nl +++
  "Instale o GeoPandas no ambiente Python que o QGIS utiliza.".

Definition processing (idx total : nat) (mun_code : string) : string :=
  "Processando munic" +++ i_acute +++ "pio " +++ Py.str_of_nat idx +++
  "/" +++ Py.str_of_nat total +++ " - c" +++ o_acute +++ "digo IBGE: " +++
  mun_code.

Definition querying_ibge (url : string) : string :=
  "Consultando IBGE: " +++ url.

Definition ibge_connection (e : string) : string :=
  "Erro ao conectar com a API do IBGE: " +++ e.

Definition ibge_status (status_code : Z) (mun_code : string) : string :=
  "Erro ao consultar IBGE (status " +++ Py.str_of_Z status_code +++
  "). Verifique o c" +++ o_acute +++ "digo do munic" +++ i_acute +++
  "pio: " +++ mun_code +++ ".".

Definition ibge_invalid_json : string :=
  "Resposta da API do IBGE n" +++ a_tilde +++ "o " +++ e_acute +++
  " um JSON v" +++ a_acute +++ "lido.".

Definition ibge_empty_list (mun_code : string) : string :=
  "Nenhum munic" +++ i_acute +++ "pio retornado pelo IBGE para o c" +++
  o_acute +++ "digo " +++ mun_code +++ ". Verifique o c" +++ o_acute +++
  "digo informado.".

Definition ibge_unexpected (mun_code e : string) : string :=
  "N" +++ a_tilde +++ "o foi poss" +++ i_acute +++
  "vel interpretar a resposta da API do IBGE para o c" +++ o_acute +++
  "digo " +++ mun_code +++ ". Estrutura inesperada: " +++ e.

Definition identified (nome_mun uf_sigla place_query : string) : string :=
  "Munic" +++ i_acute +++ "pio identificado: " +++ nome_mun +++ " - " +++
  uf_sigla +++ " (consulta OSMnx: '" +++ place_query +++ "')".

Definition network_type (network_type : string) : string :=
  "Tipo de rede OSMnx selecionado: '" +++ network_type +++ "'".

Definition buffer_requested (buffer_text : string) : string :=
  "Buffer solicitado: " +++ buffer_text +++
  " m ao redor do limite municipal.".

Definition no_buffer : string :=
  "Nenhum buffer adicional ser" +++ a_acute +++ " aplicado (0 m).".

Definition boundary_error (place_query e : string) : string :=
  "Erro ao obter o limite do munic" +++ i_acute +++ "pio '" +++
  place_query +++ "' com OSMnx: " +++ e.

Definition boundary_empty (place_query : string) : string :=
  "N" +++ a_tilde +++ "o foi poss" +++ i_acute +++
  "vel obter o limite do munic" +++ i_acute +++ "pio '" +++ place_query +++
  "' com OSMnx.".

Definition buffer_failed (place_query e : string) : string :=
  "Erro ao aplicar buffer para o munic" +++ i_acute +++ "pio '" +++
  place_query +++
  "'. Usando apenas o limite municipal sem buffer. Detalhes: " +++ e.

Definition downloading : string :=
  "Baixando rede vi" +++ a_acute +++
  "ria do OpenStreetMap com OSMnx (pode demorar alguns instantes)...".

Definition download_error (place_query e : string) : string :=
  "Erro ao baixar rede com OSMnx para '" +++ place_query +++ "': " +++ e.

Definition projection_error (place_query e : string) : string :=
  "Erro ao projetar a rede com OSMnx para '" +++ place_query +++ "': " +++
  e.

Definition conversion_error (place_query e : string) : string :=
  "Erro ao converter rede para GeoDataFrame em '" +++ place_query +++
  "': " +++ e.

Definition segments (nome_mun uf_sigla : string) (n : nat) : string :=
  "Segmentos (edges) obtidos para " +++ nome_mun +++ " - " +++ uf_sigla +++
  ": " +++ Py.str_of_nat n +++ ". Gravando em camada do GeoPackage...".

Definition removing_crs (crs : string) : string :=
  "Removendo CRS (" +++ crs +++
  ") antes de salvar para evitar problemas de PROJ/CRS no ambiente. Defina o SRC manualmente ap" +++
  o_acute +++ "s o carregamento, se necess" +++ a_acute +++ "rio.".

Definition crs_not_removed (e : string) : string :=
  "N" +++ a_tilde +++ "o foi poss" +++ i_acute +++
  "vel remover o CRS antes de salvar. Tentando salvar mesmo assim. Detalhes: " +++
  e.

Definition write_error (layer_name e : string) : string :=
  "Erro ao salvar camada '" +++ layer_name +++ "' no GeoPackage: " +++ e.

Definition layer_invalid (layer_name : string) : string :=
  "Camada '" +++ layer_name +++ "' foi criada no GeoPackage, mas n" +++
  a_tilde +++ "o p" +++ o_circ +++ "de ser carregada no QGIS.".

Definition layer_added (vlayer_name out_path layer_name : string) : string :=
  "Camada '" +++ vlayer_name +++ "' adicionada ao projeto." +++ nl +++
  "GeoPackage: " +++ out_path +++ nl +++ "Layer: " +++ layer_name.

Definition layers_created (created_layers : list string) : string :=
  "Camadas criadas no GeoPackage:" +++ nl +++ "  - " +++
  Py.join (nl +++ "  - ") created_layers.

End Msg.

(** ** [os.path.splitext]

    The standard library's [genericpath._splitext], which [posixpath] calls
    with separator [/] and no alternative separator and [ntpath] with
    separator [\] and alternative separator [/]. *)

Inductive os_flavour : Type := Posix | Nt.

Module OsPath.

(** [p.rfind(c)]: the highest index of [c], or -1. *)
Fixpoint rfind_from (c : ascii) (p : string) (i last : Z) : Z :=
  match p with
  | EmptyString => last
  | String d r =>
      rfind_from c r (i + 1)%Z (if Ascii.eqb d c then i else last)
  end.

Definition rfind (c : ascii) (p : string) : Z := rfind_from c p 0%Z (-1)%Z.

(** The loop that skips the leading dots of the file name: [true] when a
    character other than [extsep] is found among the [steps] characters
    starting at [filenameIndex]. *)
Fixpoint skip_leading_dots (p : string) (extsep : ascii)
         (filenameIndex steps : nat) : bool :=
  match steps with
  | O => false
  | S k =>
      match String.get filenameIndex p with
      | Some c =>
          if Ascii.eqb c extsep
          then skip_leading_dots p extsep (S filenameIndex) k
          else true
      | None => true
      end
  end.

Definition _splitext (p : string) (sep : ascii) (altsep : option ascii)
           (extsep : ascii) : string * string :=
  let sepIndex := rfind sep p in
  let sepIndex :=
    match altsep with
    | Some a => Z.max sepIndex (rfind a p)
    | None => sepIndex
    end in
  let dotIndex := rfind extsep p in
  if (sepIndex <? dotIndex)%Z
     && skip_leading_dots p extsep (Z.to_nat (sepIndex + 1))
                          (Z.to_nat (dotIndex - (sepIndex + 1)))
  then (substring 0 (Z.to_nat dotIndex) p,
        substring (Z.to_nat dotIndex)
                  (String.length p - Z.to_nat dotIndex) p)
  else (p, EmptyString).

Definition splitext (os : os_flavour) (p : string) : string * string :=
  match os with
  | Posix => _splitext p "/"%char None "."%char
  | Nt => _splitext p "\"%char (Some "/"%char) "."%char
  end.

End OsPath.

(** ** Data of the run *)

Definition PARAM_MUN_CODE : string := "MUNICIPIO_IBGE".
Definition PARAM_OUTPUT : string := "OUTPUT".
Definition PARAM_NET_TYPE : string := "NETWORK_TYPE".
Definition PARAM_BUFFER_M : string := "BUFFER_METERS".

Definition NET_TYPE_OPTIONS : list string :=
  ["drive"; "all"; "walk"; "bike"; "drive_service"].

(** The four parameters as the host hands them over; the buffer distance is
    a finite double, a rational number. *)
Record Parameters : Type := {
  mun_codes_str : string;
  out_path_user : string;
  net_type_index : Z;
  buffer_m : Q
}.

(** A value decoded from JSON. A dictionary is the list of its items. *)
Inductive pyvalue : Type :=
| PNone
| PBool (b : bool)
| PInt (z : Z)
| PFloat (text : string)
| PStr (s : string)
| PList (l : list pyvalue)
| PDict (items : list (string * pyvalue)).

(** The outcome of an external call: an exception with its text, or a
    value. *)
Inductive outcome (A : Type) : Type :=
| Raises (text : string)
| Returns (a : A).
Arguments Raises {A} text.
Arguments Returns {A} a.

(** [r.json()]: the decode error the script catches, any other exception,
    or the value. *)
Inductive json_outcome : Type :=
| JsonDecodeError
| JsonOtherError (text : string)
| JsonValue (data : pyvalue).

Inductive http_outcome : Type :=
| RequestFailed (text : string)
| Response (status_code : Z) (json : json_outcome).

(** Geometries and graphs are opaque handles; a GeoDataFrame of places is
    the list of its rows' geometries. *)
Inductive geom : Type := Geom (id : nat).
Inductive graph : Type := Graph (id : nat).
Definition gdf : Type := list geom.

(** The edge table: its handle, its number of rows and its CRS tag. *)
Record edges_table : Type := {
  edges_id : nat;
  edges_len : nat;
  edges_crs : option string
}.

(** An [import] statement gives the module, or raises the ImportError the
    script catches (ModuleNotFoundError is one), or raises something else,
    from the module's own code, which the script does not catch. *)
Inductive import_outcome : Type :=
| Imported
| ImportError
| ImportRaises (text : string).

(** The external collaborators. The first argument of a call is the index
    of the iteration that makes it. *)
Record World : Type := {
  import_osmnx : import_outcome;
  import_geopandas : import_outcome;
  requests_get : nat -> string -> http_outcome;
  py_str : pyvalue -> string;
  subscript_error : pyvalue -> string -> string;
  float_str : Q -> string;
  geocode_to_gdf : nat -> string -> outcome gdf;
  project_gdf : nat -> gdf -> outcome gdf;
  gdf_buffer : nat -> gdf -> Q -> outcome gdf;
  to_crs : nat -> gdf -> Z -> outcome gdf;
  graph_from_polygon : nat -> geom -> string -> outcome graph;
  project_graph : nat -> graph -> outcome graph;
  graph_to_gdfs : nat -> graph -> outcome edges_table;
  set_crs_fails : nat -> edges_table -> option string;
  to_file_fails : nat -> string -> string -> edges_table -> option string;
  layer_is_valid : nat -> string -> string -> bool
}.

Inductive event : Type :=
| PushInfo (msg : string)
| ReportError (msg : string)
| RequestsGet (url : string)
| GeocodeToGdf (query : string)
| ProjectGdf (g : gdf)
| GdfBuffer (g : gdf) (dist : Q)
| ToCrs (g : gdf) (epsg : Z)
| GraphFromPolygon (g : geom) (network_type : string)
| ProjectGraph (G : graph)
| GraphToGdfs (G : graph)
| SetCrs (e : edges_table)
| ToFile (path layer : string) (e : edges_table)
| NewVectorLayer (uri name : string)
| StoreAddMapLayer (uri name : string)
| ProjectAddMapLayer (uri name : string).

Inductive exn : Type :=
| QgsProcessingException (msg : string)
| PyException (text : string).

(** The GeoPackage: its layers in the order they were created. *)
Definition package : Type := list (string * edges_table).

Definition layer_names (pkg : package) : list string := map fst pkg.

(** Writing a layer, as [to_file] does in its default mode ["w"]: a layer
    of that name is dropped, and the layer is created after the layers that
    remain. *)
Definition drop_layer (pkg : package) (name : string) : package :=
  filter (fun l => negb (String.eqb (fst l) name)) pkg.

Definition write_layer (pkg : package) (name : string) (e : edges_table)
  : package :=
  drop_layer pkg name ++ [(name, e)].

Record state : Type := {
  trace : list event;
  gpkg : package;
  created_layers : list string
}.

Definition initial_state (pkg : package) : state :=
  {| trace := []; gpkg := pkg; created_layers := [] |}.

(** ** The monad of the run: state, and exceptions that keep the state *)

Inductive result (A : Type) : Type :=
| Ok (a : A)
| Raise (e : exn).
Arguments Ok {A} a.
Arguments Raise {A} e.

Definition M (A : Type) : Type := state -> result A * state.

Definition ret {A} (a : A) : M A := fun s => (Ok a, s).

Definition bind {A B} (m : M A) (k : A -> M B) : M B :=
  fun s =>
    match m s with
    | (Ok a, s') => k a s'
    | (Raise e, s') => (Raise e, s')
    end.

Definition raise {A} (e : exn) : M A := fun s => (Raise e, s).

Notation "x <- m ;; k" := (bind m (fun x => k))
  (at level 61, m at next level, right associativity).
Notation "m ;; k" := (bind m (fun _ => k))
  (at level 61, right associativity).

Definition log (ev : event) : M unit :=
  fun s => (Ok tt, {| trace := trace s ++ [ev];
                      gpkg := gpkg s;
                      created_layers := created_layers s |}).

Definition push_info (msg : string) : M unit := log (PushInfo msg).
Definition report_error (msg : string) : M unit := log (ReportError msg).

(** An external call, logged; its outcome is left to the caller's
    [try]/[except]. *)
Definition call {A} (ev : event) (o : A) : M A := log ev ;; ret o.

Definition put_layer (name : string) (e : edges_table) : M unit :=
  fun s => (Ok tt, {| trace := trace s;
                      gpkg := write_layer (gpkg s) name e;
                      created_layers := created_layers s |}).

Definition append_created (name : string) : M unit :=
  fun s => (Ok tt, {| trace := trace s;
                      gpkg := gpkg s;
                      created_layers := created_layers s ++ [name] |}).

Definition get_created : M (list string) :=
  fun s => (Ok (created_layers s), s).

(** ** [processAlgorithm], stage by stage *)

(** Lines 191-195: the guard on the enum index, then the indexing. *)
Definition guard_net_type_index (net_type_index : Z) : Z :=
  if (net_type_index <? 0)%Z
     || (Z.of_nat (length NET_TYPE_OPTIONS) <=? net_type_index)%Z
  then 0%Z else net_type_index.

Definition select_network_type (net_type_index : Z) : option string :=
  Py.index NET_TYPE_OPTIONS (guard_net_type_index net_type_index).

(** Lines 211-219: the warning on the length of each code. *)
Fixpoint warn_code_lengths (codes : list string) : M unit :=
  match codes with
  | [] => ret tt
  | code :: rest =>
      (if negb ((String.length code =? 6) || (String.length code =? 7))
       then report_error (Msg.code_length code)
       else ret tt) ;;
      warn_code_lengths rest
  end.

(** Lines 221-245: the output path normaliser. *)
Definition normalize_output_path (os : os_flavour) (out_path_user : string)
  : M string :=
  let '(base, ext) := OsPath.splitext os out_path_user in
  let ext := match ext with EmptyString => ".gpkg" | _ => ext end in
  ext <- (if String.eqb (Py.lower ext) ".shp"
          then report_error (Msg.shapefile_selected base) ;; ret ".gpkg"
          else ret ext) ;;
  ext <- (if negb (String.eqb (Py.lower ext) ".gpkg")
          then push_info Msg.extension_adjusted ;; ret ".gpkg"
          else ret ext) ;;
  ret (base +++ ext).

(** Lines 251-276: the two imports. [except ImportError] turns that error
    into the exception that names the module; any other exception of the
    import leaves as it is. *)
Definition import_module (o : import_outcome) (unavailable : string)
  : M unit :=
  match o with
  | Imported => ret tt
  | ImportError => raise (QgsProcessingException unavailable)
  | ImportRaises text => raise (PyException text)
  end.

Definition import_modules (w : World) : M unit :=
  import_module (import_osmnx w) Msg.no_osmnx ;;
  import_module (import_geopandas w) Msg.no_geopandas.

(** [data[key]] on a decoded value: a dictionary gives the item or raises
    KeyError, whose text is the quoted key; any other value raises. *)
Fixpoint dict_get (items : list (string * pyvalue)) (key : string)
  : option pyvalue :=
  match items with
  | [] => None
  | (k, v) :: rest => if String.eqb k key then Some v else dict_get rest key
  end.

Definition getitem (w : World) (data : pyvalue) (key : string)
  : outcome pyvalue :=
  match data with
  | PDict items =>
      match dict_get items key with
      | Some v => Returns v
      | None => Raises ("'" +++ key +++ "'")
      end
  | _ => Raises (subscript_error w data key)
  end.

(** A value inside an f-string. *)
Definition fmt (w : World) (v : pyvalue) : string :=
  match v with
  | PStr s => s
  | _ => py_str w v
  end.

(** Lines 329-331: the two reads inside the [try]. *)
Definition read_place (w : World) (data : pyvalue)
  : outcome (pyvalue * pyvalue) :=
  match getitem w data "nome" with
  | Raises e => Raises e
  | Returns nome_mun =>
      match getitem w data "microrregiao" with
      | Raises e => Raises e
      | Returns micro =>
          match getitem w micro "mesorregiao" with
          | Raises e => Raises e
          | Returns meso =>
              match getitem w meso "UF" with
              | Raises e => Raises e
              | Returns uf =>
                  match getitem w uf "sigla" with
                  | Raises e => Raises e
                  | Returns uf_sigla => Returns (nome_mun, uf_sigla)
                  end
              end
          end
      end
  end.

Definition ibge_url (mun_code : string) : string :=
  "https://servicodados.ibge.gov.br/api/v1/localidades/municipios/"
  +++ mun_code.

(** Lines 288-338: the registry lookup. *)
Definition resolve_municipality (w : World) (idx : nat) (mun_code : string)
  : M (pyvalue * pyvalue) :=
  let url := ibge_url mun_code in
  push_info (Msg.querying_ibge url) ;;
  r <- call (RequestsGet url) (requests_get w idx url) ;;
  match r with
  | RequestFailed e =>
      raise (QgsProcessingException (Msg.ibge_connection e))
  | Response status_code json =>
      if negb (status_code =? 200)%Z
      then raise (QgsProcessingException
                    (Msg.ibge_status status_code mun_code))
      else
        match json with
        | JsonDecodeError =>
            raise (QgsProcessingException Msg.ibge_invalid_json)
        | JsonOtherError e => raise (PyException e)
        | JsonValue data =>
            data <- match data with
                    | PList [] =>
                        raise (QgsProcessingException
                                 (Msg.ibge_empty_list mun_code))
                    | PList (first :: _) => ret first
                    | _ => ret data
                    end ;;
            match read_place w data with
            | Raises e =>
                raise (QgsProcessingException
                         (Msg.ibge_unexpected mun_code e))
            | Returns place => ret place
            end
        end
  end.

Definition place_query_of (w : World) (nome_mun uf_sigla : pyvalue)
  : string :=
  fmt w nome_mun +++ ", " +++ fmt w uf_sigla +++ ", Brasil".

(** [buffer_m and buffer_m > 0] *)
Definition buffer_positive (buffer_m : Q) : bool :=
  negb (Qeq_bool buffer_m 0) && negb (Qle_bool buffer_m 0).

(** Lines 364-381: the boundary of the place. *)
Definition fetch_boundary (w : World) (idx : nat) (place_query : string)
  : M (gdf * geom) :=
  r <- call (GeocodeToGdf place_query) (geocode_to_gdf w idx place_query) ;;
  match r with
  | Raises e =>
      raise (QgsProcessingException (Msg.boundary_error place_query e))
  | Returns place_gdf =>
      match place_gdf with
      | [] => raise (QgsProcessingException
                       (Msg.boundary_empty place_query))
      | g :: _ => ret (place_gdf, g)
      end
  end.

(** Lines 386-390: projection to a metric CRS, buffer, back to WGS84. *)
Definition buffer_primary (w : World) (idx : nat) (place_gdf : gdf)
           (buffer_m : Q) : M (outcome gdf) :=
  r <- call (ProjectGdf place_gdf) (project_gdf w idx place_gdf) ;;
  match r with
  | Raises e => ret (Raises e)
  | Returns place_proj =>
      r <- call (GdfBuffer place_proj buffer_m)
                (gdf_buffer w idx place_proj buffer_m) ;;
      match r with
      | Raises e => ret (Raises e)
      | Returns place_proj =>
          call (ToCrs place_proj 4326) (to_crs w idx place_proj 4326)
      end
  end.

(** Lines 391-395: the same through Web Mercator. *)
Definition buffer_fallback (w : World) (idx : nat) (place_gdf : gdf)
           (buffer_m : Q) : M (outcome gdf) :=
  r <- call (ToCrs place_gdf 3857) (to_crs w idx place_gdf 3857) ;;
  match r with
  | Raises e => ret (Raises e)
  | Returns place_proj =>
      r <- call (GdfBuffer place_proj buffer_m)
                (gdf_buffer w idx place_proj buffer_m) ;;
      match r with
      | Raises e => ret (Raises e)
      | Returns place_proj =>
          call (ToCrs place_proj 4326) (to_crs w idx place_proj 4326)
      end
  end.

(** The text of the IndexError of [iloc[0]] on an empty frame. *)
Definition iloc_error : string :=
  "single positional indexer is out-of-bounds".

(** Lines 385-397: the body of the outer [try]: the primary computation,
    the fallback when it raises, and the first geometry of the result. *)
Definition buffered_geometry (w : World) (idx : nat) (place_gdf : gdf)
           (buffer_m : Q) : M (outcome geom) :=
  r <- buffer_primary w idx place_gdf buffer_m ;;
  r <- match r with
       | Returns place_buff => ret (Returns place_buff)
       | Raises _ => buffer_fallback w idx place_gdf buffer_m
       end ;;
  ret match r with
      | Raises e => Raises e
      | Returns [] => Raises iloc_error
      | Returns (g :: _) => Returns g
      end.

(** Lines 383-405: the optional buffer. *)
Definition apply_buffer (w : World) (idx : nat) (buffer_m : Q)
           (place_query : string) (place_gdf : gdf) (geom0 : geom)
  : M geom :=
  if buffer_positive buffer_m then
    r <- buffered_geometry w idx place_gdf buffer_m ;;
    match r with
    | Returns g => ret g
    | Raises e =>
        report_error (Msg.buffer_failed place_query e) ;; ret geom0
    end
  else ret geom0.

(** Lines 415-423. *)
Definition download_network (w : World) (idx : nat) (place_query : string)
           (g : geom) (network_type : string) : M graph :=
  r <- call (GraphFromPolygon g network_type)
            (graph_from_polygon w idx g network_type) ;;
  match r with
  | Raises e =>
      raise (QgsProcessingException (Msg.download_error place_query e))
  | Returns G => ret G
  end.

(** Lines 425-433. *)
Definition project_network (w : World) (idx : nat) (place_query : string)
           (G : graph) : M graph :=
  r <- call (ProjectGraph G) (project_graph w idx G) ;;
  match r with
  | Raises e =>
      raise (QgsProcessingException (Msg.projection_error place_query e))
  | Returns G_proj => ret G_proj
  end.

(** Lines 435-448. *)
Definition edge_table (w : World) (idx : nat) (place_query : string)
           (G_proj : graph) : M edges_table :=
  r <- call (GraphToGdfs G_proj) (graph_to_gdfs w idx G_proj) ;;
  match r with
  | Raises e =>
      raise (QgsProcessingException (Msg.conversion_error place_query e))
  | Returns edges => ret edges
  end.

(** Lines 457-474: the CRS tag is removed when there is one; a failure is
    reported and the table is kept as it was. *)
Definition strip_crs (w : World) (idx : nat) (edges : edges_table)
  : M edges_table :=
  match edges_crs edges with
  | None => ret edges
  | Some crs =>
      push_info (Msg.removing_crs crs) ;;
      r <- call (SetCrs edges) (set_crs_fails w idx edges) ;;
      match r with
      | Some e => report_error (Msg.crs_not_removed e) ;; ret edges
      | None => ret {| edges_id := edges_id edges;
                       edges_len := edges_len edges;
                       edges_crs := None |}
      end
  end.

Definition layer_name_of (mun_code : string) : string :=
  "osm_segments_" +++ mun_code.

(** Lines 480-491: the write into the package. What a write that raises
    has done to the file is not part of the model: the package is taken as
    it was before the call. *)
Definition save_layer (w : World) (idx : nat) (out_path layer_name : string)
           (edges : edges_table) : M unit :=
  r <- call (ToFile out_path layer_name edges)
            (to_file_fails w idx out_path layer_name edges) ;;
  match r with
  | Some e => raise (QgsProcessingException (Msg.write_error layer_name e))
  | None => put_layer layer_name edges ;; append_created layer_name
  end.

(** [int(buffer_m)]: truncation towards zero. *)
Definition int_of_Q (q : Q) : Z := Z.quot (Qnum q) (Zpos (Qden q)).

Definition vlayer_name_of (w : World) (nome_mun uf_sigla : pyvalue)
           (network_type : string) (buffer_m : Q) : string :=
  let name := "OSMnx_" +++ fmt w nome_mun +++ "_" +++ fmt w uf_sigla
              +++ "_" +++ network_type +++ "_segments" in
  if buffer_positive buffer_m
  then name +++ "_buf" +++ Py.str_of_Z (int_of_Q buffer_m) +++ "m"
  else name.

(** Lines 493-520: the layer is opened and registered. *)
Definition load_layer (w : World) (idx : nat)
           (out_path layer_name vlayer_name : string) : M unit :=
  let uri := out_path +++ "|layername=" +++ layer_name in
  valid <- call (NewVectorLayer uri vlayer_name)
                (layer_is_valid w idx uri vlayer_name) ;;
  if negb valid
  then raise (QgsProcessingException (Msg.layer_invalid layer_name))
  else
    log (StoreAddMapLayer uri vlayer_name) ;;
    log (ProjectAddMapLayer uri vlayer_name) ;;
    push_info (Msg.layer_added vlayer_name out_path layer_name).

(** Lines 281-520: the body of the loop. *)
Definition process_municipality (w : World) (buffer_m : Q)
           (network_type out_path : string) (total idx : nat)
           (mun_code : string) : M unit :=
  push_info (Msg.processing idx total mun_code) ;;
  place <- resolve_municipality w idx mun_code ;;
  let '(nome_mun, uf_sigla) := place in
  let place_query := place_query_of w nome_mun uf_sigla in
  push_info (Msg.identified (fmt w nome_mun) (fmt w uf_sigla) place_query) ;;
  push_info (Msg.network_type network_type) ;;
  (if buffer_positive buffer_m
   then push_info (Msg.buffer_requested (float_str w buffer_m))
   else push_info Msg.no_buffer) ;;
  boundary <- fetch_boundary w idx place_query ;;
  let '(place_gdf, geom0) := boundary in
  g <- apply_buffer w idx buffer_m place_query place_gdf geom0 ;;
  push_info Msg.downloading ;;
  G <- download_network w idx place_query g network_type ;;
  G_proj <- project_network w idx place_query G ;;
  edges <- edge_table w idx place_query G_proj ;;
  push_info (Msg.segments (fmt w nome_mun) (fmt w uf_sigla)
                          (edges_len edges)) ;;
  edges <- strip_crs w idx edges ;;
  let layer_name := layer_name_of mun_code in
  save_layer w idx out_path layer_name edges ;;
  load_layer w idx out_path layer_name
             (vlayer_name_of w nome_mun uf_sigla network_type buffer_m).

(** [for idx, mun_code in enumerate(codes, start=...)] *)
Fixpoint for_each (body : nat -> string -> M unit) (idx : nat)
         (codes : list string) : M unit :=
  match codes with
  | [] => ret tt
  | mun_code :: rest => body idx mun_code ;; for_each body (S idx) rest
  end.

(** The text of the IndexError of a list index out of range. *)
Definition index_error : string := "list index out of range".

(** Lines 205-276: what precedes the loop, once there are codes. *)
Definition setup (w : World) (os : os_flavour) (p : Parameters)
           (codes : list string) : M string :=
  push_info (Msg.codes_identified codes) ;;
  warn_code_lengths codes ;;
  out_path <- normalize_output_path os (out_path_user p) ;;
  push_info (Msg.output_package out_path) ;;
  import_modules w ;;
  ret out_path.

(** Lines 522-530: the summary and the returned mapping. *)
Definition finish (out_path : string) : M (list (string * string)) :=
  created <- get_created ;;
  match created with
  | [] => ret tt
  | _ => push_info (Msg.layers_created created)
  end ;;
  ret [(PARAM_OUTPUT, out_path)].

Definition processAlgorithm (w : World) (os : os_flavour) (p : Parameters)
  : M (list (string * string)) :=
  match select_network_type (net_type_index p) with
  | None => raise (PyException index_error)
  | Some network_type =>
      let codes := _parse_municipality_codes (mun_codes_str p) in
      match codes with
      | [] => raise (QgsProcessingException Msg.no_codes)
      | _ =>
          out_path <- setup w os p codes ;;
          for_each (process_municipality w (buffer_m p) network_type
                                         out_path (length codes))
                   1 codes ;;
          finish out_path
      end
  end.

(** A run on a destination that does not hold a package yet. *)
Definition run (w : World) (os : os_flavour) (p : Parameters)
  : result (list (string * string)) * state :=
  processAlgorithm w os p (initial_state []).

(** The result of a computation run on its own. No stage reads the state,
    so this is its result wherever it runs ([stateless], below). *)
Definition result_of {A} (m : M A) : result A := fst (m (initial_state [])).

Definition stateless {A} (m : M A) : Prop :=
  forall s s', fst (m s) = fst (m s').

(** [s'] comes from [s] by events that satisfy [P], the package and the
    list of created layers untouched. *)
Definition extends (P : event -> Prop) (s s' : state) : Prop :=
  gpkg s' = gpkg s /\ created_layers s' = created_layers s
  /\ exists evs, trace s' = trace s ++ evs /\ Forall P evs.

Definition quiet (P : event -> Prop) {A} (m : M A) : Prop :=
  forall s, extends P s (snd (m s)).

(** The only registry request an iteration may make is the one for its
    own code. *)
Definition own_request (mun_code : string) (ev : event) : Prop :=
  match ev with
  | RequestsGet url => url = ibge_url mun_code
  | _ => True
  end.

Definition no_request (ev : event) : Prop :=
  match ev with
  | RequestsGet _ => False
  | _ => True
  end.

(** The iteration for [mun_code] has put its layer into the package and
    its name on the list. *)
Definition written (mun_code : string) (s s' : state) : Prop :=
  exists e,
    gpkg s' = write_layer (gpkg s) (layer_name_of mun_code) e
    /\ created_layers s' = created_layers s ++ [layer_name_of mun_code].

Definition unchanged (s s' : state) : Prop :=
  gpkg s' = gpkg s /\ created_layers s' = created_layers s.

(** What an iteration does to the state: it logs events, none of them a
    request for another code; when it returns its layer is written, when it
    raises the layer is written or the package is as before. *)
Definition iteration_post (mun_code : string)
           (s : state) (r : result unit) (s' : state) : Prop :=
  (exists evs, trace s' = trace s ++ evs
               /\ Forall (own_request mun_code) evs)
  /\ match r with
     | Ok _ => written mun_code s s'
     | Raise _ => unchanged s s' \/ written mun_code s s'
     end.

(** The registry requests of a trace are requests for these codes. *)
Definition requests_among (codes : list string) (ev : event) : Prop :=
  match ev with
  | RequestsGet url => exists c, In c codes /\ url = ibge_url c
  | _ => True
  end.

(** The extension the normaliser ends up with, and the path it returns. *)
Definition output_extension (ext : string) : string :=
  if String.eqb (Py.lower ext) ".gpkg" then ext else ".gpkg".

Definition output_path (os : os_flavour) (out_path_user : string) : string :=
  let '(base, ext) := OsPath.splitext os out_path_user in
  base +++ output_extension ext.

(** The loop has handled the codes [done]: their layers, in order, are the
    package and the list of created layers. *)
Definition loop_inv (done : list string) (s : state) : Prop :=
  layer_names (gpkg s) = map layer_name_of done
  /\ created_layers s = map layer_name_of done.

(** The value reached from [v] through nested dictionary keys. *)
Fixpoint get_path (v : pyvalue) (keys : list string) : option pyvalue :=
  match keys with
  | [] => Some v
  | key :: rest =>
      match v with
      | PDict items =>
          match dict_get items key with
          | Some x => get_path x rest
          | None => None
          end
      | _ => None
      end
  end.

(** Every computation of the pipeline only adds to the trace. *)
Definition monotone {A} (m : M A) : Prop :=
  forall s, exists evs, trace (snd (m s)) = trace s ++ evs.

(** The warnings of a trace, and the polygons the network was downloaded
    for. *)
Fixpoint warnings (tr : list event) : list string :=
  match tr with
  | [] => []
  | ReportError msg :: rest => msg :: warnings rest
  | _ :: rest => warnings rest
  end.

Fixpoint download_polygons (tr : list event) : list geom :=
  match tr with
  | [] => []
  | GraphFromPolygon g _ :: rest => g :: download_polygons rest
  | _ :: rest => download_polygons rest
  end.

(** ** The stages of an iteration and their failures *)

Inductive stage : Type :=
| RegistryLookup
| BoundaryFetch
| NetworkDownload
| Reprojection
| EdgeTableConversion
| LayerWrite
| LayerLoad.

(** The object the fields are read from: the first element of a list, or
    the value itself. *)
Definition first_element (data : pyvalue) : pyvalue :=
  match data with
  | PList (first :: _) => first
  | _ => data
  end.

(** The ways the registry lookup for [mun_code] can end in an exception,
    read off the response. *)
Inductive lookup_failure (w : World) (idx : nat) (mun_code : string)
  : exn -> Prop :=
| connection_failure text :
    requests_get w idx (ibge_url mun_code) = RequestFailed text ->
    lookup_failure w idx mun_code
      (QgsProcessingException (Msg.ibge_connection text))
| status_not_200 status_code json :
    requests_get w idx (ibge_url mun_code) = Response status_code json ->
    status_code <> 200%Z ->
    lookup_failure w idx mun_code
      (QgsProcessingException (Msg.ibge_status status_code mun_code))
| malformed_json :
    requests_get w idx (ibge_url mun_code) = Response 200 JsonDecodeError ->
    lookup_failure w idx mun_code
      (QgsProcessingException Msg.ibge_invalid_json)
| json_raises text :
    requests_get w idx (ibge_url mun_code)
    = Response 200 (JsonOtherError text) ->
    lookup_failure w idx mun_code (PyException text)
| empty_list :
    requests_get w idx (ibge_url mun_code)
    = Response 200 (JsonValue (PList [])) ->
    lookup_failure w idx mun_code
      (QgsProcessingException (Msg.ibge_empty_list mun_code))
| unexpected_shape data text :
    requests_get w idx (ibge_url mun_code)
    = Response 200 (JsonValue data) ->
    data <> PList [] ->
    read_place w (first_element data) = Raises text ->
    lookup_failure w idx mun_code
      (QgsProcessingException (Msg.ibge_unexpected mun_code text)).

Section Stages.

Variables (w : World) (buffer_m : Q) (network_type out_path : string)
          (idx : nat) (mun_code : string).

(** The values an iteration has in hand after each stage that returned. *)
Definition resolved (nome_mun uf_sigla : pyvalue) : Prop :=
  result_of (resolve_municipality w idx mun_code) = Ok (nome_mun, uf_sigla).

Definition bounded (nome_mun uf_sigla : pyvalue) (g : geom) : Prop :=
  resolved nome_mun uf_sigla
  /\ exists place_gdf geom0,
      result_of (fetch_boundary w idx (place_query_of w nome_mun uf_sigla))
      = Ok (place_gdf, geom0)
      /\ result_of (apply_buffer w idx buffer_m
                                 (place_query_of w nome_mun uf_sigla)
                                 place_gdf geom0) = Ok g.

Definition downloaded (nome_mun uf_sigla : pyvalue) (G : graph) : Prop :=
  exists g,
    bounded nome_mun uf_sigla g
    /\ result_of (download_network w idx
                                   (place_query_of w nome_mun uf_sigla)
                                   g network_type) = Ok G.

Definition projected (nome_mun uf_sigla : pyvalue) (G_proj : graph) : Prop :=
  exists G,
    downloaded nome_mun uf_sigla G
    /\ result_of (project_network w idx
                                  (place_query_of w nome_mun uf_sigla) G)
       = Ok G_proj.

Definition converted (nome_mun uf_sigla : pyvalue) (edges : edges_table)
  : Prop :=
  exists G_proj edges0,
    projected nome_mun uf_sigla G_proj
    /\ result_of (edge_table w idx (place_query_of w nome_mun uf_sigla)
                             G_proj) = Ok edges0
    /\ result_of (strip_crs w idx edges0) = Ok edges.

Definition saved (nome_mun uf_sigla : pyvalue) : Prop :=
  exists edges,
    converted nome_mun uf_sigla edges
    /\ result_of (save_layer w idx out_path (layer_name_of mun_code) edges)
       = Ok tt.

(** A fatal failure of the iteration at a stage: the stages before it have
    returned and the stage raises [e]. *)
Inductive stage_failure : stage -> exn -> Prop :=
| lookup_fails e :
    result_of (resolve_municipality w idx mun_code) = Raise e ->
    stage_failure RegistryLookup e
| boundary_fails nome_mun uf_sigla e :
    resolved nome_mun uf_sigla ->
    result_of (fetch_boundary w idx (place_query_of w nome_mun uf_sigla))
    = Raise e ->
    stage_failure BoundaryFetch e
| download_fails nome_mun uf_sigla g e :
    bounded nome_mun uf_sigla g ->
    result_of (download_network w idx (place_query_of w nome_mun uf_sigla)
                                g network_type) = Raise e ->
    stage_failure NetworkDownload e
| projection_fails nome_mun uf_sigla G e :
    downloaded nome_mun uf_sigla G ->
    result_of (project_network w idx (place_query_of w nome_mun uf_sigla) G)
    = Raise e ->
    stage_failure Reprojection e
| conversion_fails nome_mun uf_sigla G_proj e :
    projected nome_mun uf_sigla G_proj ->
    result_of (edge_table w idx (place_query_of w nome_mun uf_sigla) G_proj)
    = Raise e ->
    stage_failure EdgeTableConversion e
| write_fails nome_mun uf_sigla edges e :
    converted nome_mun uf_sigla edges ->
    result_of (save_layer w idx out_path (layer_name_of mun_code) edges)
    = Raise e ->
    stage_failure LayerWrite e
| load_fails nome_mun uf_sigla e :
    saved nome_mun uf_sigla ->
    result_of (load_layer w idx out_path (layer_name_of mun_code)
                          (vlayer_name_of w nome_mun uf_sigla network_type
                                          buffer_m)) = Raise e ->
    stage_failure LayerLoad e.

End Stages.

(** ** A sample world *)

Module Sample.

Definition place (nome sigla : string) : pyvalue :=
  PDict [("id", PInt 1);
         ("nome", PStr nome);
         ("microrregiao",
          PDict [("mesorregiao",
                  PDict [("UF", PDict [("sigla", PStr sigla)])])])].

(** The registry knows two codes, the second answered as a list; a third
    code is answered with a body that is not JSON, any other with 404. *)
Definition registry (url : string) : http_outcome :=
  if String.eqb url (ibge_url "4305108")
  then Response 200 (JsonValue (place "Caxias do Sul" "RS"))
  else if String.eqb url (ibge_url "3550308")
  then Response 200
         (JsonValue (PList [place ("S" +++ Msg.a_tilde +++ "o Paulo") "SP"]))
  else if String.eqb url (ibge_url "1100015")
  then Response 200 JsonDecodeError
  else Response 404 JsonDecodeError.

Definition shift (g : geom) : geom :=
  match g with Geom i => Geom (i + 100) end.

(** A world in which the projection to UTM, the projection to Web Mercator
    and the removal of the CRS tag work or not, everything else working. *)
Definition make_world (utm mercator crs_removal : bool) : World := {|
  import_osmnx := Imported;
  import_geopandas := Imported;
  requests_get := fun _ url => registry url;
  py_str := fun _ => "?";
  subscript_error := fun _ _ => "object is not subscriptable";
  float_str := fun _ => "250.0";
  geocode_to_gdf := fun idx _ => Returns [Geom idx];
  project_gdf := fun _ g =>
    if utm then Returns g else Raises "no UTM zone";
  gdf_buffer := fun _ g _ => Returns (map shift g);
  to_crs := fun _ g epsg =>
    if (epsg =? 3857)%Z && negb mercator
    then Raises "PROJ: unknown CRS" else Returns g;
  graph_from_polygon := fun _ g _ =>
    match g with Geom i => Returns (Graph i) end;
  project_graph := fun _ G => Returns G;
  graph_to_gdfs := fun _ G =>
    match G with
    | Graph i => Returns {| edges_id := i; edges_len := 12;
                            edges_crs := Some "EPSG:32722" |}
    end;
  set_crs_fails := fun _ _ =>
    if crs_removal then None else Some "PROJ: database not found";
  to_file_fails := fun _ _ _ _ => None;
  layer_is_valid := fun _ _ _ => true
|}.

Definition world : World := make_world true true true.

Definition params (codes : string) (buffer : Q) : Parameters := {|
  mun_codes_str := codes;
  out_path_user := "/home/ana/redes.gpkg";
  net_type_index := 0;
  buffer_m := buffer
|}.

End Sample.

(** ** Projections of the trace and of the inputs, for the statements *)

(** The codes of a list that are not in [seen]. *)
Definition unseen (seen : list string) (codes : list string) : list string :=
  filter (fun code => negb (Py.mem code seen)) codes.

(** The codes the length warning is about: neither 6 nor 7 characters. *)
Definition odd_length (code : string) : bool :=
  negb ((String.length code =? 6) || (String.length code =? 7)).

(** The URLs of the registry requests of a trace, in order. *)
Fixpoint requests (tr : list event) : list string :=
  match tr with
  | [] => []
  | RequestsGet url :: rest => url :: requests rest
  | _ :: rest => requests rest
  end.

(** The events of the feedback channel, as opposed to external calls. *)
Definition is_feedback (ev : event) : Prop :=
  match ev with
  | PushInfo _ | ReportError _ => True
  | _ => False
  end.

(** A computation whose events all satisfy [P], whatever it does to the
    package. *)
Definition logs (P : event -> Prop) {A} (m : M A) : Prop :=
  forall s, exists evs, trace (snd (m s)) = trace s ++ evs /\ Forall P evs.

(** The ways the imports can end in an exception, read off their
    outcomes: the second import is reached when the first gave its
    module. *)
Inductive import_failure (w : World) : exn -> Prop :=
| osmnx_unavailable :
    import_osmnx w = ImportError ->
    import_failure w (QgsProcessingException Msg.no_osmnx)
| osmnx_raises text :
    import_osmnx w = ImportRaises text ->
    import_failure w (PyException text)
| geopandas_unavailable :
    import_osmnx w = Imported ->
    import_geopandas w = ImportError ->
    import_failure w (QgsProcessingException Msg.no_geopandas)
| geopandas_raises text :
    import_osmnx w = Imported ->
    import_geopandas w = ImportRaises text ->
    import_failure w (PyException text).

(** The sample world with the given outcomes of the two imports. *)
Definition sample_world_importing (osmnx geopandas : import_outcome)
  : World := {|
  import_osmnx := osmnx;
  import_geopandas := geopandas;
  requests_get := requests_get Sample.world;
  py_str := py_str Sample.world;
  subscript_error := subscript_error Sample.world;
  float_str := float_str Sample.world;
  geocode_to_gdf := geocode_to_gdf Sample.world;
  project_gdf := project_gdf Sample.world;
  gdf_buffer := gdf_buffer Sample.world;
  to_crs := to_crs Sample.world;
  graph_from_polygon := graph_from_polygon Sample.world;
  project_graph := project_graph Sample.world;
  graph_to_gdfs := graph_to_gdfs Sample.world;
  set_crs_fails := set_crs_fails Sample.world;
  to_file_fails := to_file_fails Sample.world;
  layer_is_valid := layer_is_valid Sample.world
|}.

(** The sample world with a package that cannot be written, or a layer
    that cannot be loaded. *)
Definition sample_world_persisting (write_ok load_ok : bool) : World := {|
  import_osmnx := Imported;
  import_geopandas := Imported;
  requests_get := requests_get Sample.world;
  py_str := py_str Sample.world;
  subscript_error := subscript_error Sample.world;
  float_str := float_str Sample.world;
  geocode_to_gdf := geocode_to_gdf Sample.world;
  project_gdf := project_gdf Sample.world;
  gdf_buffer := gdf_buffer Sample.world;
  to_crs := to_crs Sample.world;
  graph_from_polygon := graph_from_polygon Sample.world;
  project_graph := project_graph Sample.world;
  graph_to_gdfs := graph_to_gdfs Sample.world;
  set_crs_fails := set_crs_fails Sample.world;
  to_file_fails := fun _ _ _ _ =>
    if write_ok then None else Some "disk full";
  layer_is_valid := fun _ _ _ => load_ok
|}.

Definition not_warning (ev : event) : Prop :=
  match ev with
  | ReportError _ => False
  | _ => True
  end.

(** What the external calls of a run are aimed at: every write goes to
    [out_path], into the layer of one of the codes; every layer opened or
    registered is that layer of that file; every download is for the
    selected network type. *)
Definition layer_uri (out_path mun_code : string) : string :=
  out_path +++ "|layername=" +++ layer_name_of mun_code.

Definition aimed_at (out_path : string) (network_type : option string)
           (codes : list string) (ev : event) : Prop :=
  match ev with
  | ToFile path layer _ =>
      path = out_path
      /\ exists c, In c codes /\ layer = layer_name_of c
  | NewVectorLayer uri _
  | StoreAddMapLayer uri _
  | ProjectAddMapLayer uri _ =>
      exists c, In c codes /\ uri = layer_uri out_path c
  | GraphFromPolygon _ t => network_type = Some t
  | _ => True
  end.

(** The layers added to the run's temporary store and to the project. *)
Fixpoint store_layers (tr : list event) : list (string * string) :=
  match tr with
  | [] => []
  | StoreAddMapLayer uri name :: rest => (uri, name) :: store_layers rest
  | _ :: rest => store_layers rest
  end.

Fixpoint project_layers (tr : list event) : list (string * string) :=
  match tr with
  | [] => []
  | ProjectAddMapLayer uri name :: rest => (uri, name) :: project_layers rest
  | _ :: rest => project_layers rest
  end.

(** A computation that adds the same layers to both. *)
Definition registers_in_both {A} (m : M A) : Prop :=
  forall s, exists evs,
    trace (snd (m s)) = trace s ++ evs
    /\ store_layers evs = project_layers evs.

(** ** The run on a destination that holds a package *)

(** The names of the layers the run found in the package and has not
    written again: those that are not the layer of a code in [done]. *)
Definition kept_layers (pkg0 : package) (done : list string) : list string :=
  unseen (map layer_name_of done) (layer_names pkg0).

(** The loop, started on the package [pkg0], has handled the codes [done]:
    the package holds the layers it found and has not written again, then
    the layers of the codes in their order; the list of created layers is
    the layers of the codes. *)
Definition loop_inv_from (pkg0 : package) (done : list string) (s : state)
  : Prop :=
  layer_names (gpkg s) = kept_layers pkg0 done ++ map layer_name_of done
  /\ created_layers s = map layer_name_of done.

(** ** The failures of an iteration, on the collaborators' outcomes *)

Section Collaborators.

Variables (w : World) (buffer_m : Q) (network_type out_path : string)
          (idx : nat) (mun_code : string).

(** The registry answers the request for the code with status 200 and a
    JSON value from which the name and the region can be read. *)
Definition registry_answers (nome_mun uf_sigla : pyvalue) : Prop :=
  exists data,
    requests_get w idx (ibge_url mun_code) = Response 200 (JsonValue data)
    /\ data <> PList []
    /\ read_place w (first_element data) = Returns (nome_mun, uf_sigla).

(** The geocoder returns a frame with at least one row. *)
Definition boundary_found (nome_mun uf_sigla : pyvalue)
           (place_gdf : gdf) (geom0 : geom) : Prop :=
  registry_answers nome_mun uf_sigla
  /\ geocode_to_gdf w idx (place_query_of w nome_mun uf_sigla)
     = Returns place_gdf
  /\ exists rest, place_gdf = geom0 :: rest.

(** The polygon the buffer stage hands on; that stage never raises. *)
Definition polygon_ready (nome_mun uf_sigla : pyvalue) (g : geom) : Prop :=
  exists place_gdf geom0,
    boundary_found nome_mun uf_sigla place_gdf geom0
    /\ result_of (apply_buffer w idx buffer_m
                               (place_query_of w nome_mun uf_sigla)
                               place_gdf geom0) = Ok g.

Definition network_downloaded (nome_mun uf_sigla : pyvalue) (G : graph)
  : Prop :=
  exists g,
    polygon_ready nome_mun uf_sigla g
    /\ graph_from_polygon w idx g network_type = Returns G.

Definition network_projected (nome_mun uf_sigla : pyvalue) (G_proj : graph)
  : Prop :=
  exists G,
    network_downloaded nome_mun uf_sigla G
    /\ project_graph w idx G = Returns G_proj.

(** The table the write is given: the one [graph_to_gdfs] returned, after
    the removal of its CRS tag, a stage that never raises. *)
Definition table_ready (nome_mun uf_sigla : pyvalue) (edges : edges_table)
  : Prop :=
  exists G_proj edges0,
    network_projected nome_mun uf_sigla G_proj
    /\ graph_to_gdfs w idx G_proj = Returns edges0
    /\ result_of (strip_crs w idx edges0) = Ok edges.

Definition layer_stored (nome_mun uf_sigla : pyvalue) : Prop :=
  exists edges,
    table_ready nome_mun uf_sigla edges
    /\ to_file_fails w idx out_path (layer_name_of mun_code) edges = None.

(** A collaborator fails at a stage of the iteration, the collaborators of
    the stages before it having returned; the exception is the one the
    script raises for that failure. *)
Inductive collaborator_failure : stage -> exn -> Prop :=
| registry_fails e :
    lookup_failure w idx mun_code e ->
    collaborator_failure RegistryLookup e
| geocoder_raises nome_mun uf_sigla text :
    registry_answers nome_mun uf_sigla ->
    geocode_to_gdf w idx (place_query_of w nome_mun uf_sigla)
    = Raises text ->
    collaborator_failure BoundaryFetch
      (QgsProcessingException
         (Msg.boundary_error (place_query_of w nome_mun uf_sigla) text))
| geocoder_finds_nothing nome_mun uf_sigla :
    registry_answers nome_mun uf_sigla ->
    geocode_to_gdf w idx (place_query_of w nome_mun uf_sigla)
    = Returns [] ->
    collaborator_failure BoundaryFetch
      (QgsProcessingException
         (Msg.boundary_empty (place_query_of w nome_mun uf_sigla)))
| download_raises nome_mun uf_sigla g text :
    polygon_ready nome_mun uf_sigla g ->
    graph_from_polygon w idx g network_type = Raises text ->
    collaborator_failure NetworkDownload
      (QgsProcessingException
         (Msg.download_error (place_query_of w nome_mun uf_sigla) text))
| projection_raises nome_mun uf_sigla G text :
    network_downloaded nome_mun uf_sigla G ->
    project_graph w idx G = Raises text ->
    collaborator_failure Reprojection
      (QgsProcessingException
         (Msg.projection_error (place_query_of w nome_mun uf_sigla) text))
| conversion_raises nome_mun uf_sigla G_proj text :
    network_projected nome_mun uf_sigla G_proj ->
    graph_to_gdfs w idx G_proj = Raises text ->
    collaborator_failure EdgeTableConversion
      (QgsProcessingException
         (Msg.conversion_error (place_query_of w nome_mun uf_sigla) text))
| write_raises nome_mun uf_sigla edges text :
    table_ready nome_mun uf_sigla edges ->
    to_file_fails w idx out_path (layer_name_of mun_code) edges
    = Some text ->
    collaborator_failure LayerWrite
      (QgsProcessingException
         (Msg.write_error (layer_name_of mun_code) text))
| layer_not_valid nome_mun uf_sigla :
    layer_stored nome_mun uf_sigla ->
    layer_is_valid w idx (layer_uri out_path mun_code)
                   (vlayer_name_of w nome_mun uf_sigla network_type buffer_m)
    = false ->
    collaborator_failure LayerLoad
      (QgsProcessingException (Msg.layer_invalid (layer_name_of mun_code))).

End Collaborators.

(** The sample world, except that at the iteration [at_idx] the
    collaborator of the stage [st] fails. *)
Definition stage_eqb (a b : stage) : bool :=
  match a, b with
  | RegistryLookup, RegistryLookup
  | BoundaryFetch, BoundaryFetch
  | NetworkDownload, NetworkDownload
  | Reprojection, Reprojection
  | EdgeTableConversion, EdgeTableConversion
  | LayerWrite, LayerWrite
  | LayerLoad, LayerLoad => true
  | _, _ => false
  end.

Definition sample_world_failing (st : stage) (at_idx : nat) : World :=
  let fails (st' : stage) (idx : nat) : bool :=
    stage_eqb st st' && (idx =? at_idx) in
  {|
  import_osmnx := Imported;
  import_geopandas := Imported;
  requests_get := fun idx url =>
    if fails RegistryLookup idx then RequestFailed "connection refused"
    else requests_get Sample.world idx url;
  py_str := py_str Sample.world;
  subscript_error := subscript_error Sample.world;
  float_str := float_str Sample.world;
  geocode_to_gdf := fun idx q =>
    if fails BoundaryFetch idx then Raises "Nominatim: no results"
    else geocode_to_gdf Sample.world idx q;
  project_gdf := project_gdf Sample.world;
  gdf_buffer := gdf_buffer Sample.world;
  to_crs := to_crs Sample.world;
  graph_from_polygon := fun idx g t =>
    if fails NetworkDownload idx then Raises "Overpass: timed out"
    else graph_from_polygon Sample.world idx g t;
  project_graph := fun idx G =>
    if fails Reprojection idx then Raises "PROJ: unknown CRS"
    else project_graph Sample.world idx G;
  graph_to_gdfs := fun idx G =>
    if fails EdgeTableConversion idx then Raises "graph has no edges"
    else graph_to_gdfs Sample.world idx G;
  set_crs_fails := set_crs_fails Sample.world;
  to_file_fails := fun idx path layer e =>
    if fails LayerWrite idx then Some "disk full"
    else to_file_fails Sample.world idx path layer e;
  layer_is_valid := fun idx uri name =>
    if fails LayerLoad idx then false
    else layer_is_valid Sample.world idx uri name
|}.

(** The events other than the opening of a layer and its registration. *)
Definition opens_no_layer (ev : event) : Prop :=
  match ev with
  | NewVectorLayer _ _ | StoreAddMapLayer _ _ | ProjectAddMapLayer _ _ =>
      False
  | _ => True
  end.

(** A layer a package may hold before the run. *)
Definition old_table : edges_table :=
  {| edges_id := 0; edges_len := 3; edges_crs := None |}.

(** * Properties *)

(** ** Strings *)

Lemma append_nil_r (s : string) : s +++ "" = s.
Proof. induction s as [|c s IH]; simpl; [reflexivity | now rewrite IH]. Qed.

Lemma append_assoc (a b c : string) : (a +++ b) +++ c = a +++ b +++ c.
Proof. induction a as [|x a IH]; simpl; [reflexivity | now rewrite IH]. Qed.

Lemma length_append (a b : string) :
  String.length (a +++ b) = String.length a + String.length b.
Proof. induction a as [|x a IH]; simpl; [reflexivity | now rewrite IH]. Qed.

Lemma append_inj_l (a b c : string) : a +++ b = a +++ c -> b = c.
Proof.
  induction a as [|x a IH]; simpl; intros H; [exact H|].
  injection H as H. now apply IH.
Qed.

Lemma lower_append (a b : string) :
  Py.lower (a +++ b) = Py.lower a +++ Py.lower b.
Proof. induction a as [|x a IH]; simpl; [reflexivity | now rewrite IH]. Qed.

Lemma substring_all (s : string) : substring 0 (String.length s) s = s.
Proof. induction s as [|c s IH]; simpl; [reflexivity | now rewrite IH]. Qed.

Lemma substring_skip (a b : string) (n : nat) :
  substring (String.length a) n (a +++ b) = substring 0 n b.
Proof. induction a as [|x a IH]; simpl; [reflexivity | exact IH]. Qed.

Lemma endswith_append (a b : string) : Py.endswith (a +++ b) b = true.
Proof.
  unfold Py.endswith. rewrite length_append.
  replace (String.length a + String.length b - String.length b)
    with (String.length a) by lia.
  rewrite substring_skip, substring_all, String.eqb_refl.
  rewrite andb_true_r. apply Nat.leb_le. lia.
Qed.

Lemma prefix_append (a b : string) : String.prefix a (a +++ b) = true.
Proof.
  induction a as [|x a IH]; simpl; [now destruct b|].
  destruct (ascii_dec x x) as [_|N]; [exact IH | now contradiction N].
Qed.

Lemma contains_intro (pre sub post : string) :
  Py.contains (pre +++ sub +++ post) sub = true.
Proof.
  induction pre as [|x pre IH].
  - pose proof (prefix_append sub post) as H. simpl.
    destruct (sub +++ post); cbn [Py.contains]; now rewrite H.
  - cbn [String.append Py.contains]. rewrite IH.
    now destruct (String.prefix sub _).
Qed.

Lemma contains_here (sub post : string) :
  Py.contains (sub +++ post) sub = true.
Proof. apply (contains_intro "" sub post). Qed.

Lemma contains_self (sub : string) : Py.contains sub sub = true.
Proof.
  rewrite <- (append_nil_r sub) at 1. apply contains_here.
Qed.

Lemma contains_right (pre rest sub : string) :
  Py.contains rest sub = true -> Py.contains (pre +++ rest) sub = true.
Proof.
  intros H. induction pre as [|x pre IH]; [exact H|].
  cbn [String.append Py.contains]. rewrite IH.
  now destruct (String.prefix sub _).
Qed.

(** The format argument [sub] is found in a message built by [+++]. *)
Ltac find_argument :=
  repeat first
    [ apply contains_here | apply contains_self | apply contains_right ].

(** ** The code parser *)

Lemma mem_In (x : string) (l : list string) :
  Py.mem x l = true <-> In x l.
Proof.
  unfold Py.mem. rewrite existsb_exists. split.
  - intros [y [Hy E]]. apply String.eqb_eq in E. now subst.
  - intros H. exists x. split; [exact H | apply String.eqb_refl].
Qed.

Lemma dedup_loop_spec (codes seen unique_codes : list string) :
  (forall x, In x seen <-> In x unique_codes) ->
  NoDup unique_codes ->
  NoDup (dedup_loop codes seen unique_codes)
  /\ (forall x, In x (dedup_loop codes seen unique_codes)
                <-> In x unique_codes \/ In x codes)
  /\ (exists added, dedup_loop codes seen unique_codes
                    = unique_codes ++ added).
Proof.
  revert seen unique_codes.
  induction codes as [|c rest IH]; intros seen uniq Hs Hn; simpl.
  - split; [exact Hn|]. split; [tauto|]. exists []. now rewrite app_nil_r.
  - destruct (Py.mem c seen) eqn:Em; simpl.
    + apply mem_In in Em.
      destruct (IH seen uniq Hs Hn) as (H1 & H2 & H3).
      split; [exact H1|]. split; [|exact H3].
      intros x. rewrite H2. split; [tauto|].
      intros [H|[H|H]]; [tauto| |tauto].
      subst x. left. now apply Hs.
    + assert (Hnot : ~ In c uniq).
      { intros H. apply Hs in H. apply mem_In in H. congruence. }
      destruct (IH (c :: seen) (uniq ++ [c])) as (H1 & H2 & H3).
      * intros x. simpl. rewrite in_app_iff, Hs. simpl. tauto.
      * apply NoDup_app; [exact Hn | repeat constructor; simpl; tauto |].
        intros x Hx [E|[]]. now subst.
      * split; [exact H1|]. split.
        -- intros x. rewrite H2, in_app_iff. simpl. tauto.
        -- destruct H3 as [added E]. exists (c :: added).
           rewrite E, <- app_assoc. reflexivity.
Qed.

Lemma filter_chars_all (p : ascii -> bool) (s : string) :
  all_chars p (Py.filter_chars p s) = true.
Proof.
  unfold all_chars. induction s as [|c s IH]; simpl; [reflexivity|].
  destruct (p c) eqn:E; simpl; [now rewrite E|exact IH].
Qed.

Lemma digit_codes_spec (parts : list string) (code : string) :
  In code (digit_codes parts) ->
  code <> "" /\ all_chars Py.isdigit code = true.
Proof.
  induction parts as [|part rest IH]; simpl; [tauto|].
  destruct (Py.filter_chars Py.isdigit part) eqn:E.
  - exact IH.
  - intros [H|H]; [|now apply IH].
    subst code. split; [discriminate|].
    rewrite <- E. apply filter_chars_all.
Qed.

Lemma parse_NoDup (s : string) : NoDup (_parse_municipality_codes s).
Proof.
  destruct s as [|c s]; [constructor|].
  unfold _parse_municipality_codes.
  apply dedup_loop_spec; [simpl; tauto | constructor].
Qed.

Lemma parse_digits (s code : string) :
  In code (_parse_municipality_codes s) ->
  code <> "" /\ all_chars Py.isdigit code = true.
Proof.
  destruct s as [|c s]; [simpl; tauto|].
  unfold _parse_municipality_codes. intros H.
  apply dedup_loop_spec in H; [|simpl; tauto|constructor].
  destruct H as [[]|H]. now apply digit_codes_spec in H.
Qed.

Lemma filter_replace (old new : ascii) (s : string) :
  Py.isdigit old = false -> Py.isdigit new = false ->
  Py.filter_chars Py.isdigit (Py.replace old new s)
  = Py.filter_chars Py.isdigit s.
Proof.
  intros Ho Hn. induction s as [|c s IH]; simpl; [reflexivity|].
  destruct (Ascii.eqb c old) eqn:E.
  - apply Ascii.eqb_eq in E. subst c. now rewrite Ho, Hn.
  - now rewrite IH.
Qed.

Lemma digits_of_split (sep : ascii) (s : string) :
  Py.isdigit sep = false ->
  digits_of_parts (Py.split sep s) = Py.filter_chars Py.isdigit s.
Proof.
  intros Hs. induction s as [|c s IH]; simpl; [reflexivity|].
  destruct (Ascii.eqb c sep) eqn:E.
  - apply Ascii.eqb_eq in E. subst c. now rewrite Hs.
  - destruct (Py.split sep s) as [|q qs]; simpl in *.
    + rewrite <- IH. destruct (Py.isdigit c); reflexivity.
    + rewrite <- IH. destruct (Py.isdigit c); reflexivity.
Qed.

Lemma digit_codes_nil (parts : list string) :
  digit_codes parts = [] <-> digits_of_parts parts = "".
Proof.
  induction parts as [|part rest IH]; simpl; [tauto|].
  destruct (Py.filter_chars Py.isdigit part); simpl; [exact IH|].
  split; discriminate.
Qed.

Lemma dedup_loop_nil (codes : list string) :
  dedup_loop codes [] [] = [] <-> codes = [].
Proof.
  split; [|now intros ->].
  destruct codes as [|c rest]; [reflexivity|]. intros H.
  assert (In c (dedup_loop (c :: rest) [] [])).
  { apply dedup_loop_spec; [simpl; tauto|constructor|]. right. now left. }
  rewrite H in *. contradiction.
Qed.

(** The parser returns no code exactly when the input has no digit. *)
Lemma parse_nil_iff (s : string) :
  _parse_municipality_codes s = [] <-> Py.filter_chars Py.isdigit s = "".
Proof.
  destruct s as [|c s]; [simpl; tauto|].
  remember (String c s) as s0 eqn:E0.
  assert (E : _parse_municipality_codes s0
              = dedup_loop
                  (digit_codes
                     (Py.split ","%char
                        (Py.replace (ascii_of_nat 9) ","%char
                           (Py.replace (ascii_of_nat 10) ","%char
                              (Py.replace ";"%char ","%char s0)))))
                  [] []).
  { subst s0. reflexivity. }
  rewrite E, dedup_loop_nil, digit_codes_nil, digits_of_split by reflexivity.
  rewrite !filter_replace by reflexivity. tauto.
Qed.

Example parse_spec_example :
  _parse_municipality_codes "4305108; 4305108, 3550308"
  = ["4305108"; "3550308"].
Proof. reflexivity. Qed.

Example parse_separators :
  _parse_municipality_codes
    ("4305108;3550308" +++ Msg.nl +++ "3304557" +++ Msg.chr 9 +++ "5300108,")
  = ["4305108"; "3550308"; "3304557"; "5300108"].
Proof. reflexivity. Qed.

(** ** [os.path.splitext] on some paths *)

Example splitext_plain :
  OsPath.splitext Posix "/home/ana/redes.shp" = ("/home/ana/redes", ".shp").
Proof. reflexivity. Qed.

Example splitext_dotted_directory :
  OsPath.splitext Posix "/home/ana.maffini/redes"
  = ("/home/ana.maffini/redes", "").
Proof. reflexivity. Qed.

Example splitext_hidden_file :
  OsPath.splitext Posix "/home/ana/.redes" = ("/home/ana/.redes", "").
Proof. reflexivity. Qed.

Example splitext_two_extensions :
  OsPath.splitext Nt "C:\dados\redes.tar.GPKG"
  = ("C:\dados\redes.tar", ".GPKG").
Proof. reflexivity. Qed.

(** ** The monad *)

Lemma bind_Ok {A B} (m : M A) (k : A -> M B) s a s1 :
  m s = (Ok a, s1) -> bind m k s = k a s1.
Proof. unfold bind. now intros ->. Qed.

Lemma bind_Raise {A B} (m : M A) (k : A -> M B) s e s1 :
  m s = (Raise e, s1) -> bind m k s = (Raise e, s1).
Proof. unfold bind. now intros ->. Qed.

Lemma run_Ok {A} (m : M A) s a :
  fst (m s) = Ok a -> m s = (Ok a, snd (m s)).
Proof. destruct (m s). simpl. now intros ->. Qed.

Lemma run_Raise {A} (m : M A) s e :
  fst (m s) = Raise e -> m s = (Raise e, snd (m s)).
Proof. destruct (m s). simpl. now intros ->. Qed.

Lemma bind_inv {A B} (m : M A) (k : A -> M B) s r s2 :
  bind m k s = (r, s2) ->
  (exists a s1, m s = (Ok a, s1) /\ k a s1 = (r, s2))
  \/ (exists e, m s = (Raise e, s2) /\ r = Raise e).
Proof.
  unfold bind. destruct (m s) as [[a|e] s1]; intros H.
  - left. now exists a, s1.
  - right. exists e. now inversion H.
Qed.

Lemma stateless_result {A} (m : M A) (s : state) :
  stateless m -> fst (m s) = result_of m.
Proof. intros H. apply H. Qed.

Lemma stateless_ret {A} (a : A) : stateless (ret a).
Proof. now intros s s'. Qed.

Lemma stateless_raise {A} (e : exn) : stateless (@raise A e).
Proof. now intros s s'. Qed.

Lemma stateless_log (ev : event) : stateless (log ev).
Proof. now intros s s'. Qed.

Lemma stateless_put_layer n e : stateless (put_layer n e).
Proof. now intros s s'. Qed.

Lemma stateless_append_created n : stateless (append_created n).
Proof. now intros s s'. Qed.

Lemma stateless_bind {A B} (m : M A) (k : A -> M B) :
  stateless m -> (forall a, stateless (k a)) -> stateless (bind m k).
Proof.
  intros Hm Hk s s'. unfold bind. specialize (Hm s s').
  destruct (m s) as [[a|e] s1], (m s') as [[a'|e'] s1']; simpl in Hm;
    try discriminate; inversion Hm; subst; [apply Hk | reflexivity].
Qed.

Lemma extends_refl P s : extends P s s.
Proof.
  repeat split. exists []. now rewrite app_nil_r.
Qed.

Lemma extends_trans P s1 s2 s3 :
  extends P s1 s2 -> extends P s2 s3 -> extends P s1 s3.
Proof.
  intros (G1 & C1 & e1 & T1 & F1) (G2 & C2 & e2 & T2 & F2).
  repeat split; [congruence | congruence |].
  exists (e1 ++ e2). split.
  - now rewrite T2, T1, app_assoc.
  - apply Forall_app. now split.
Qed.

Lemma extends_weaken (P Q : event -> Prop) s s' :
  (forall ev, P ev -> Q ev) -> extends P s s' -> extends Q s s'.
Proof.
  intros H (G & C & evs & T & F). repeat split; trivial.
  exists evs. split; [exact T|]. eapply Forall_impl; eauto.
Qed.

Lemma quiet_ret P {A} (a : A) : quiet P (ret a).
Proof. intros s. apply extends_refl. Qed.

Lemma quiet_raise P {A} (e : exn) : quiet P (@raise A e).
Proof. intros s. apply extends_refl. Qed.

Lemma quiet_log (P : event -> Prop) (ev : event) : P ev -> quiet P (log ev).
Proof.
  intros H s. repeat split. exists [ev]. split; [reflexivity|].
  now constructor.
Qed.

Lemma quiet_bind P {A B} (m : M A) (k : A -> M B) :
  quiet P m -> (forall a, quiet P (k a)) -> quiet P (bind m k).
Proof.
  intros Hm Hk s. unfold bind. specialize (Hm s).
  destruct (m s) as [[a|e] s1]; simpl in *; [|exact Hm].
  eapply extends_trans; [exact Hm | apply Hk].
Qed.

Lemma quiet_weaken (P Q : event -> Prop) {A} (m : M A) :
  (forall ev, P ev -> Q ev) -> quiet P m -> quiet Q m.
Proof. intros H Hm s. eapply extends_weaken; eauto. Qed.

Lemma monotone_of_quiet P {A} (m : M A) : quiet P m -> monotone m.
Proof. intros H s. destruct (H s) as (_ & _ & evs & T & _). eauto. Qed.

Lemma monotone_ret {A} (a : A) : monotone (ret a).
Proof. intros s. exists []. simpl. now rewrite app_nil_r. Qed.

Lemma monotone_raise {A} (e : exn) : monotone (@raise A e).
Proof. intros s. exists []. simpl. now rewrite app_nil_r. Qed.

Lemma monotone_log (ev : event) : monotone (log ev).
Proof. intros s. now exists [ev]. Qed.

Lemma monotone_put_layer n e : monotone (put_layer n e).
Proof. intros s. exists []. simpl. now rewrite app_nil_r. Qed.

Lemma monotone_append_created n : monotone (append_created n).
Proof. intros s. exists []. simpl. now rewrite app_nil_r. Qed.

Lemma monotone_bind {A B} (m : M A) (k : A -> M B) :
  monotone m -> (forall a, monotone (k a)) -> monotone (bind m k).
Proof.
  intros Hm Hk s. unfold bind. destruct (Hm s) as [e1 T1].
  destruct (m s) as [[a|e] s1]; simpl in *; [|eauto].
  destruct (Hk a s1) as [e2 T2]. exists (e1 ++ e2).
  now rewrite T2, T1, app_assoc.
Qed.

Lemma in_trace_snd {A} (m : M A) s ev :
  monotone m -> In ev (trace s) -> In ev (trace (snd (m s))).
Proof.
  intros H Hin. destruct (H s) as [evs ->]. apply in_or_app. now left.
Qed.

Lemma in_trace_bind {A B} (m : M A) (k : A -> M B) s ev :
  In ev (trace (snd (m s))) -> (forall a, monotone (k a)) ->
  In ev (trace (snd (bind m k s))).
Proof.
  intros Hin Hk. unfold bind.
  destruct (m s) as [[a|e] s1]; simpl in *; [|exact Hin].
  now apply in_trace_snd.
Qed.

(** One step of the proof that a computation is [stateless] or [quiet]:
    follow its binds and branches down to the primitives. *)
Ltac walk :=
  lazymatch goal with
  | |- stateless ?m =>
      lazymatch m with
      | bind _ _ => apply stateless_bind; [|intros ?]
      | ret _ => apply stateless_ret
      | raise _ => apply stateless_raise
      | log _ => apply stateless_log
      | push_info _ => apply stateless_log
      | report_error _ => apply stateless_log
      | call _ _ => unfold call
      | put_layer _ _ => apply stateless_put_layer
      | append_created _ => apply stateless_append_created
      | match ?x with _ => _ end => destruct x
      end
  | |- monotone ?m =>
      lazymatch m with
      | bind _ _ => apply monotone_bind; [|intros ?]
      | ret _ => apply monotone_ret
      | raise _ => apply monotone_raise
      | log _ => apply monotone_log
      | push_info _ => apply monotone_log
      | report_error _ => apply monotone_log
      | call _ _ => unfold call
      | put_layer _ _ => apply monotone_put_layer
      | append_created _ => apply monotone_append_created
      | match ?x with _ => _ end => destruct x
      end
  | |- quiet _ ?m =>
      lazymatch m with
      | bind _ _ => apply quiet_bind; [|intros ?]
      | ret _ => apply quiet_ret
      | raise _ => apply quiet_raise
      | log _ => apply quiet_log; simpl; auto
      | push_info _ => apply quiet_log; exact I
      | report_error _ => apply quiet_log; exact I
      | call _ _ => unfold call
      | match ?x with _ => _ end => destruct x
      end
  end.

Ltac walk_stage := repeat walk.

Lemma tame_warn_code_lengths codes :
  stateless (warn_code_lengths codes)
  /\ quiet no_request (warn_code_lengths codes).
Proof.
  induction codes as [|c rest [IH1 IH2]]; simpl; split;
    walk_stage; assumption.
Qed.

Lemma tame_normalize_output_path os path :
  stateless (normalize_output_path os path)
  /\ quiet no_request (normalize_output_path os path).
Proof. unfold normalize_output_path. split; walk_stage. Qed.

Lemma tame_import_modules w :
  stateless (import_modules w) /\ quiet no_request (import_modules w).
Proof. unfold import_modules, import_module. split; walk_stage. Qed.

Lemma tame_resolve_municipality w idx c :
  stateless (resolve_municipality w idx c)
  /\ quiet (own_request c) (resolve_municipality w idx c).
Proof. unfold resolve_municipality. split; walk_stage. Qed.

Lemma tame_fetch_boundary w idx q :
  stateless (fetch_boundary w idx q) /\ quiet no_request (fetch_boundary w idx q).
Proof. unfold fetch_boundary. split; walk_stage. Qed.

Lemma tame_buffer_primary w idx g b :
  stateless (buffer_primary w idx g b)
  /\ quiet no_request (buffer_primary w idx g b).
Proof. unfold buffer_primary. split; walk_stage. Qed.

Lemma tame_buffer_fallback w idx g b :
  stateless (buffer_fallback w idx g b)
  /\ quiet no_request (buffer_fallback w idx g b).
Proof. unfold buffer_fallback. split; walk_stage. Qed.

Lemma tame_buffered_geometry w idx g b :
  stateless (buffered_geometry w idx g b)
  /\ quiet no_request (buffered_geometry w idx g b).
Proof.
  unfold buffered_geometry.
  split; walk_stage;
    first [apply tame_buffer_primary | apply tame_buffer_fallback].
Qed.

Lemma tame_apply_buffer w idx b q g g0 :
  stateless (apply_buffer w idx b q g g0)
  /\ quiet no_request (apply_buffer w idx b q g g0).
Proof.
  unfold apply_buffer. split; walk_stage; apply tame_buffered_geometry.
Qed.

Lemma tame_download_network w idx q g nt :
  stateless (download_network w idx q g nt)
  /\ quiet no_request (download_network w idx q g nt).
Proof. unfold download_network. split; walk_stage. Qed.

Lemma tame_project_network w idx q G :
  stateless (project_network w idx q G)
  /\ quiet no_request (project_network w idx q G).
Proof. unfold project_network. split; walk_stage. Qed.

Lemma tame_edge_table w idx q G :
  stateless (edge_table w idx q G) /\ quiet no_request (edge_table w idx q G).
Proof. unfold edge_table. split; walk_stage. Qed.

Lemma tame_strip_crs w idx e :
  stateless (strip_crs w idx e) /\ quiet no_request (strip_crs w idx e).
Proof. unfold strip_crs. split; walk_stage. Qed.

Lemma tame_load_layer w idx out ln vn :
  stateless (load_layer w idx out ln vn)
  /\ quiet no_request (load_layer w idx out ln vn).
Proof. unfold load_layer. split; walk_stage. Qed.

Lemma stateless_save_layer w idx out ln e : stateless (save_layer w idx out ln e).
Proof. unfold save_layer. walk_stage. Qed.

(** ** The package *)

Lemma layer_name_of_inj (c c' : string) :
  layer_name_of c = layer_name_of c' -> c = c'.
Proof. apply append_inj_l. Qed.

Lemma ibge_url_inj (c c' : string) : ibge_url c = ibge_url c' -> c = c'.
Proof. apply append_inj_l. Qed.

Lemma drop_layer_fresh (pkg : package) (n : string) :
  ~ In n (layer_names pkg) -> drop_layer pkg n = pkg.
Proof.
  induction pkg as [|[m x] rest IH]; simpl; intros H; [reflexivity|].
  destruct (String.eqb m n) eqn:E.
  - apply String.eqb_eq in E. tauto.
  - simpl. rewrite IH; tauto.
Qed.

Lemma layer_names_drop (pkg : package) (n : string) :
  layer_names (drop_layer pkg n)
  = filter (fun m => negb (String.eqb m n)) (layer_names pkg).
Proof.
  induction pkg as [|[m x] rest IH]; simpl; [reflexivity|].
  destruct (String.eqb m n); simpl; now rewrite <- IH.
Qed.

Lemma layer_names_write (pkg : package) (n : string) (e : edges_table) :
  layer_names (write_layer pkg n e)
  = filter (fun m => negb (String.eqb m n)) (layer_names pkg) ++ [n].
Proof.
  unfold write_layer, layer_names. rewrite map_app. simpl.
  f_equal. apply layer_names_drop.
Qed.

Lemma write_layer_fresh (pkg : package) (n : string) (e : edges_table) :
  ~ In n (layer_names pkg) ->
  layer_names (write_layer pkg n e) = layer_names pkg ++ [n].
Proof.
  intros H. unfold write_layer. rewrite (drop_layer_fresh _ _ H).
  unfold layer_names. now rewrite map_app.
Qed.

Lemma write_layer_lookup (pkg : package) (n : string) (e : edges_table) :
  In (n, e) (write_layer pkg n e).
Proof. unfold write_layer. apply in_or_app. right. now left. Qed.

(** ** One iteration *)

Lemma save_layer_post w idx out c e s :
  iteration_post c s (fst (save_layer w idx out (layer_name_of c) e s))
                 (snd (save_layer w idx out (layer_name_of c) e s)).
Proof.
  unfold save_layer, call, bind, log, ret, raise, put_layer, append_created.
  destruct (to_file_fails w idx out (layer_name_of c) e); simpl.
  - split; [|left; split; reflexivity].
    eexists. split; [reflexivity|]. repeat constructor.
  - split; [|exists e; split; reflexivity].
    eexists. split; [reflexivity|]. repeat constructor.
Qed.

Lemma own_request_of_no_request c ev : no_request ev -> own_request c ev.
Proof. destruct ev; simpl; tauto. Qed.

Lemma iteration_post_after_quiet c {A} (m : M A) (k : A -> M unit) :
  quiet (own_request c) m ->
  (forall a s, iteration_post c s (fst (k a s)) (snd (k a s))) ->
  forall s, iteration_post c s (fst (bind m k s)) (snd (bind m k s)).
Proof.
  intros Hm Hk s. unfold bind. specialize (Hm s).
  destruct (m s) as [[a|e] s1]; simpl in *.
  - specialize (Hk a s1).
    destruct Hm as (G & C & ev1 & T1 & F1).
    destruct Hk as [(ev2 & T2 & F2) Hr]. split.
    + exists (ev1 ++ ev2). split; [now rewrite T2, T1, app_assoc|].
      apply Forall_app. now split.
    + unfold written, unchanged in *. rewrite <- G, <- C. exact Hr.
  - destruct Hm as (G & C & ev1 & T1 & F1). split.
    + now exists ev1.
    + left. now split.
Qed.

Lemma iteration_post_then_quiet c (m : M unit) (k : unit -> M unit) :
  (forall s, iteration_post c s (fst (m s)) (snd (m s))) ->
  (forall a, quiet (own_request c) (k a)) ->
  forall s, iteration_post c s (fst (bind m k s)) (snd (bind m k s)).
Proof.
  intros Hm Hk s. unfold bind. specialize (Hm s).
  destruct (m s) as [[a|e] s1]; simpl in *; [|exact Hm].
  specialize (Hk a s1).
  destruct Hk as (G & C & ev2 & T2 & F2).
  destruct Hm as [(ev1 & T1 & F1) Hr]. split.
  - exists (ev1 ++ ev2). split; [now rewrite T2, T1, app_assoc|].
    apply Forall_app. now split.
  - unfold written, unchanged in *. rewrite G, C.
    destruct (fst (k a s1)); [exact Hr | now right].
Qed.

Ltac quiet_stage lem :=
  first [ apply lem
        | eapply quiet_weaken;
          [apply own_request_of_no_request | apply lem] ].

Lemma process_municipality_post w b nt out total idx c s :
  iteration_post c s
    (fst (process_municipality w b nt out total idx c s))
    (snd (process_municipality w b nt out total idx c s)).
Proof.
  revert s. unfold process_municipality.
  apply iteration_post_after_quiet; [apply quiet_log; exact I|intros _].
  apply iteration_post_after_quiet;
    [quiet_stage tame_resolve_municipality|intros [nome_mun uf_sigla]].
  apply iteration_post_after_quiet; [apply quiet_log; exact I|intros _].
  apply iteration_post_after_quiet; [apply quiet_log; exact I|intros _].
  apply iteration_post_after_quiet;
    [destruct (buffer_positive b); apply quiet_log; exact I|intros _].
  apply iteration_post_after_quiet;
    [quiet_stage tame_fetch_boundary|intros [place_gdf geom0]].
  apply iteration_post_after_quiet;
    [quiet_stage tame_apply_buffer|intros g].
  apply iteration_post_after_quiet; [apply quiet_log; exact I|intros _].
  apply iteration_post_after_quiet;
    [quiet_stage tame_download_network|intros G].
  apply iteration_post_after_quiet;
    [quiet_stage tame_project_network|intros G_proj].
  apply iteration_post_after_quiet;
    [quiet_stage tame_edge_table|intros edges].
  apply iteration_post_after_quiet; [apply quiet_log; exact I|intros _].
  apply iteration_post_after_quiet;
    [quiet_stage tame_strip_crs|intros edges'].
  apply iteration_post_then_quiet; [apply save_layer_post|intros _].
  quiet_stage tame_load_layer.
Qed.

Lemma monotone_save_layer w idx out ln e : monotone (save_layer w idx out ln e).
Proof. unfold save_layer. walk_stage. Qed.

(** The stages, for the three properties. *)
Ltac stage :=
  first
    [ apply tame_resolve_municipality | apply tame_fetch_boundary
    | apply tame_buffer_primary | apply tame_buffer_fallback
    | apply tame_buffered_geometry | apply tame_apply_buffer
    | apply tame_download_network | apply tame_project_network
    | apply tame_edge_table | apply tame_strip_crs
    | apply stateless_save_layer | apply monotone_save_layer
    | apply tame_load_layer
    | apply tame_warn_code_lengths | apply tame_normalize_output_path
    | apply tame_import_modules ].

(** What is left of an iteration after any of its steps only adds to the
    trace. *)
Ltac rest_monotone :=
  intros;
  repeat first [ walk | stage | eapply monotone_of_quiet; stage ].

(** One step forward through a bind whose first computation returns: by
    computation, or by a hypothesis on its result. *)
Ltac forward :=
  erewrite bind_Ok by
    (apply run_Ok;
     first
       [ reflexivity
       | destruct (buffer_positive _); reflexivity
       | rewrite stateless_result by stage; eassumption ]);
  cbv beta iota.

Ltac forward_raise :=
  erewrite bind_Raise by
    (apply run_Raise; rewrite stateless_result by stage; eassumption).

Lemma stateless_process_municipality w b nt out total idx c :
  stateless (process_municipality w b nt out total idx c).
Proof.
  unfold process_municipality.
  repeat first
    [ walk
    | apply tame_resolve_municipality | apply tame_fetch_boundary
    | apply tame_apply_buffer | apply tame_download_network
    | apply tame_project_network | apply tame_edge_table
    | apply tame_strip_crs | apply stateless_save_layer
    | apply tame_load_layer ].
Qed.

(** ** The events of an iteration *)

Lemma logs_of_quiet P {A} (m : M A) : quiet P m -> logs P m.
Proof. intros H s. destruct (H s) as (_ & _ & evs & T & F). eauto. Qed.

Lemma logs_nothing P {A} (m : M A) :
  (forall s, trace (snd (m s)) = trace s) -> logs P m.
Proof. intros H s. exists []. now rewrite H, app_nil_r. Qed.

Lemma logs_log (P : event -> Prop) (ev : event) : P ev -> logs P (log ev).
Proof. intros H s. exists [ev]. split; [reflexivity | now constructor]. Qed.

Lemma logs_bind P {A B} (m : M A) (k : A -> M B) :
  logs P m -> (forall a, logs P (k a)) -> logs P (bind m k).
Proof.
  intros Hm Hk s. unfold bind. destruct (Hm s) as (e1 & T1 & F1).
  destruct (m s) as [[a|e] s1]; cbn [snd] in *; [|eauto].
  destruct (Hk a s1) as (e2 & T2 & F2). exists (e1 ++ e2). split.
  - now rewrite T2, T1, app_assoc.
  - apply Forall_app. now split.
Qed.

Ltac walk_logs :=
  lazymatch goal with
  | |- logs _ ?m =>
      lazymatch m with
      | bind _ _ => apply logs_bind; [|intros ?]
      | ret _ => apply logs_nothing; reflexivity
      | raise _ => apply logs_nothing; reflexivity
      | put_layer _ _ => apply logs_nothing; reflexivity
      | append_created _ => apply logs_nothing; reflexivity
      | log _ => apply logs_log; exact I
      | push_info _ => apply logs_log; exact I
      | report_error _ => apply logs_log; exact I
      | call _ _ => unfold call
      | save_layer _ _ _ _ _ => unfold save_layer
      | match ?x with _ => _ end => destruct x
      | _ => apply logs_of_quiet; stage
      end
  end.

Lemma logs_weaken (P Q : event -> Prop) {A} (m : M A) :
  (forall ev, P ev -> Q ev) -> logs P m -> logs Q m.
Proof.
  intros H Hm s. destruct (Hm s) as (evs & T & F). exists evs.
  split; [exact T|]. eapply Forall_impl; eauto.
Qed.

(** The walk through a computation down to its primitives, the stages
    opened. *)
Ltac walk_events :=
  lazymatch goal with
  | |- logs _ ?m =>
      lazymatch m with
      | bind _ _ => apply logs_bind; [|intros ?]
      | ret _ => apply logs_nothing; reflexivity
      | raise _ => apply logs_nothing; reflexivity
      | put_layer _ _ => apply logs_nothing; reflexivity
      | append_created _ => apply logs_nothing; reflexivity
      | log _ => apply logs_log; cbn; eauto
      | push_info _ => apply logs_log; exact I
      | report_error _ => apply logs_log; exact I
      | call _ _ => unfold call
      | resolve_municipality _ _ _ => unfold resolve_municipality
      | fetch_boundary _ _ _ => unfold fetch_boundary
      | apply_buffer _ _ _ _ _ _ => unfold apply_buffer
      | buffered_geometry _ _ _ _ => unfold buffered_geometry
      | buffer_primary _ _ _ _ => unfold buffer_primary
      | buffer_fallback _ _ _ _ => unfold buffer_fallback
      | download_network _ _ _ _ _ => unfold download_network
      | project_network _ _ _ _ => unfold project_network
      | edge_table _ _ _ _ => unfold edge_table
      | strip_crs _ _ _ => unfold strip_crs
      | save_layer _ _ _ _ _ => unfold save_layer
      | load_layer _ _ _ _ _ => unfold load_layer
      | match ?x with _ => _ end => destruct x
      end
  end.

Lemma process_municipality_aim w b nt out total idx c :
  logs (aimed_at out (Some nt) [c])
       (process_municipality w b nt out total idx c).
Proof.
  unfold process_municipality, layer_uri.
  repeat walk_events.
Qed.

Lemma aimed_at_incl out nt codes codes' ev :
  incl codes codes' -> aimed_at out nt codes ev -> aimed_at out nt codes' ev.
Proof.
  intros H. destruct ev; cbn; trivial.
  - intros (E & c & Hc & L). eauto 6.
  - intros (c & Hc & L). eauto.
  - intros (c & Hc & L). eauto.
  - intros (c & Hc & L). eauto.
Qed.

Lemma for_each_aim w b nt out total codes : forall idx,
  logs (aimed_at out (Some nt) codes)
       (for_each (process_municipality w b nt out total) idx codes).
Proof.
  induction codes as [|c rest IH]; intros idx; cbn [for_each].
  - apply logs_nothing. reflexivity.
  - apply logs_bind; [|intros _].
    + eapply logs_weaken; [|apply process_municipality_aim].
      intros ev. apply aimed_at_incl. intros x [<-|[]]. now left.
    + eapply logs_weaken; [|apply IH].
      intros ev. apply aimed_at_incl. intros x Hx. now right.
Qed.

(** ** Before the loop *)

Lemma guard_net_type_index_range (i : Z) :
  (0 <= guard_net_type_index i < 5)%Z.
Proof.
  unfold guard_net_type_index.
  change (Z.of_nat (length NET_TYPE_OPTIONS)) with 5%Z.
  destruct (i <? 0)%Z eqn:E1; simpl; [lia|].
  destruct (5 <=? i)%Z eqn:E2; simpl; [lia|].
  apply Z.ltb_ge in E1. apply Z.leb_gt in E2. lia.
Qed.

Lemma index_in_range (i : Z) :
  (0 <= i < 5)%Z ->
  Py.index NET_TYPE_OPTIONS i = nth_error NET_TYPE_OPTIONS (Z.to_nat i)
  /\ exists nt, nth_error NET_TYPE_OPTIONS (Z.to_nat i) = Some nt.
Proof.
  intros H. unfold Py.index. cbv zeta.
  change (Z.of_nat (length NET_TYPE_OPTIONS)) with 5%Z.
  destruct (0 <=? i)%Z eqn:E1; [|apply Z.leb_gt in E1; lia].
  destruct (i <? 5)%Z eqn:E2; [|apply Z.ltb_ge in E2; lia].
  split; [reflexivity|].
  destruct (nth_error NET_TYPE_OPTIONS (Z.to_nat i)) eqn:E; [eauto|].
  apply nth_error_None in E. simpl in E. lia.
Qed.

Lemma select_network_type_some (i : Z) :
  exists nt, select_network_type i = Some nt.
Proof.
  unfold select_network_type.
  destruct (index_in_range _ (guard_net_type_index_range i)) as [E [nt H]].
  exists nt. now rewrite E.
Qed.

Lemma normalize_output_path_run os path s :
  fst (normalize_output_path os path s) = Ok (output_path os path)
  /\ extends no_request s (snd (normalize_output_path os path s)).
Proof.
  split; [|apply tame_normalize_output_path].
  unfold normalize_output_path, output_path, output_extension.
  destruct (OsPath.splitext os path) as [base ext].
  destruct ext as [|c ext]; [reflexivity|].
  cbv beta iota zeta.
  unfold bind, report_error, push_info, log, ret.
  destruct (String.eqb (Py.lower (String c ext)) ".shp") eqn:E1.
  - apply String.eqb_eq in E1. rewrite E1. reflexivity.
  - cbv beta iota.
    destruct (String.eqb (Py.lower (String c ext)) ".gpkg"); reflexivity.
Qed.

Lemma warn_code_lengths_run codes s :
  fst (warn_code_lengths codes s) = Ok tt.
Proof.
  revert s. induction codes as [|c rest IH]; intros s; [reflexivity|].
  simpl. unfold bind.
  destruct (negb _); simpl; apply IH.
Qed.

Lemma setup_quiet w os p codes :
  quiet no_request (setup w os p codes).
Proof.
  unfold setup.
  repeat first
    [ walk | apply tame_warn_code_lengths
    | apply tame_normalize_output_path | apply tame_import_modules ].
Qed.

Lemma setup_feedback_only w os p codes :
  quiet is_feedback (setup w os p codes).
Proof.
  assert (W : forall l, quiet is_feedback (warn_code_lengths l)).
  { induction l as [|c l IH]; simpl; repeat walk. exact IH. }
  unfold setup, normalize_output_path, import_modules, import_module.
  repeat first [walk | apply W].
Qed.

Lemma setup_run w os p codes s :
  import_osmnx w = Imported -> import_geopandas w = Imported ->
  fst (setup w os p codes s) = Ok (output_path os (out_path_user p))
  /\ extends no_request s (snd (setup w os p codes s)).
Proof.
  intros H1 H2. split; [|apply setup_quiet].
  unfold setup.
  erewrite bind_Ok by reflexivity.
  erewrite bind_Ok by (apply run_Ok, warn_code_lengths_run).
  erewrite bind_Ok by (apply run_Ok, normalize_output_path_run).
  erewrite bind_Ok by reflexivity.
  unfold import_modules. rewrite H1, H2. reflexivity.
Qed.

Lemma setup_Raise w os p codes s e :
  result_of (import_modules w) = Raise e ->
  fst (setup w os p codes s) = Raise e.
Proof.
  intros H. unfold setup.
  erewrite bind_Ok by reflexivity.
  erewrite bind_Ok by (apply run_Ok, warn_code_lengths_run).
  erewrite bind_Ok by (apply run_Ok, normalize_output_path_run).
  erewrite bind_Ok by reflexivity.
  erewrite bind_Raise; [reflexivity|].
  apply run_Raise. rewrite stateless_result by apply tame_import_modules.
  exact H.
Qed.

Lemma setup_Ok w os p codes s out s' :
  setup w os p codes s = (Ok out, s') ->
  out = output_path os (out_path_user p).
Proof.
  unfold setup. intros H.
  apply bind_inv in H as [(a1 & s1 & _ & H)|(e & _ & E)]; [|discriminate].
  apply bind_inv in H as [(a2 & s2 & _ & H)|(e & _ & E)]; [|discriminate].
  apply bind_inv in H as [(a3 & s3 & Hn & H)|(e & _ & E)]; [|discriminate].
  apply bind_inv in H as [(a4 & s4 & _ & H)|(e & _ & E)]; [|discriminate].
  apply bind_inv in H as [(a5 & s5 & _ & H)|(e & _ & E)]; [|discriminate].
  inversion H; subst.
  pose proof (normalize_output_path_run os (out_path_user p) s2) as [N _].
  rewrite Hn in N. simpl in N. now inversion N.
Qed.

(** ** The loop *)

Lemma loop_inv_step done c s s' :
  loop_inv done s -> ~ In c done -> written c s s' ->
  loop_inv (done ++ [c]) s'.
Proof.
  intros [G C] Hn (e & G' & C'). unfold loop_inv.
  rewrite G', C', map_app, C. split; [|reflexivity].
  rewrite write_layer_fresh; [now rewrite G|].
  rewrite G, in_map_iff. intros (x & E & Hx).
  apply layer_name_of_inj in E. now subst.
Qed.

Lemma requests_among_own c codes ev :
  In c codes -> own_request c ev -> requests_among codes ev.
Proof. destruct ev; simpl; eauto. Qed.

Lemma requests_among_incl codes codes' ev :
  incl codes codes' -> requests_among codes ev -> requests_among codes' ev.
Proof.
  intros H. destruct ev; simpl; trivial.
  intros (c & Hc & E). eauto.
Qed.

Section Loop.

Variables (w : World) (b : Q) (nt out : string) (total : nat).

Let body := process_municipality w b nt out total.

(** A loop that returns has written one layer per code, in order. *)
Lemma for_each_Ok codes : forall idx done s s',
  for_each body idx codes s = (Ok tt, s') ->
  loop_inv done s -> NoDup (done ++ codes) ->
  loop_inv (done ++ codes) s'.
Proof.
  induction codes as [|c rest IH]; intros idx done s s' H Hi Hn; simpl in H.
  - inversion H; subst. now rewrite app_nil_r.
  - apply bind_inv in H as [(a & s1 & Hb & H)|(e & _ & E)]; [|discriminate].
    pose proof (process_municipality_post w b nt out total idx c s) as [_ P].
    fold body in P. rewrite Hb in P. simpl in P.
    replace (done ++ c :: rest) with ((done ++ [c]) ++ rest) in *
      by (now rewrite <- app_assoc).
    eapply IH; eauto.
    eapply loop_inv_step; eauto.
    apply NoDup_app_remove_r in Hn.
    apply NoDup_remove_2 with (l' := []) in Hn. now rewrite app_nil_r in Hn.
Qed.

(** A loop whose first codes are handled and whose next code fails stops
    there: the layers of the first codes are in the package, at most the
    failing code's layer after them, and no request was made for any other
    code. *)
Lemma for_each_Raise pre : forall idx done s c post e,
  (forall i c', nth_error pre i = Some c' ->
                result_of (body (idx + i) c') = Ok tt) ->
  result_of (body (idx + length pre) c) = Raise e ->
  loop_inv done s -> NoDup (done ++ pre ++ [c]) ->
  exists s',
    for_each body idx (pre ++ c :: post) s = (Raise e, s')
    /\ (layer_names (gpkg s') = map layer_name_of (done ++ pre)
        \/ layer_names (gpkg s') = map layer_name_of (done ++ pre ++ [c]))
    /\ exists evs, trace s' = trace s ++ evs
                   /\ Forall (requests_among (pre ++ [c])) evs.
Proof.
  induction pre as [|c0 pre IH]; intros idx done s c post e Hpre Hc Hi Hn.
  - simpl in *. rewrite Nat.add_0_r in Hc.
    pose proof (process_municipality_post w b nt out total idx c s)
      as [(evs & T & F) P].
    pose proof (stateless_result _ s
             (stateless_process_municipality w b nt out total idx c)) as R.
    fold body in P, T, R. rewrite Hc in R.
    destruct (body idx c s) as [r s1] eqn:Hb. simpl in R, P, T. subst r.
    exists s1. split; [unfold bind; now rewrite Hb|]. split.
    + destruct P as [[G _]|P].
      * left. rewrite G, app_nil_r. apply Hi.
      * right. eapply loop_inv_step; eauto.
        apply NoDup_remove_2 with (l' := []) in Hn.
        now rewrite app_nil_r in Hn.
    + exists evs. split; [exact T|].
      eapply Forall_impl; [|exact F].
      intros ev. apply requests_among_own. now left.
  - simpl.
    pose proof (process_municipality_post w b nt out total idx c0 s)
      as [(evs & T & F) P].
    pose proof (stateless_result _ s
             (stateless_process_municipality w b nt out total idx c0)) as R.
    fold body in P, T, R.
    pose proof (Hpre 0 c0 eq_refl) as H0. rewrite Nat.add_0_r in H0.
    rewrite H0 in R.
    destruct (body idx c0 s) as [r s1] eqn:Hb. simpl in R, P, T. subst r.
    assert (Hi1 : loop_inv (done ++ [c0]) s1).
    { eapply loop_inv_step; eauto.
      simpl in Hn. apply NoDup_remove_2 in Hn.
      rewrite in_app_iff in Hn. tauto. }
    destruct (IH (S idx) (done ++ [c0]) s1 c post e) as (s' & E & G & T').
    + intros i c' Hi'. rewrite Nat.add_succ_comm. now apply (Hpre (S i)).
    + rewrite Nat.add_succ_comm. exact Hc.
    + exact Hi1.
    + now rewrite <- app_assoc.
    + exists s'. split; [unfold bind; now rewrite Hb|]. split.
      * rewrite <- !app_assoc in G. exact G.
      * destruct T' as (evs' & T' & F').
        exists (evs ++ evs'). split; [now rewrite T', T, app_assoc|].
        apply Forall_app. split.
        -- eapply Forall_impl; [|exact F].
           intros ev. apply requests_among_own. now left.
        -- eapply Forall_impl; [|exact F'].
           intros ev. apply requests_among_incl.
           intros x Hx. now right.
Qed.

End Loop.

(** ** The loop on a package that holds layers *)

Lemma filter_filter {A} (f g : A -> bool) (l : list A) :
  filter f (filter g l) = filter (fun x => g x && f x) l.
Proof.
  induction l as [|x l IH]; [reflexivity|]. simpl.
  destruct (g x); simpl; [destruct (f x)|]; now rewrite IH.
Qed.

Lemma filter_absent (n : string) (names : list string) :
  ~ In n names ->
  filter (fun m => negb (String.eqb m n)) names = names.
Proof.
  induction names as [|m names IH]; simpl; intros H; [reflexivity|].
  destruct (String.eqb m n) eqn:E.
  - apply String.eqb_eq in E. tauto.
  - simpl. rewrite IH; tauto.
Qed.

Lemma kept_layers_step pkg0 done c :
  filter (fun m => negb (String.eqb m (layer_name_of c)))
         (kept_layers pkg0 done)
  = kept_layers pkg0 (done ++ [c]).
Proof.
  unfold kept_layers, unseen. rewrite filter_filter.
  apply filter_ext. intros n. rewrite map_app. unfold Py.mem.
  rewrite existsb_app. simpl. now rewrite orb_false_r, negb_orb.
Qed.

Lemma kept_layers_In pkg0 done n :
  In n (kept_layers pkg0 done)
  <-> In n (layer_names pkg0) /\ ~ In n (map layer_name_of done).
Proof.
  unfold kept_layers, unseen. rewrite filter_In, negb_true_iff.
  pose proof (mem_In n (map layer_name_of done)) as M.
  destruct (Py.mem n (map layer_name_of done)).
  - split; [intros [_ H]; discriminate | intros [_ H]].
    exfalso. now apply H, M.
  - split; intros [H _]; (split; [exact H|]);
      [intros H'; apply M in H'; discriminate | reflexivity].
Qed.

Lemma kept_layers_nil done : kept_layers [] done = [].
Proof. reflexivity. Qed.

Lemma layer_name_of_fresh c done :
  ~ In c done -> ~ In (layer_name_of c) (map layer_name_of done).
Proof.
  intros H. rewrite in_map_iff. intros (x & E & Hx).
  apply layer_name_of_inj in E. now subst.
Qed.

Lemma loop_inv_from_step pkg0 done c s s' :
  loop_inv_from pkg0 done s -> ~ In c done -> written c s s' ->
  loop_inv_from pkg0 (done ++ [c]) s'.
Proof.
  intros [G C] Hn (e & G' & C'). unfold loop_inv_from.
  rewrite G', C', map_app, C. split; [|reflexivity].
  rewrite layer_names_write, G, filter_app, kept_layers_step.
  rewrite filter_absent by now apply layer_name_of_fresh.
  now rewrite <- app_assoc.
Qed.

Lemma loop_inv_from_unchanged pkg0 done s s' :
  loop_inv_from pkg0 done s -> unchanged s s' -> loop_inv_from pkg0 done s'.
Proof. intros [G C] [G' C']. split; congruence. Qed.

(** The layer of a code that is not among the handled ones is in the
    package exactly when the run found it there. *)
Lemma loop_inv_from_other pkg0 done s c :
  loop_inv_from pkg0 done s -> ~ In c done ->
  In (layer_name_of c) (layer_names (gpkg s))
  <-> In (layer_name_of c) (layer_names pkg0).
Proof.
  intros [G _] Hn. rewrite G, in_app_iff, kept_layers_In.
  pose proof (layer_name_of_fresh c done Hn). tauto.
Qed.

Lemma loop_inv_from_done pkg0 done s c :
  loop_inv_from pkg0 done s -> In c done ->
  In (layer_name_of c) (layer_names (gpkg s)).
Proof.
  intros [G _] H. rewrite G, in_app_iff. right. now apply in_map.
Qed.

Section LoopFrom.

Variables (w : World) (b : Q) (nt out : string) (total : nat)
          (pkg0 : package).

Let body := process_municipality w b nt out total.

Lemma for_each_Ok_from codes : forall idx done s s',
  for_each body idx codes s = (Ok tt, s') ->
  loop_inv_from pkg0 done s -> NoDup (done ++ codes) ->
  loop_inv_from pkg0 (done ++ codes) s'.
Proof.
  induction codes as [|c rest IH]; intros idx done s s' H Hi Hn; simpl in H.
  - inversion H; subst. now rewrite app_nil_r.
  - apply bind_inv in H as [(a & s1 & Hb & H)|(e & _ & E)]; [|discriminate].
    pose proof (process_municipality_post w b nt out total idx c s) as [_ P].
    fold body in P. rewrite Hb in P. simpl in P.
    replace (done ++ c :: rest) with ((done ++ [c]) ++ rest) in *
      by (now rewrite <- app_assoc).
    eapply IH; eauto.
    eapply loop_inv_from_step; eauto.
    apply NoDup_app_remove_r in Hn.
    apply NoDup_remove_2 with (l' := []) in Hn. now rewrite app_nil_r in Hn.
Qed.

(** A loop whose next code after [pre] raises stops there, whatever
    follows that code. *)
Lemma for_each_cut pre : forall idx s c post e,
  result_of (body (idx + length pre) c) = Raise e ->
  for_each body idx (pre ++ c :: post) s = for_each body idx (pre ++ [c]) s.
Proof.
  induction pre as [|c0 pre IH]; intros idx s c post e Hc; simpl.
  - simpl in Hc. rewrite Nat.add_0_r in Hc.
    pose proof (stateless_result _ s
             (stateless_process_municipality w b nt out total idx c)) as R.
    fold body in R. rewrite Hc in R.
    unfold bind. destruct (body idx c s) as [r s1]. simpl in R. now subst r.
  - unfold bind. destruct (body idx c0 s) as [[a|e0] s1]; [|reflexivity].
    apply (IH (S idx) s1 c post e).
    rewrite Nat.add_succ_comm. exact Hc.
Qed.

Lemma for_each_Raise_from pre : forall idx done s c post e,
  (forall i c', nth_error pre i = Some c' ->
                result_of (body (idx + i) c') = Ok tt) ->
  result_of (body (idx + length pre) c) = Raise e ->
  loop_inv_from pkg0 done s -> NoDup (done ++ pre ++ [c]) ->
  exists s',
    for_each body idx (pre ++ c :: post) s = (Raise e, s')
    /\ (loop_inv_from pkg0 (done ++ pre) s'
        \/ loop_inv_from pkg0 (done ++ pre ++ [c]) s')
    /\ exists evs, trace s' = trace s ++ evs
                   /\ Forall (requests_among (pre ++ [c])) evs
                   /\ Forall (aimed_at out (Some nt) (pre ++ [c])) evs.
Proof.
  intros idx done s c post e Hpre Hc Hi Hn.
  assert (H : exists s',
    for_each body idx (pre ++ c :: post) s = (Raise e, s')
    /\ (loop_inv_from pkg0 (done ++ pre) s'
        \/ loop_inv_from pkg0 (done ++ pre ++ [c]) s')
    /\ exists evs, trace s' = trace s ++ evs
                   /\ Forall (requests_among (pre ++ [c])) evs).
  { revert idx done s Hpre Hc Hi Hn.
    induction pre as [|c0 pre IH]; intros idx done s Hpre Hc Hi Hn.
    - simpl in *. rewrite Nat.add_0_r in Hc.
      pose proof (process_municipality_post w b nt out total idx c s)
        as [(evs & T & F) P].
      pose proof (stateless_result _ s
               (stateless_process_municipality w b nt out total idx c)) as R.
      fold body in P, T, R. rewrite Hc in R.
      destruct (body idx c s) as [r s1] eqn:Hb. simpl in R, P, T. subst r.
      exists s1. split; [unfold bind; now rewrite Hb|]. split.
      + destruct P as [P|P].
        * left. rewrite app_nil_r.
          eapply loop_inv_from_unchanged; eauto.
        * right. eapply loop_inv_from_step; eauto.
          apply NoDup_remove_2 with (l' := []) in Hn.
          now rewrite app_nil_r in Hn.
      + exists evs. split; [exact T|].
        eapply Forall_impl; [|exact F].
        intros ev. apply requests_among_own. now left.
    - simpl.
      pose proof (process_municipality_post w b nt out total idx c0 s)
        as [(evs & T & F) P].
      pose proof (stateless_result _ s
               (stateless_process_municipality w b nt out total idx c0)) as R.
      fold body in P, T, R.
      pose proof (Hpre 0 c0 eq_refl) as H0. rewrite Nat.add_0_r in H0.
      rewrite H0 in R.
      destruct (body idx c0 s) as [r s1] eqn:Hb. simpl in R, P, T. subst r.
      assert (Hi1 : loop_inv_from pkg0 (done ++ [c0]) s1).
      { eapply loop_inv_from_step; eauto.
        simpl in Hn. apply NoDup_remove_2 in Hn.
        rewrite in_app_iff in Hn. tauto. }
      destruct (IH (S idx) (done ++ [c0]) s1) as (s' & E & G & T').
      + intros i c' Hi'. rewrite Nat.add_succ_comm. now apply (Hpre (S i)).
      + rewrite Nat.add_succ_comm. exact Hc.
      + exact Hi1.
      + now rewrite <- app_assoc.
      + exists s'. split; [unfold bind; now rewrite Hb|]. split.
        * rewrite <- !app_assoc in G. exact G.
        * destruct T' as (evs' & T' & F').
          exists (evs ++ evs'). split; [now rewrite T', T, app_assoc|].
          apply Forall_app. split.
          -- eapply Forall_impl; [|exact F].
             intros ev. apply requests_among_own. now left.
          -- eapply Forall_impl; [|exact F'].
             intros ev. apply requests_among_incl.
             intros x Hx. now right. }
  destruct H as (s' & E & G & evs & T & F).
  exists s'. split; [exact E|]. split; [exact G|].
  exists evs. split; [exact T|]. split; [exact F|].
  rewrite (for_each_cut pre idx s c post e Hc) in E.
  destruct (for_each_aim w b nt out total (pre ++ [c]) idx s)
    as (evs' & T' & F').
  fold body in T'. rewrite E in T'. simpl in T'.
  rewrite T in T'. apply app_inv_head in T'. now subst evs'.
Qed.

End LoopFrom.

(** * The claims *)

(** ** The network type *)

(** C9. Whatever index the host supplies, the indexing into the option
    list returns a network type and never faults; an index that is negative
    or at least 5 is replaced by 0, so the type is "drive"; an index in
    range selects its own option. *)
Theorem network_type_index_never_faults (net_type_index : Z) :
  (exists network_type,
      select_network_type net_type_index = Some network_type)
  /\ (if (net_type_index <? 0)%Z || (5 <=? net_type_index)%Z
      then guard_net_type_index net_type_index = 0%Z
           /\ select_network_type net_type_index = Some "drive"
      else select_network_type net_type_index
           = nth_error NET_TYPE_OPTIONS (Z.to_nat net_type_index)).
Proof.
  split; [apply select_network_type_some|].
  unfold select_network_type, guard_net_type_index.
  change (Z.of_nat (length NET_TYPE_OPTIONS)) with 5%Z.
  destruct ((net_type_index <? 0)%Z || (5 <=? net_type_index)%Z) eqn:E.
  - split; reflexivity.
  - apply orb_false_iff in E as [E1 E2].
    apply Z.ltb_ge in E1. apply Z.leb_gt in E2.
    now apply index_in_range.
Qed.

(** ** The code parser *)

(** C2, at the failing input. A space between two codes does not separate
    them: the parser returns one token made of the digits of both, where
    the same input with a comma gives the two codes. *)
Theorem space_does_not_separate_codes :
  _parse_municipality_codes "4305108 3550308" = ["43051083550308"]
  /\ _parse_municipality_codes "4305108,3550308" = ["4305108"; "3550308"].
Proof. split; reflexivity. Qed.

(** What holds of the parser on every input: the codes are distinct, none
    is empty and each is made of digits. *)
Lemma parse_codes_wellformed (s : string) :
  NoDup (_parse_municipality_codes s)
  /\ Forall (fun code => code <> "" /\ all_chars Py.isdigit code = true)
            (_parse_municipality_codes s).
Proof.
  split; [apply parse_NoDup|].
  apply Forall_forall. intros code. apply parse_digits.
Qed.

(** ** The output path *)

(** C5, as stated, fails: an extension that is [.gpkg] in capitals is kept
    as typed, so the returned path does not end in [.gpkg]. *)
Lemma uppercase_extension_is_kept :
  fst (normalize_output_path Posix "redes.GPKG" (initial_state []))
  = Ok "redes.GPKG"
  /\ Py.endswith "redes.GPKG" ".gpkg" = false.
Proof. split; reflexivity. Qed.

(** C5, amended. For every path and separator convention the normaliser
    returns, and never raises; the returned path ends in [.gpkg] up to
    letter case, and in [.gpkg] itself unless the user's extension already
    was [.gpkg] in some letter case, which is kept as typed. It changes
    neither the package nor the list of layers. When the user's extension
    is [.shp] in any letter case it reports, as an error-level message,
    that the path is converted, naming the new path; for any other
    extension it replaces it logs an information message. *)
Theorem output_path_is_a_package_path os path s :
  let base := fst (OsPath.splitext os path) in
  let ext := snd (OsPath.splitext os path) in
  let out := base +++ output_extension ext in
  fst (normalize_output_path os path s) = Ok out
  /\ Py.endswith (Py.lower out) ".gpkg" = true
  /\ (if String.eqb (Py.lower ext) ".gpkg"
      then out = base +++ ext
      else Py.endswith out ".gpkg" = true)
  /\ unchanged s (snd (normalize_output_path os path s))
  /\ trace (snd (normalize_output_path os path s))
     = trace s ++
       (if String.eqb (Py.lower ext) ".shp"
        then [ReportError (Msg.shapefile_selected base)]
        else if String.eqb ext "" || String.eqb (Py.lower ext) ".gpkg"
        then []
        else [PushInfo Msg.extension_adjusted])
  /\ Py.contains (Msg.shapefile_selected base) (base +++ ".gpkg") = true.
Proof.
  cbv zeta.
  pose proof (normalize_output_path_run os path s) as [R Q].
  unfold output_path in R.
  destruct (OsPath.splitext os path) as [base ext] eqn:Es. simpl fst. simpl snd.
  assert (L : Py.lower (output_extension ext) = ".gpkg").
  { unfold output_extension.
    destruct (String.eqb (Py.lower ext) ".gpkg") eqn:E; [|reflexivity].
    now apply String.eqb_eq in E. }
  split; [exact R|].
  split; [rewrite lower_append, L; apply endswith_append|].
  split.
  { unfold output_extension.
    destruct (String.eqb (Py.lower ext) ".gpkg"); [reflexivity|].
    apply endswith_append. }
  split; [split; apply Q|].
  split.
  - unfold normalize_output_path. rewrite Es.
    destruct ext as [|c ext]; [simpl; now rewrite app_nil_r|].
    cbv beta iota zeta.
    unfold bind, report_error, push_info, log, ret.
    destruct (String.eqb (Py.lower (String c ext)) ".shp") eqn:E1.
    + reflexivity.
    + cbv beta iota. change (String.eqb (String c ext) "") with false.
      destruct (String.eqb (Py.lower (String c ext)) ".gpkg"); simpl;
        [now rewrite app_nil_r | reflexivity].
  - unfold Msg.shapefile_selected.
    rewrite <- !append_assoc.
    rewrite append_assoc with (b := base) (c := ".gpkg'.").
    change ".gpkg'." with (".gpkg" +++ "'.").
    rewrite <- (append_assoc base ".gpkg" "'.").
    apply contains_intro.
Qed.

(** ** No codes *)

(** C7. When the input parses to no code, which is when it holds no digit,
    the run raises the exception that asks for at least one code, and the
    state is the initial one: nothing was logged and no request made. *)
Theorem no_codes_aborts_before_any_request w os p :
  _parse_municipality_codes (mun_codes_str p) = [] ->
  Py.filter_chars Py.isdigit (mun_codes_str p) = ""
  /\ run w os p
     = (Raise (QgsProcessingException Msg.no_codes), initial_state []).
Proof.
  intros H. split; [now apply parse_nil_iff|].
  unfold run, processAlgorithm.
  destruct (select_network_type_some (net_type_index p)) as [nt ->].
  now rewrite H.
Qed.

Lemma no_codes_aborts_before_any_request_witness :
  _parse_municipality_codes (mun_codes_str (Sample.params "a; b ,, -" 0)) = []
  /\ run Sample.world Posix (Sample.params "a; b ,, -" 0)
     = (Raise (QgsProcessingException Msg.no_codes), initial_state []).
Proof.
  split; [reflexivity|].
  apply (no_codes_aborts_before_any_request
           Sample.world Posix (Sample.params "a; b ,, -" 0)).
  reflexivity.
Defined.

(** ** The registry lookup *)

Lemma read_place_paths w obj nome_mun uf_sigla :
  get_path obj ["nome"] = Some nome_mun ->
  get_path obj ["microrregiao"; "mesorregiao"; "UF"; "sigla"]
  = Some uf_sigla ->
  read_place w obj = Returns (nome_mun, uf_sigla).
Proof.
  unfold read_place, getitem. simpl get_path.
  destruct obj as [| | | | | |items]; try discriminate.
  destruct (dict_get items "nome") as [n|]; [|discriminate].
  intros H; inversion H; subst; clear H.
  destruct (dict_get items "microrregiao") as [[| | | | | |i1]|];
    try discriminate.
  destruct (dict_get i1 "mesorregiao") as [[| | | | | |i2]|];
    try discriminate.
  destruct (dict_get i2 "UF") as [[| | | | | |i3]|]; try discriminate.
  destruct (dict_get i3 "sigla") as [u|]; [|discriminate].
  intros H; inversion H; subst. reflexivity.
Qed.

Lemma resolve_municipality_result w idx c s :
  fst (resolve_municipality w idx c s)
  = match requests_get w idx (ibge_url c) with
    | RequestFailed e =>
        Raise (QgsProcessingException (Msg.ibge_connection e))
    | Response status_code json =>
        if negb (status_code =? 200)%Z
        then Raise (QgsProcessingException (Msg.ibge_status status_code c))
        else
          match json with
          | JsonDecodeError =>
              Raise (QgsProcessingException Msg.ibge_invalid_json)
          | JsonOtherError e => Raise (PyException e)
          | JsonValue (PList []) =>
              Raise (QgsProcessingException (Msg.ibge_empty_list c))
          | JsonValue data =>
              match read_place w (first_element data) with
              | Raises e =>
                  Raise (QgsProcessingException (Msg.ibge_unexpected c e))
              | Returns place => Ok place
              end
          end
    end.
Proof.
  unfold resolve_municipality, bind, push_info, call, bind, log, ret, raise.
  simpl.
  destruct (requests_get w idx (ibge_url c)) as [e|st j]; [reflexivity|].
  destruct (negb (st =? 200)%Z); [reflexivity|].
  destruct j as [|e|data]; try reflexivity.
  destruct data as [| | | | |[|x l]|]; simpl;
    try reflexivity; destruct (read_place w _); reflexivity.
Qed.

Lemma fetch_boundary_logs w idx q s :
  In (GeocodeToGdf q) (trace (snd (fetch_boundary w idx q s))).
Proof.
  unfold fetch_boundary, bind, call, bind, log, ret, raise. simpl.
  destruct (geocode_to_gdf w idx q) as [e|[|g l]]; simpl;
    apply in_or_app; right; now left.
Qed.

(** C8. A response with status 200 whose JSON is an object, or a list
    that starts with an object, resolves: the name is the object's [nome],
    the region its [microrregiao.mesorregiao.UF.sigla], the query string is
    the name, the region and "Brasil" separated by ", ", and the boundary
    of the iteration is asked for with that query. *)
Theorem registry_response_object_or_list
        w b nt out total idx c data items nome_mun uf_sigla s :
  requests_get w idx (ibge_url c) = Response 200 (JsonValue data) ->
  data = PDict items \/ (exists rest, data = PList (PDict items :: rest)) ->
  get_path (PDict items) ["nome"] = Some nome_mun ->
  get_path (PDict items) ["microrregiao"; "mesorregiao"; "UF"; "sigla"]
  = Some uf_sigla ->
  fst (resolve_municipality w idx c s) = Ok (nome_mun, uf_sigla)
  /\ place_query_of w nome_mun uf_sigla
     = fmt w nome_mun +++ ", " +++ fmt w uf_sigla +++ ", Brasil"
  /\ In (GeocodeToGdf (fmt w nome_mun +++ ", " +++ fmt w uf_sigla
                       +++ ", Brasil"))
        (trace (snd (process_municipality w b nt out total idx c s))).
Proof.
  intros Hr Hd Hn Hu.
  assert (R : forall s0, fst (resolve_municipality w idx c s0)
                         = Ok (nome_mun, uf_sigla)).
  { intros s0. rewrite resolve_municipality_result, Hr. simpl.
    pose proof (read_place_paths w _ _ _ Hn Hu) as P.
    destruct Hd as [->|[rest ->]]; simpl first_element; now rewrite P. }
  split; [apply R|]. split; [reflexivity|].
  unfold process_municipality.
  forward.
  erewrite bind_Ok by (apply run_Ok, R). cbv beta iota.
  do 3 forward.
  apply in_trace_bind; [apply fetch_boundary_logs|].
  intros [place_gdf geom0]. rest_monotone.
Qed.

Lemma registry_response_object_or_list_witness :
  let data := PList [Sample.place ("S" +++ Msg.a_tilde +++ "o Paulo") "SP"] in
  requests_get Sample.world 2 (ibge_url "3550308")
  = Response 200 (JsonValue data)
  /\ fst (resolve_municipality Sample.world 2 "3550308" (initial_state []))
     = Ok (PStr ("S" +++ Msg.a_tilde +++ "o Paulo"), PStr "SP")
  /\ place_query_of Sample.world (PStr ("S" +++ Msg.a_tilde +++ "o Paulo"))
                    (PStr "SP")
     = "S" +++ Msg.a_tilde +++ "o Paulo, SP, Brasil".
Proof.
  cbv zeta. split; [reflexivity|].
  pose proof (registry_response_object_or_list
                Sample.world 0 "drive" "/home/ana/redes.gpkg" 2 2 "3550308"
                (PList [Sample.place ("S" +++ Msg.a_tilde +++ "o Paulo") "SP"])
                [("id", PInt 1);
                 ("nome", PStr ("S" +++ Msg.a_tilde +++ "o Paulo"));
                 ("microrregiao",
                  PDict [("mesorregiao",
                          PDict [("UF", PDict [("sigla", PStr "SP")])])])]
                (PStr ("S" +++ Msg.a_tilde +++ "o Paulo")) (PStr "SP")
                (initial_state [])
                eq_refl
                (or_intror (ex_intro _ [] eq_refl))
                eq_refl eq_refl) as (H1 & H2 & _).
  split; [exact H1 | exact H2].
Defined.

(** C4, as stated, fails: when the body of the response is not JSON the
    lookup raises with a fixed message, which does not name the code. *)
Lemma malformed_json_message_omits_code :
  result_of (resolve_municipality Sample.world 1 "1100015")
  = Raise (QgsProcessingException Msg.ibge_invalid_json)
  /\ Py.contains Msg.ibge_invalid_json "1100015" = false.
Proof. split; reflexivity. Qed.

(** C4, amended. The registry lookup raises exactly when the request
    fails, the status is not 200, the body cannot be decoded, the response
    is an empty list, or the fields cannot be read from the object; the
    message names the code for a status other than 200, for an empty list
    and for unreadable fields, and carries the text of the underlying error
    for a failed request and for unreadable fields. *)
Theorem registry_lookup_failures w idx c e :
  (result_of (resolve_municipality w idx c) = Raise e
   <-> lookup_failure w idx c e)
  /\ (forall status_code,
         Py.contains (Msg.ibge_status status_code c) c = true)
  /\ Py.contains (Msg.ibge_empty_list c) c = true
  /\ (forall text,
         Py.contains (Msg.ibge_unexpected c text) c = true
         /\ Py.contains (Msg.ibge_unexpected c text) text = true
         /\ Py.contains (Msg.ibge_connection text) text = true).
Proof.
  split.
  { unfold result_of. rewrite resolve_municipality_result. split.
    - destruct (requests_get w idx (ibge_url c)) as [t|st j] eqn:E.
      + intros H; inversion H; subst. now constructor.
      + destruct (st =? 200)%Z eqn:Est; simpl.
        * apply Z.eqb_eq in Est. subst st.
          destruct j as [|t|data].
          -- intros H; inversion H; subst. now constructor.
          -- intros H; inversion H; subst. now constructor.
          -- assert (D : data = PList [] \/ data <> PList []).
             { destruct data as [| | | | |[|x l]|]; auto;
                 right; discriminate. }
             destruct D as [->|D].
             ++ intros H; inversion H; subst. now constructor.
             ++ destruct (read_place w (first_element data)) as [t|pl] eqn:Er.
                ** intros H.
                   assert (H' : Raise (QgsProcessingException
                                         (Msg.ibge_unexpected c t))
                                = @Raise (pyvalue * pyvalue) e).
                   { rewrite <- H.
                     destruct data as [| | | | |[|x l]|];
                       try reflexivity; now contradiction D. }
                   inversion H'; subst.
                   eapply unexpected_shape; eauto.
                ** intros H. exfalso.
                   destruct data as [| | | | |[|x l]|];
                     try discriminate; now contradiction D.
        * intros H; inversion H; subst.
          eapply status_not_200; eauto.
          intros ->. discriminate.
    - intros H. destruct H as [t E|st j E N| E|t E|E|data t E D Er];
        rewrite E; simpl; try reflexivity.
      + destruct (st =? 200)%Z eqn:Est; [|reflexivity].
        apply Z.eqb_eq in Est. contradiction.
      + destruct data as [| | | | |[|x l]|];
          try (now contradiction D); cbv beta iota; now rewrite Er. }
  split; [|split].
  - intros st. unfold Msg.ibge_status. find_argument.
  - unfold Msg.ibge_empty_list. find_argument.
  - intros t. unfold Msg.ibge_unexpected, Msg.ibge_connection.
    repeat split; find_argument.
Qed.

(** ** The whole run *)

Lemma finish_run out s :
  fst (finish out s) = Ok [(PARAM_OUTPUT, out)]
  /\ unchanged s (snd (finish out s))
  /\ exists evs, trace (snd (finish out s)) = trace s ++ evs
                 /\ Forall no_request evs.
Proof.
  unfold finish, bind, get_created, push_info, log, ret, unchanged.
  destruct (created_layers s) eqn:E; simpl.
  - split; [reflexivity|]. split; [now split|].
    exists []. now rewrite app_nil_r.
  - split; [reflexivity|]. split; [now split|].
    eexists. split; [reflexivity|]. repeat constructor.
Qed.

Lemma processAlgorithm_loop w os p nt s :
  select_network_type (net_type_index p) = Some nt ->
  _parse_municipality_codes (mun_codes_str p) <> [] ->
  processAlgorithm w os p s
  = (out_path <- setup w os p (_parse_municipality_codes (mun_codes_str p)) ;;
     for_each (process_municipality
                 w (buffer_m p) nt out_path
                 (length (_parse_municipality_codes (mun_codes_str p))))
              1 (_parse_municipality_codes (mun_codes_str p)) ;;
     finish out_path) s.
Proof.
  intros Hs Hc. unfold processAlgorithm. rewrite Hs.
  destruct (_parse_municipality_codes (mun_codes_str p));
    [now contradiction Hc | reflexivity].
Qed.

Lemma run_returns w os p a :
  fst (run w os p) = Ok a -> run w os p = (Ok a, snd (run w os p)).
Proof. apply (run_Ok (processAlgorithm w os p) (initial_state [])). Qed.

Lemma length_layer_names (pkg : package) :
  length (layer_names pkg) = length pkg.
Proof. apply length_map. Qed.

(** C1, as stated, fails: the run writes into the package it finds at the
    destination and never clears it. On a package that holds the layer
    [old_layer], a run over the one code 4305108 returns and leaves two
    layers in the package. *)
Lemma layers_found_in_the_package_are_kept :
  let p := Sample.params "4305108" 0 in
  let r := processAlgorithm Sample.world Posix p
                            (initial_state [("old_layer", old_table)]) in
  _parse_municipality_codes (mun_codes_str p) = ["4305108"]
  /\ fst r = Ok [(PARAM_OUTPUT, "/home/ana/redes.gpkg")]
  /\ layer_names (gpkg (snd r)) = ["old_layer"; "osm_segments_4305108"]
  /\ length (gpkg (snd r)) = 2.
Proof. cbv zeta. repeat split; vm_compute; reflexivity. Qed.

(** C1, amended. A run that returns, started on the package [pkg0] the
    destination holds, leaves in the package the layers of [pkg0] that are
    not the layer of a parsed code, then one layer per parsed code: the
    codes are distinct, their layers are named [osm_segments_<code>] and
    come last, in the order of the codes, and they are the layers the run
    lists as created. The package has as many layers as codes exactly when
    no other layer was found, as on a destination that holds no package.
    The returned mapping gives, under the key [OUTPUT], the path the
    normaliser returned. *)
Theorem run_writes_one_layer_per_code w os p pkg0 res s :
  processAlgorithm w os p (initial_state pkg0) = (Ok res, s) ->
  let codes := _parse_municipality_codes (mun_codes_str p) in
  NoDup codes
  /\ layer_names (gpkg s)
     = kept_layers pkg0 codes ++ map layer_name_of codes
  /\ length (gpkg s) = length (kept_layers pkg0 codes) + length codes
  /\ (length (gpkg s) = length codes <-> kept_layers pkg0 codes = [])
  /\ (pkg0 = [] -> layer_names (gpkg s) = map layer_name_of codes)
  /\ created_layers s = map layer_name_of codes
  /\ exists out_path,
       result_of (normalize_output_path os (out_path_user p)) = Ok out_path
       /\ res = [(PARAM_OUTPUT, out_path)].
Proof.
  intros H codes. split; [apply parse_NoDup|].
  destruct (select_network_type_some (net_type_index p)) as [nt Hs].
  assert (Hc : codes <> []).
  { intros E. unfold processAlgorithm in H. fold codes in H.
    rewrite Hs, E in H. discriminate. }
  rewrite (processAlgorithm_loop w os p nt _ Hs Hc) in H. fold codes in H.
  apply bind_inv in H as [(out & s1 & H1 & H)|(e & _ & E)]; [|discriminate].
  apply bind_inv in H as [([] & s2 & H2 & H)|(e & _ & E)]; [|discriminate].
  pose proof (setup_Ok _ _ _ _ _ _ _ H1) as ->.
  pose proof (setup_quiet w os p codes (initial_state pkg0)) as (G1 & C1 & _).
  rewrite H1 in G1, C1. simpl in G1, C1.
  assert (I1 : loop_inv_from pkg0 [] s1).
  { split; [|exact C1]. rewrite G1. unfold kept_layers, unseen. simpl.
    rewrite app_nil_r. induction (layer_names pkg0) as [|n l IH];
      simpl; [reflexivity | now rewrite <- IH]. }
  pose proof (for_each_Ok_from _ _ _ _ _ pkg0 codes 1 [] s1 s2 H2 I1
                               (parse_NoDup _)) as [G2 C2].
  simpl in G2, C2.
  pose proof (finish_run (output_path os (out_path_user p)) s2)
    as (F1 & (F2 & F3) & _).
  rewrite H in F1, F2, F3. simpl in F1, F2, F3.
  assert (L : length (gpkg s)
              = length (kept_layers pkg0 codes) + length codes).
  { now rewrite <- length_layer_names, F2, G2, length_app, length_map. }
  split; [now rewrite F2|].
  split; [exact L|].
  split.
  { rewrite L. split.
    - intros E. destruct (kept_layers pkg0 codes); [reflexivity|].
      simpl in E. lia.
    - intros ->. reflexivity. }
  split; [intros ->; now rewrite F2, G2|].
  split; [now rewrite F3|].
  exists (output_path os (out_path_user p)). split.
  - apply normalize_output_path_run.
  - now inversion F1.
Qed.

Lemma run_writes_one_layer_per_code_witness :
  let p := Sample.params "4305108; 4305108, 3550308" 0 in
  let pkg0 := [("osm_segments_3550308", old_table);
               ("old_layer", old_table)] in
  let r := processAlgorithm Sample.world Posix p (initial_state pkg0) in
  fst r = Ok [(PARAM_OUTPUT, "/home/ana/redes.gpkg")]
  /\ layer_names (gpkg (snd r))
     = ["old_layer"; "osm_segments_4305108"; "osm_segments_3550308"]
  /\ length (gpkg (snd r)) = 3
  /\ created_layers (snd r)
     = ["osm_segments_4305108"; "osm_segments_3550308"].
Proof.
  cbv zeta.
  assert (E : fst (processAlgorithm
                     Sample.world Posix
                     (Sample.params "4305108; 4305108, 3550308" 0)
                     (initial_state [("osm_segments_3550308", old_table);
                                     ("old_layer", old_table)]))
              = Ok [(PARAM_OUTPUT, "/home/ana/redes.gpkg")])
    by (vm_compute; reflexivity).
  split; [exact E|].
  destruct (run_writes_one_layer_per_code
              Sample.world Posix
              (Sample.params "4305108; 4305108, 3550308" 0)
              [("osm_segments_3550308", old_table);
               ("old_layer", old_table)] _ _
              (run_Ok _ _ _ E)) as (_ & L & N & _ & _ & C & _).
  vm_compute in L. vm_compute in N. vm_compute in C. vm_compute.
  split; [exact L|]. split; [exact N | exact C].
Defined.

(** ** Fatal failures *)

Lemma stage_failure_raises w b nt out idx c st e total :
  stage_failure w b nt out idx c st e ->
  result_of (process_municipality w b nt out total idx c) = Raise e.
Proof.
  intros H. unfold result_of, process_municipality.
  destruct H as
    [ e Hl
    | n u e Hr Hb
    | n u g e (Hr & pg & g0 & Hb & Ha) Hd
    | n u G e (g & (Hr & pg & g0 & Hb & Ha) & Hd) Hp
    | n u Gp e (G & (g & (Hr & pg & g0 & Hb & Ha) & Hd) & Hp) Hc
    | n u ed e (Gp & ed0 & (G & (g & (Hr & pg & g0 & Hb & Ha) & Hd) & Hp)
                & Hc & Hs) Hw
    | n u e (ed & (Gp & ed0 & (G & (g & (Hr & pg & g0 & Hb & Ha) & Hd) & Hp)
                   & Hc & Hs) & Hw) Hv ];
    unfold resolved in *.
  - forward. forward_raise. reflexivity.
  - do 5 forward. forward_raise. reflexivity.
  - do 8 forward. forward_raise. reflexivity.
  - do 9 forward. forward_raise. reflexivity.
  - do 10 forward. forward_raise. reflexivity.
  - do 13 forward. forward_raise. reflexivity.
  - do 14 forward. rewrite stateless_result by stage. exact Hv.
Qed.

Lemma NoDup_app_disjoint {A} (l1 l2 : list A) (x : A) :
  NoDup (l1 ++ l2) -> In x l1 -> In x l2 -> False.
Proof.
  induction l1 as [|a l1 IH]; simpl; [tauto|].
  intros Hn H1 H2. apply NoDup_cons_iff in Hn as [Hx Hn].
  destruct H1 as [->|H1]; [|now apply IH].
  apply Hx. apply in_or_app. now right.
Qed.

(** The raise of each stage, derived from the outcome of its
    collaborator. *)
Lemma lookup_failure_raises w idx c e :
  lookup_failure w idx c e ->
  result_of (resolve_municipality w idx c) = Raise e.
Proof.
  intros H. unfold result_of. rewrite resolve_municipality_result.
  destruct H as [t E|st j E N| E|t E|E|data t E D Er];
    rewrite E; simpl; try reflexivity.
  - destruct (st =? 200)%Z eqn:Est; [|reflexivity].
    apply Z.eqb_eq in Est. contradiction.
  - destruct data as [| | | | |[|x l]|];
      try (now contradiction D); cbv beta iota; now rewrite Er.
Qed.

Lemma registry_answers_resolved w idx c nome_mun uf_sigla :
  registry_answers w idx c nome_mun uf_sigla ->
  resolved w idx c nome_mun uf_sigla.
Proof.
  intros (data & E & D & Er). unfold resolved, result_of.
  rewrite resolve_municipality_result, E. simpl.
  destruct data as [| | | | |[|x l]|];
    try (now contradiction D); cbv beta iota; now rewrite Er.
Qed.

Lemma fetch_boundary_returns w idx q place_gdf geom0 rest :
  geocode_to_gdf w idx q = Returns place_gdf ->
  place_gdf = geom0 :: rest ->
  result_of (fetch_boundary w idx q) = Ok (place_gdf, geom0).
Proof.
  intros H ->. unfold result_of, fetch_boundary, bind, call, bind, log, ret.
  simpl. now rewrite H.
Qed.

Lemma fetch_boundary_raises w idx q text :
  geocode_to_gdf w idx q = Raises text ->
  result_of (fetch_boundary w idx q)
  = Raise (QgsProcessingException (Msg.boundary_error q text)).
Proof.
  intros H. unfold result_of, fetch_boundary, bind, call, bind, log, ret.
  simpl. now rewrite H.
Qed.

Lemma fetch_boundary_empty w idx q :
  geocode_to_gdf w idx q = Returns [] ->
  result_of (fetch_boundary w idx q)
  = Raise (QgsProcessingException (Msg.boundary_empty q)).
Proof.
  intros H. unfold result_of, fetch_boundary, bind, call, bind, log, ret.
  simpl. now rewrite H.
Qed.

Lemma download_network_result w idx q g nt :
  result_of (download_network w idx q g nt)
  = match graph_from_polygon w idx g nt with
    | Raises text => Raise (QgsProcessingException (Msg.download_error q text))
    | Returns G => Ok G
    end.
Proof.
  unfold result_of, download_network, bind, call, bind, log, ret, raise.
  simpl. now destruct (graph_from_polygon w idx g nt).
Qed.

Lemma project_network_result w idx q G :
  result_of (project_network w idx q G)
  = match project_graph w idx G with
    | Raises text =>
        Raise (QgsProcessingException (Msg.projection_error q text))
    | Returns G_proj => Ok G_proj
    end.
Proof.
  unfold result_of, project_network, bind, call, bind, log, ret, raise.
  simpl. now destruct (project_graph w idx G).
Qed.

Lemma edge_table_result w idx q G_proj :
  result_of (edge_table w idx q G_proj)
  = match graph_to_gdfs w idx G_proj with
    | Raises text =>
        Raise (QgsProcessingException (Msg.conversion_error q text))
    | Returns edges => Ok edges
    end.
Proof.
  unfold result_of, edge_table, bind, call, bind, log, ret, raise.
  simpl. now destruct (graph_to_gdfs w idx G_proj).
Qed.

Lemma save_layer_result w idx out ln edges :
  result_of (save_layer w idx out ln edges)
  = match to_file_fails w idx out ln edges with
    | Some text => Raise (QgsProcessingException (Msg.write_error ln text))
    | None => Ok tt
    end.
Proof.
  unfold result_of, save_layer, bind, call, bind, log, ret, raise,
    put_layer, append_created.
  simpl. now destruct (to_file_fails w idx out ln edges).
Qed.

Lemma load_layer_result w idx out ln vn :
  result_of (load_layer w idx out ln vn)
  = if layer_is_valid w idx (out +++ "|layername=" +++ ln) vn
    then Ok tt
    else Raise (QgsProcessingException (Msg.layer_invalid ln)).
Proof.
  unfold result_of, load_layer, bind, call, bind, push_info, log, ret, raise.
  simpl. now destruct (layer_is_valid w idx _ vn).
Qed.

Lemma polygon_ready_bounded w b idx c nome_mun uf_sigla g :
  polygon_ready w b idx c nome_mun uf_sigla g ->
  bounded w b idx c nome_mun uf_sigla g.
Proof.
  intros (place_gdf & geom0 & (Hr & Hg & rest & E) & Ha).
  split; [now apply registry_answers_resolved|].
  exists place_gdf, geom0. split; [|exact Ha].
  now apply fetch_boundary_returns with (rest := rest).
Qed.

Lemma network_downloaded_downloaded w b nt idx c nome_mun uf_sigla G :
  network_downloaded w b nt idx c nome_mun uf_sigla G ->
  downloaded w b nt idx c nome_mun uf_sigla G.
Proof.
  intros (g & Hp & Hd). exists g.
  split; [now apply polygon_ready_bounded|].
  now rewrite download_network_result, Hd.
Qed.

Lemma network_projected_projected w b nt idx c nome_mun uf_sigla G_proj :
  network_projected w b nt idx c nome_mun uf_sigla G_proj ->
  projected w b nt idx c nome_mun uf_sigla G_proj.
Proof.
  intros (G & Hd & Hp). exists G.
  split; [now apply network_downloaded_downloaded|].
  now rewrite project_network_result, Hp.
Qed.

Lemma table_ready_converted w b nt idx c nome_mun uf_sigla edges :
  table_ready w b nt idx c nome_mun uf_sigla edges ->
  converted w b nt idx c nome_mun uf_sigla edges.
Proof.
  intros (G_proj & edges0 & Hp & Hc & Hs). exists G_proj, edges0.
  split; [now apply network_projected_projected|].
  split; [|exact Hs]. now rewrite edge_table_result, Hc.
Qed.

Lemma layer_stored_saved w b nt out idx c nome_mun uf_sigla :
  layer_stored w b nt out idx c nome_mun uf_sigla ->
  saved w b nt out idx c nome_mun uf_sigla.
Proof.
  intros (edges & Ht & Hw). exists edges.
  split; [now apply table_ready_converted|].
  now rewrite save_layer_result, Hw.
Qed.

Lemma collaborator_failure_stage w b nt out idx c st e :
  collaborator_failure w b nt out idx c st e ->
  stage_failure w b nt out idx c st e.
Proof.
  intros H.
  destruct H as
    [ e Hl
    | n u t Hr Hg
    | n u Hr Hg
    | n u g t Hp Hd
    | n u G t Hd Hp
    | n u Gp t Hp Hc
    | n u ed t Ht Hw
    | n u Hs Hv ].
  - apply lookup_fails. now apply lookup_failure_raises.
  - apply boundary_fails with (nome_mun := n) (uf_sigla := u);
      [now apply registry_answers_resolved|].
    now apply fetch_boundary_raises.
  - apply boundary_fails with (nome_mun := n) (uf_sigla := u);
      [now apply registry_answers_resolved|].
    now apply fetch_boundary_empty.
  - apply download_fails with (nome_mun := n) (uf_sigla := u) (g := g);
      [now apply polygon_ready_bounded|].
    now rewrite download_network_result, Hd.
  - apply projection_fails with (nome_mun := n) (uf_sigla := u) (G := G);
      [now apply network_downloaded_downloaded|].
    now rewrite project_network_result, Hp.
  - apply conversion_fails
      with (nome_mun := n) (uf_sigla := u) (G_proj := Gp);
      [now apply network_projected_projected|].
    now rewrite edge_table_result, Hc.
  - apply write_fails with (nome_mun := n) (uf_sigla := u) (edges := ed);
      [now apply table_ready_converted|].
    now rewrite save_layer_result, Hw.
  - apply load_fails with (nome_mun := n) (uf_sigla := u);
      [now apply layer_stored_saved|].
    rewrite load_layer_result. unfold layer_uri in Hv. now rewrite Hv.
Qed.

Lemma collaborator_failure_raises w b nt out total idx c st e :
  collaborator_failure w b nt out idx c st e ->
  result_of (process_municipality w b nt out total idx c) = Raise e.
Proof.
  intros H. apply stage_failure_raises with (st := st).
  now apply collaborator_failure_stage.
Qed.

Lemma initial_loop_inv_from pkg0 s :
  gpkg s = pkg0 -> created_layers s = [] -> loop_inv_from pkg0 [] s.
Proof.
  intros G C. split; [|exact C]. rewrite G.
  unfold kept_layers, unseen. simpl. rewrite app_nil_r.
  induction (layer_names pkg0) as [|n l IH];
    simpl; [reflexivity | now rewrite <- IH].
Qed.

(** C3. Let the run start on any package, let the codes before [c] be
    handled without error and let a collaborator fail at a stage of the
    iteration for [c], whichever of the seven it is: the request fails or
    the registry's answer cannot be used, the geocoder raises or finds
    nothing, the download, the projection or the conversion raises, the
    write raises, or the layer opened is not valid. Then the run raises the
    exception of that failure and stops there. The layers of the earlier
    codes are in the package: leaving the layer of [c] aside, the package
    is the layers the run found and has not written again, then the layers
    of the earlier codes in their order; when the run did not find a layer
    of [c], as on a destination that holds no package, these are followed
    at most by the layer of [c] itself (when the failure comes after its
    write). For a later code nothing was written and no request was made,
    and its layer is in the package only if the run found it there. *)
Theorem fatal_failure_halts_run w os p pkg0 nt out pre c post st e :
  select_network_type (net_type_index p) = Some nt ->
  result_of (normalize_output_path os (out_path_user p)) = Ok out ->
  import_osmnx w = Imported ->
  import_geopandas w = Imported ->
  _parse_municipality_codes (mun_codes_str p) = pre ++ c :: post ->
  (forall i c', nth_error pre i = Some c' ->
     result_of (process_municipality w (buffer_m p) nt out
                                     (length (pre ++ c :: post)) (S i) c')
     = Ok tt) ->
  collaborator_failure w (buffer_m p) nt out (S (length pre)) c st e ->
  let r := processAlgorithm w os p (initial_state pkg0) in
  fst r = Raise e
  /\ filter (fun n => negb (String.eqb n (layer_name_of c)))
            (layer_names (gpkg (snd r)))
     = kept_layers pkg0 (pre ++ [c]) ++ map layer_name_of pre
  /\ (~ In (layer_name_of c) (layer_names pkg0) ->
      layer_names (gpkg (snd r))
      = kept_layers pkg0 pre ++ map layer_name_of pre
      \/ layer_names (gpkg (snd r))
         = kept_layers pkg0 pre ++ map layer_name_of (pre ++ [c]))
  /\ (forall c', In c' pre ->
        In (layer_name_of c') (layer_names (gpkg (snd r))))
  /\ (forall c', In c' post ->
        (forall path edges,
            ~ In (ToFile path (layer_name_of c') edges) (trace (snd r)))
        /\ ~ In (RequestsGet (ibge_url c')) (trace (snd r))
        /\ (In (layer_name_of c') (layer_names (gpkg (snd r)))
            <-> In (layer_name_of c') (layer_names pkg0))).
Proof.
  intros Hs Ho Hi1 Hi2 Hc Hpre Hf r. subst r.
  assert (Eo : out = output_path os (out_path_user p)).
  { unfold result_of in Ho.
    pose proof (normalize_output_path_run os (out_path_user p)
                                          (initial_state [])) as [N _].
    rewrite N in Ho. now inversion Ho. }
  assert (Hne : _parse_municipality_codes (mun_codes_str p) <> [])
    by (rewrite Hc; now destruct pre).
  assert (Hn : NoDup (pre ++ c :: post))
    by (rewrite <- Hc; apply parse_NoDup).
  assert (Hn' : NoDup ((pre ++ [c]) ++ post))
    by (now rewrite <- app_assoc).
  assert (Hout : forall x, In x post -> ~ In x (pre ++ [c])).
  { intros x H1 H2. exact (NoDup_app_disjoint _ _ x Hn' H2 H1). }
  rewrite (processAlgorithm_loop w os p nt _ Hs Hne), Hc.
  destruct (setup_run w os p (pre ++ c :: post) (initial_state pkg0)
                      Hi1 Hi2) as [S1 _].
  destruct (setup_feedback_only w os p (pre ++ c :: post)
                                (initial_state pkg0))
    as (G1 & C1 & ev0 & T0 & F0).
  rewrite <- Eo in S1.
  rewrite (bind_Ok _ _ _ _ _ (run_Ok _ _ _ S1)).
  set (s1 := snd (setup w os p (pre ++ c :: post) (initial_state pkg0))) in *.
  simpl in G1, C1, T0.
  destruct (for_each_Raise_from
              w (buffer_m p) nt out (length (pre ++ c :: post)) pkg0
              pre 1 [] s1 c post e)
    as (s' & E & G & evs & T & F & A).
  - exact Hpre.
  - now apply collaborator_failure_raises with (st := st).
  - now apply initial_loop_inv_from.
  - apply NoDup_app_remove_r in Hn'. exact Hn'.
  - rewrite (bind_Raise _ _ _ _ _ E). simpl fst. simpl snd.
    simpl app in G.
    assert (Hcp : ~ In c pre).
    { apply NoDup_remove_2 in Hn. rewrite in_app_iff in Hn. tauto. }
    assert (Hk : ~ In (layer_name_of c) (kept_layers pkg0 (pre ++ [c]))).
    { rewrite kept_layers_In. intros [_ H]. apply H, in_map.
      apply in_or_app. right. now left. }
    split; [reflexivity|].
    split.
    { destruct G as [[G _]|[G _]]; rewrite G, filter_app.
      - rewrite kept_layers_step.
        now rewrite (filter_absent _ _ (layer_name_of_fresh c pre Hcp)).
      - rewrite (filter_absent _ _ Hk), map_app, filter_app.
        rewrite (filter_absent _ _ (layer_name_of_fresh c pre Hcp)).
        simpl. rewrite String.eqb_refl. simpl. now rewrite app_nil_r. }
    split.
    { intros H0.
      assert (K : kept_layers pkg0 (pre ++ [c]) = kept_layers pkg0 pre).
      { rewrite <- kept_layers_step. apply filter_absent.
        rewrite kept_layers_In. tauto. }
      destruct G as [[G _]|[G _]]; [now left | right].
      now rewrite G, K. }
    split.
    { intros x Hx. destruct G as [G|G];
        apply (loop_inv_from_done _ _ _ _ G);
        [exact Hx | apply in_or_app; now left]. }
    intros x Hx. split; [|split].
    + intros path edges H. rewrite T, T0 in H. simpl in H.
      apply in_app_or in H as [H|H].
      * rewrite Forall_forall in F0. exact (F0 _ H).
      * rewrite Forall_forall in A.
        destruct (A _ H) as (_ & y & Hy & Ey).
        apply layer_name_of_inj in Ey. subst y. exact (Hout x Hx Hy).
    + rewrite T, T0. simpl. intros H.
      apply in_app_or in H as [H|H].
      * rewrite Forall_forall in F0. exact (F0 _ H).
      * rewrite Forall_forall in F. destruct (F _ H) as (y & Hy & Ey).
        apply ibge_url_inj in Ey. subst y. exact (Hout x Hx Hy).
    + destruct G as [G|G]; apply (loop_inv_from_other _ _ _ _ G);
        intros H; apply (Hout x Hx); [apply in_or_app; now left | exact H].
Qed.

Lemma fatal_failure_halts_run_witness :
  let w := sample_world_failing LayerLoad 2 in
  let p := Sample.params "4305108, 3550308, 1100015" 0 in
  let pkg0 := [("osm_segments_1100015", old_table);
               ("osm_segments_4305108", old_table)] in
  let e := QgsProcessingException
             (Msg.layer_invalid "osm_segments_3550308") in
  let r := processAlgorithm w Posix p (initial_state pkg0) in
  (_parse_municipality_codes (mun_codes_str p)
   = ["4305108"] ++ "3550308" :: ["1100015"]
   /\ collaborator_failure w (buffer_m p) "drive" "/home/ana/redes.gpkg"
                           2 "3550308" LayerLoad e)
  /\ fst r = Raise e
  /\ In "osm_segments_4305108" (layer_names (gpkg (snd r)))
  /\ (forall path edges,
         ~ In (ToFile path "osm_segments_1100015" edges) (trace (snd r)))
  /\ ~ In (RequestsGet (ibge_url "1100015")) (trace (snd r)).
Proof.
  cbv zeta.
  assert (Hc : _parse_municipality_codes
                 (mun_codes_str (Sample.params "4305108, 3550308, 1100015" 0))
               = ["4305108"] ++ "3550308" :: ["1100015"])
    by (vm_compute; reflexivity).
  assert (Hs : select_network_type
                 (net_type_index
                    (Sample.params "4305108, 3550308, 1100015" 0))
               = Some "drive") by reflexivity.
  assert (Ho : result_of (normalize_output_path
                            Posix
                            (out_path_user
                               (Sample.params
                                  "4305108, 3550308, 1100015" 0)))
               = Ok "/home/ana/redes.gpkg") by (vm_compute; reflexivity).
  assert (Hr : registry_answers
                 (sample_world_failing LayerLoad 2) 2 "3550308"
                 (PStr ("S" +++ Msg.a_tilde +++ "o Paulo")) (PStr "SP")).
  { eexists. split; [vm_compute; reflexivity|].
    split; [discriminate | vm_compute; reflexivity]. }
  assert (Hb : boundary_found
                 (sample_world_failing LayerLoad 2) 2 "3550308"
                 (PStr ("S" +++ Msg.a_tilde +++ "o Paulo")) (PStr "SP")
                 [Geom 2] (Geom 2)).
  { split; [exact Hr|]. split; [vm_compute; reflexivity|].
    exists []. reflexivity. }
  assert (Hg : polygon_ready
                 (sample_world_failing LayerLoad 2) 0 2 "3550308"
                 (PStr ("S" +++ Msg.a_tilde +++ "o Paulo")) (PStr "SP")
                 (Geom 2)).
  { exists [Geom 2], (Geom 2). split; [exact Hb|]. vm_compute. reflexivity. }
  assert (Hd : network_downloaded
                 (sample_world_failing LayerLoad 2) 0 "drive" 2 "3550308"
                 (PStr ("S" +++ Msg.a_tilde +++ "o Paulo")) (PStr "SP")
                 (Graph 2)).
  { exists (Geom 2). split; [exact Hg|]. vm_compute. reflexivity. }
  assert (Hp : network_projected
                 (sample_world_failing LayerLoad 2) 0 "drive" 2 "3550308"
                 (PStr ("S" +++ Msg.a_tilde +++ "o Paulo")) (PStr "SP")
                 (Graph 2)).
  { exists (Graph 2). split; [exact Hd|]. vm_compute. reflexivity. }
  assert (Ht : table_ready
                 (sample_world_failing LayerLoad 2) 0 "drive" 2 "3550308"
                 (PStr ("S" +++ Msg.a_tilde +++ "o Paulo")) (PStr "SP")
                 {| edges_id := 2; edges_len := 12; edges_crs := None |}).
  { exists (Graph 2),
           {| edges_id := 2; edges_len := 12;
              edges_crs := Some "EPSG:32722" |}.
    split; [exact Hp|]. split; vm_compute; reflexivity. }
  assert (Hw : layer_stored
                 (sample_world_failing LayerLoad 2) 0 "drive"
                 "/home/ana/redes.gpkg" 2 "3550308"
                 (PStr ("S" +++ Msg.a_tilde +++ "o Paulo")) (PStr "SP")).
  { eexists. split; [exact Ht|]. vm_compute. reflexivity. }
  assert (Hf : collaborator_failure
                 (sample_world_failing LayerLoad 2)
                 (buffer_m (Sample.params "4305108, 3550308, 1100015" 0))
                 "drive" "/home/ana/redes.gpkg" 2 "3550308" LayerLoad
                 (QgsProcessingException
                    (Msg.layer_invalid "osm_segments_3550308"))).
  { apply (layer_not_valid
             (sample_world_failing LayerLoad 2) 0 "drive"
             "/home/ana/redes.gpkg" 2 "3550308"
             (PStr ("S" +++ Msg.a_tilde +++ "o Paulo")) (PStr "SP") Hw).
    vm_compute. reflexivity. }
  assert (Hpre : forall i c',
             nth_error ["4305108"] i = Some c' ->
             result_of (process_municipality
                          (sample_world_failing LayerLoad 2)
                          (buffer_m
                             (Sample.params "4305108, 3550308, 1100015" 0))
                          "drive" "/home/ana/redes.gpkg"
                          (length (["4305108"] ++ "3550308" :: ["1100015"]))
                          (S i) c') = Ok tt).
  { intros [|[|i]] c' H; try discriminate.
    injection H as <-. vm_compute. reflexivity. }
  split; [exact (conj Hc Hf)|].
  destruct (fatal_failure_halts_run
              (sample_world_failing LayerLoad 2) Posix
              (Sample.params "4305108, 3550308, 1100015" 0)
              [("osm_segments_1100015", old_table);
               ("osm_segments_4305108", old_table)]
              "drive" "/home/ana/redes.gpkg"
              ["4305108"] "3550308" ["1100015"] LayerLoad
              (QgsProcessingException
                 (Msg.layer_invalid "osm_segments_3550308"))
              Hs Ho eq_refl eq_refl Hc Hpre Hf) as (R & _ & _ & I & N).
  split; [exact R|]. split; [exact (I "4305108" (or_introl eq_refl))|].
  destruct (N "1100015" (or_introl eq_refl)) as (N1 & N2 & _).
  split; [exact N1 | exact N2].
Defined.

(** ** Failures that are not fatal *)

Lemma quiet_gpkg P {A} (m : M A) s :
  quiet P m -> gpkg (snd (m s)) = gpkg s.
Proof. intros H. apply H. Qed.

Lemma quiet_push_info msg : quiet no_request (push_info msg).
Proof. apply quiet_log. exact I. Qed.

Lemma quiet_push_either (c : bool) m1 m2 :
  quiet no_request (if c then push_info m1 else push_info m2).
Proof. destruct c; apply quiet_push_info. Qed.

(** The package after a chain of stages that do not write is the package
    before it. *)
Ltac frame :=
  repeat
    (erewrite quiet_gpkg
      by first [ stage | apply quiet_push_info | apply quiet_push_either ]).

Lemma save_layer_logs w idx out ln e s :
  In (ToFile out ln e) (trace (snd (save_layer w idx out ln e s))).
Proof.
  unfold save_layer, bind, call, bind, log, ret, raise, put_layer,
    append_created. simpl.
  destruct (to_file_fails w idx out ln e); simpl;
    apply in_or_app; right; now left.
Qed.

Lemma save_layer_writes w idx out ln e s :
  to_file_fails w idx out ln e = None ->
  fst (save_layer w idx out ln e s) = Ok tt
  /\ gpkg (snd (save_layer w idx out ln e s)) = write_layer (gpkg s) ln e.
Proof.
  intros H.
  unfold save_layer, bind, call, bind, log, ret, put_layer, append_created.
  simpl. rewrite H. split; reflexivity.
Qed.

Lemma download_network_logs w idx q g nt s :
  In (GraphFromPolygon g nt) (trace (snd (download_network w idx q g nt s))).
Proof.
  unfold download_network, bind, call, bind, log, ret, raise. simpl.
  destruct (graph_from_polygon w idx g nt); simpl;
    apply in_or_app; right; now left.
Qed.

Lemma buffer_primary_returns w idx place_gdf b s :
  exists r, fst (buffer_primary w idx place_gdf b s) = Ok r.
Proof.
  unfold buffer_primary, bind, call, bind, log, ret. simpl.
  destruct (project_gdf w idx place_gdf) as [?|g1]; simpl; eauto.
  destruct (gdf_buffer w idx g1 b) as [?|g2]; simpl; eauto.
Qed.

Lemma buffer_fallback_returns w idx place_gdf b s :
  exists r, fst (buffer_fallback w idx place_gdf b s) = Ok r.
Proof.
  unfold buffer_fallback, bind, call, bind, log, ret. simpl.
  destruct (to_crs w idx place_gdf 3857) as [?|g1]; simpl; eauto.
  destruct (gdf_buffer w idx g1 b) as [?|g2]; simpl; eauto.
Qed.

Lemma buffered_geometry_returns w idx place_gdf b s :
  exists r, fst (buffered_geometry w idx place_gdf b s) = Ok r.
Proof.
  unfold buffered_geometry.
  destruct (buffer_primary_returns w idx place_gdf b s) as [r1 H1].
  rewrite (bind_Ok _ _ _ _ _ (run_Ok _ _ _ H1)).
  destruct r1 as [t|pb].
  - destruct (buffer_fallback_returns
                w idx place_gdf b
                (snd (buffer_primary w idx place_gdf b s))) as [r2 H2].
    rewrite (bind_Ok _ _ _ _ _ (run_Ok _ _ _ H2)). simpl. eauto.
  - simpl. eauto.
Qed.

Lemma apply_buffer_returns w idx b q place_gdf geom0 s :
  exists g, fst (apply_buffer w idx b q place_gdf geom0 s) = Ok g.
Proof.
  unfold apply_buffer. destruct (buffer_positive b); [|now exists geom0].
  destruct (buffered_geometry_returns w idx place_gdf b s) as [r H].
  rewrite (bind_Ok _ _ _ _ _ (run_Ok _ _ _ H)).
  destruct r as [t|g]; simpl; eauto.
Qed.

Lemma apply_buffer_falls_back w idx b q place_gdf geom0 t1 text s :
  buffer_positive b = true ->
  result_of (buffer_primary w idx place_gdf b) = Ok (Raises t1) ->
  result_of (buffer_fallback w idx place_gdf b) = Ok (Raises text) ->
  fst (apply_buffer w idx b q place_gdf geom0 s) = Ok geom0
  /\ In (ReportError (Msg.buffer_failed q text))
        (trace (snd (apply_buffer w idx b q place_gdf geom0 s))).
Proof.
  intros Hb H1 H2.
  assert (H1' : forall s0, buffer_primary w idx place_gdf b s0
                           = (Ok (Raises t1),
                              snd (buffer_primary w idx place_gdf b s0))).
  { intros s0. apply run_Ok. now rewrite stateless_result by stage. }
  assert (H2' : forall s0, buffer_fallback w idx place_gdf b s0
                           = (Ok (Raises text),
                              snd (buffer_fallback w idx place_gdf b s0))).
  { intros s0. apply run_Ok. now rewrite stateless_result by stage. }
  assert (B : fst (buffered_geometry w idx place_gdf b s)
              = Ok (Raises text)).
  { unfold buffered_geometry.
    rewrite (bind_Ok _ _ _ _ _ (H1' s)). cbv beta iota.
    rewrite (bind_Ok _ _ _ _ _ (H2' _)). reflexivity. }
  unfold apply_buffer. rewrite Hb.
  rewrite (bind_Ok _ _ _ _ _ (run_Ok _ _ _ B)). cbv beta iota.
  unfold bind, report_error, log, ret. cbn [fst snd trace].
  split; [reflexivity|]. apply in_or_app. right. now left.
Qed.

(** C6, as stated, fails: when the projection of the primary computation
    raises and the computation through Web Mercator works, the run goes on
    with the buffered polygon ([Geom 101], where the boundary is [Geom 1])
    and logs no warning. *)
Lemma primary_failure_is_recovered_silently :
  let w := Sample.make_world false true true in
  let p := Sample.params "4305108" 250%Q in
  buffer_positive (buffer_m p) = true
  /\ result_of (fetch_boundary w 1 "Caxias do Sul, RS, Brasil")
     = Ok ([Geom 1], Geom 1)
  /\ result_of (buffer_primary w 1 [Geom 1] (buffer_m p))
     = Ok (Raises "no UTM zone")
  /\ fst (run w Posix p) = Ok [(PARAM_OUTPUT, "/home/ana/redes.gpkg")]
  /\ warnings (trace (snd (run w Posix p))) = []
  /\ download_polygons (trace (snd (run w Posix p))) = [Geom 101].
Proof. cbv zeta. repeat split; vm_compute; reflexivity. Qed.

(** C6, amended. The buffer stage never raises. With a positive buffer
    distance, when the primary computation raises and the computation
    through Web Mercator raises too, the stage returns the boundary as it
    was, the iteration logs the warning with the text of the second
    failure, the network is downloaded for the unbuffered boundary, and
    when download, projection, conversion and write succeed the layer is
    in the package. *)
Theorem buffer_failure_is_not_fatal
        w b nt out total idx c nome_mun uf_sigla place_gdf geom0 t1 text s :
  buffer_positive b = true ->
  resolved w idx c nome_mun uf_sigla ->
  result_of (fetch_boundary w idx (place_query_of w nome_mun uf_sigla))
  = Ok (place_gdf, geom0) ->
  result_of (buffer_primary w idx place_gdf b) = Ok (Raises t1) ->
  result_of (buffer_fallback w idx place_gdf b) = Ok (Raises text) ->
  let q := place_query_of w nome_mun uf_sigla in
  let body := process_municipality w b nt out total idx c in
  (forall s0, exists g, fst (apply_buffer w idx b q place_gdf geom0 s0) = Ok g)
  /\ fst (apply_buffer w idx b q place_gdf geom0 s) = Ok geom0
  /\ In (ReportError (Msg.buffer_failed q text)) (trace (snd (body s)))
  /\ In (GraphFromPolygon geom0 nt) (trace (snd (body s)))
  /\ (forall G G_proj edges0 edges,
         result_of (download_network w idx q geom0 nt) = Ok G ->
         result_of (project_network w idx q G) = Ok G_proj ->
         result_of (edge_table w idx q G_proj) = Ok edges0 ->
         result_of (strip_crs w idx edges0) = Ok edges ->
         to_file_fails w idx out (layer_name_of c) edges = None ->
         gpkg (snd (body s)) = write_layer (gpkg s) (layer_name_of c) edges).
Proof.
  intros Hb Hr Hf H1 H2 q body. unfold resolved in Hr.
  pose proof (fun s0 => apply_buffer_falls_back w idx b q place_gdf geom0
                          t1 text s0 Hb H1 H2) as A.
  split; [intros s0; apply apply_buffer_returns|].
  split; [apply A|].
  subst body. unfold process_municipality. fold q.
  do 6 forward. fold q.
  split; [apply in_trace_bind; [apply A|rest_monotone]|].
  erewrite bind_Ok by (apply run_Ok, A). cbv beta iota.
  forward.
  split; [apply in_trace_bind; [apply download_network_logs|rest_monotone]|].
  intros G G_proj edges0 edges Hd Hp He Hs Hw.
  do 5 forward.
  erewrite bind_Ok by (apply run_Ok, save_layer_writes, Hw).
  erewrite quiet_gpkg by stage.
  rewrite (proj2 (save_layer_writes _ _ _ _ _ _ Hw)).
  f_equal. frame. reflexivity.
Qed.

Lemma buffer_failure_is_not_fatal_witness :
  let w := Sample.make_world false false true in
  let nome := PStr "Caxias do Sul" in
  let uf := PStr "RS" in
  let q := place_query_of w nome uf in
  let body := process_municipality w 250%Q "drive" "/home/ana/redes.gpkg"
                                   1 1 "4305108" in
  let edges := {| edges_id := 1; edges_len := 12; edges_crs := None |} in
  (buffer_positive 250%Q = true
   /\ result_of (buffer_primary w 1 [Geom 1] 250%Q)
      = Ok (Raises "no UTM zone")
   /\ result_of (buffer_fallback w 1 [Geom 1] 250%Q)
      = Ok (Raises "PROJ: unknown CRS"))
  /\ In (ReportError (Msg.buffer_failed q "PROJ: unknown CRS"))
        (trace (snd (body (initial_state []))))
  /\ In (GraphFromPolygon (Geom 1) "drive")
        (trace (snd (body (initial_state []))))
  /\ gpkg (snd (body (initial_state [])))
     = write_layer (gpkg (initial_state []))
                   (layer_name_of "4305108") edges.
Proof.
  cbv zeta.
  assert (Hb : buffer_positive 250%Q = true) by reflexivity.
  assert (Hr : resolved (Sample.make_world false false true) 1 "4305108"
                        (PStr "Caxias do Sul") (PStr "RS"))
    by (unfold resolved; vm_compute; reflexivity).
  assert (Hf : result_of (fetch_boundary
                            (Sample.make_world false false true) 1
                            (place_query_of
                               (Sample.make_world false false true)
                               (PStr "Caxias do Sul") (PStr "RS")))
               = Ok ([Geom 1], Geom 1)) by (vm_compute; reflexivity).
  assert (H1 : result_of (buffer_primary
                            (Sample.make_world false false true) 1
                            [Geom 1] 250%Q)
               = Ok (Raises "no UTM zone")) by (vm_compute; reflexivity).
  assert (H2 : result_of (buffer_fallback
                            (Sample.make_world false false true) 1
                            [Geom 1] 250%Q)
               = Ok (Raises "PROJ: unknown CRS"))
    by (vm_compute; reflexivity).
  pose proof (buffer_failure_is_not_fatal
                (Sample.make_world false false true) 250%Q "drive"
                "/home/ana/redes.gpkg" 1 1 "4305108"
                (PStr "Caxias do Sul") (PStr "RS") [Geom 1] (Geom 1)
                "no UTM zone" "PROJ: unknown CRS" (initial_state [])
                Hb Hr Hf H1 H2) as H.
  cbv zeta in H. destruct H as (_ & _ & W & D & L).
  split; [exact (conj Hb (conj H1 H2))|].
  split; [exact W|]. split; [exact D|].
  apply (L (Graph 1) (Graph 1)
           {| edges_id := 1; edges_len := 12;
              edges_crs := Some "EPSG:32722" |});
    vm_compute; reflexivity.
Defined.

Lemma strip_crs_keeps_table w idx edges crs text s :
  edges_crs edges = Some crs ->
  set_crs_fails w idx edges = Some text ->
  fst (strip_crs w idx edges s) = Ok edges
  /\ In (ReportError (Msg.crs_not_removed text))
        (trace (snd (strip_crs w idx edges s))).
Proof.
  intros Hc Hf. unfold strip_crs. rewrite Hc.
  unfold bind, push_info, call, bind, report_error, log, ret.
  cbn [fst snd trace]. rewrite Hf. cbn [fst snd trace].
  split; [reflexivity|]. apply in_or_app. right. now left.
Qed.

(** C10. When the edge table has a CRS tag and its removal raises, the
    stage returns the table as it was: the iteration reports the failure
    as a warning, calls the write with that table, its CRS tag still
    present, and when the write succeeds the table is the layer in the
    package. *)
Theorem crs_removal_failure_is_not_fatal
        w b nt out total idx c nome_mun uf_sigla G_proj edges crs text s :
  projected w b nt idx c nome_mun uf_sigla G_proj ->
  result_of (edge_table w idx (place_query_of w nome_mun uf_sigla) G_proj)
  = Ok edges ->
  edges_crs edges = Some crs ->
  set_crs_fails w idx edges = Some text ->
  let body := process_municipality w b nt out total idx c in
  fst (strip_crs w idx edges s) = Ok edges
  /\ In (ReportError (Msg.crs_not_removed text)) (trace (snd (body s)))
  /\ In (ToFile out (layer_name_of c) edges) (trace (snd (body s)))
  /\ (to_file_fails w idx out (layer_name_of c) edges = None ->
      gpkg (snd (body s)) = write_layer (gpkg s) (layer_name_of c) edges
      /\ In (layer_name_of c, edges) (gpkg (snd (body s)))).
Proof.
  intros (G & (g & (Hr & pg & g0 & Hb & Ha) & Hd) & Hp) He Hc Hf body.
  unfold resolved in Hr.
  pose proof (fun s0 => strip_crs_keeps_table w idx edges crs text s0 Hc Hf)
    as K.
  split; [apply K|].
  subst body. unfold process_municipality.
  do 12 forward.
  split; [apply in_trace_bind; [apply K|rest_monotone]|].
  erewrite bind_Ok by (apply run_Ok, K). cbv beta iota.
  split; [apply in_trace_bind; [apply save_layer_logs|rest_monotone]|].
  intros Hw.
  erewrite bind_Ok by (apply run_Ok, save_layer_writes, Hw).
  erewrite quiet_gpkg by stage.
  rewrite (proj2 (save_layer_writes _ _ _ _ _ _ Hw)).
  frame. split; [reflexivity | apply write_layer_lookup].
Qed.

Lemma crs_removal_failure_is_not_fatal_witness :
  let w := Sample.make_world true true false in
  let body := process_municipality w 0 "drive" "/home/ana/redes.gpkg"
                                   1 1 "4305108" in
  let edges := {| edges_id := 1; edges_len := 12;
                  edges_crs := Some "EPSG:32722" |} in
  (edges_crs edges = Some "EPSG:32722"
   /\ set_crs_fails w 1 edges = Some "PROJ: database not found")
  /\ In (ReportError (Msg.crs_not_removed "PROJ: database not found"))
        (trace (snd (body (initial_state []))))
  /\ In (ToFile "/home/ana/redes.gpkg" (layer_name_of "4305108") edges)
        (trace (snd (body (initial_state []))))
  /\ In (layer_name_of "4305108", edges)
        (gpkg (snd (body (initial_state [])))).
Proof.
  cbv zeta.
  assert (Hp : projected (Sample.make_world true true false) 0 "drive"
                         1 "4305108" (PStr "Caxias do Sul") (PStr "RS")
                         (Graph 1)).
  { exists (Graph 1). split; [|vm_compute; reflexivity].
    exists (Geom 1). split; [|vm_compute; reflexivity].
    split; [unfold resolved; vm_compute; reflexivity|].
    exists [Geom 1], (Geom 1). split; vm_compute; reflexivity. }
  assert (He : result_of (edge_table
                            (Sample.make_world true true false) 1
                            (place_query_of
                               (Sample.make_world true true false)
                               (PStr "Caxias do Sul") (PStr "RS"))
                            (Graph 1))
               = Ok {| edges_id := 1; edges_len := 12;
                       edges_crs := Some "EPSG:32722" |})
    by (vm_compute; reflexivity).
  pose proof (crs_removal_failure_is_not_fatal
                (Sample.make_world true true false) 0 "drive"
                "/home/ana/redes.gpkg" 1 1 "4305108"
                (PStr "Caxias do Sul") (PStr "RS") (Graph 1)
                {| edges_id := 1; edges_len := 12;
                   edges_crs := Some "EPSG:32722" |}
                "EPSG:32722" "PROJ: database not found" (initial_state [])
                Hp He eq_refl eq_refl) as H.
  cbv zeta in H. destruct H as (_ & W & T & L).
  split; [split; reflexivity|]. split; [exact W|]. split; [exact T|].
  exact (proj2 (L eq_refl)).
Defined.

(** * Further properties of the code *)

(** ** The code parser, on every input *)

(** The parser without its shortcut for the empty string. *)
Lemma parse_unfold (s : string) :
  _parse_municipality_codes s
  = dedup_loop
      (digit_codes
         (Py.split ","%char
            (Py.replace (ascii_of_nat 9) ","%char
               (Py.replace (ascii_of_nat 10) ","%char
                  (Py.replace ";"%char ","%char s)))))
      [] [].
Proof. destruct s; reflexivity. Qed.

Lemma replace_idem (old new : ascii) (s : string) :
  Py.replace old new (Py.replace old new s) = Py.replace old new s.
Proof.
  induction s as [|c s IH]; simpl; [reflexivity|]. rewrite IH. f_equal.
  destruct (Ascii.eqb c old) eqn:E; [|now rewrite E].
  now destruct (Ascii.eqb new old).
Qed.

Lemma replace_comm (a b new : ascii) (s : string) :
  Py.replace a new (Py.replace b new s)
  = Py.replace b new (Py.replace a new s).
Proof.
  induction s as [|c s IH]; simpl; [reflexivity|]. rewrite IH. f_equal.
  destruct (Ascii.eqb c b) eqn:Eb, (Ascii.eqb c a) eqn:Ea;
    rewrite ?Ea, ?Eb; try reflexivity.
  - apply Ascii.eqb_eq in Ea, Eb. subst.
    now destruct (Ascii.eqb new a).
  - now destruct (Ascii.eqb new a), (Ascii.eqb new b).
  - now destruct (Ascii.eqb new a), (Ascii.eqb new b).
Qed.

Lemma replace_append (old new : ascii) (a b : string) :
  Py.replace old new (a +++ b) = Py.replace old new a +++ Py.replace old new b.
Proof. induction a as [|c a IH]; simpl; [reflexivity | now rewrite IH]. Qed.

Lemma split_nonempty (sep : ascii) (s : string) : Py.split sep s <> [].
Proof.
  induction s as [|c s IH]; simpl; [discriminate|].
  destruct (Ascii.eqb c sep); [discriminate|].
  destruct (Py.split sep s); discriminate.
Qed.

Lemma split_append (sep : ascii) (a b : string) :
  Py.split sep (a +++ String sep b) = Py.split sep a ++ Py.split sep b.
Proof.
  induction a as [|c a IH]; simpl.
  - now rewrite Ascii.eqb_refl.
  - destruct (Ascii.eqb c sep); [now rewrite IH|].
    rewrite IH. pose proof (split_nonempty sep a) as N.
    destruct (Py.split sep a); [now contradiction N | reflexivity].
Qed.

Lemma digit_codes_app (l1 l2 : list string) :
  digit_codes (l1 ++ l2) = digit_codes l1 ++ digit_codes l2.
Proof.
  induction l1 as [|p l1 IH]; simpl; [reflexivity|].
  destruct (Py.filter_chars Py.isdigit p); simpl; now rewrite IH.
Qed.

Lemma filter_twice {A} (p q : A -> bool) (l : list A) :
  filter p (filter q l) = filter (fun x => q x && p x) l.
Proof.
  induction l as [|x l IH]; simpl; [reflexivity|].
  destruct (q x); simpl; [destruct (p x)|]; now rewrite IH.
Qed.

(** The loop started with codes already seen gives what it gives from
    scratch, less the codes seen. *)
Lemma dedup_loop_from (codes seen unique_codes : list string) :
  dedup_loop codes seen unique_codes
  = unique_codes ++ unseen seen (dedup_loop codes [] []).
Proof.
  revert seen unique_codes.
  induction codes as [|c rest IH]; intros seen uniq; cbn [dedup_loop].
  - unfold unseen. simpl. now rewrite app_nil_r.
  - change (Py.mem c []) with false. cbn [negb app].
    rewrite (IH [c] [c]). unfold unseen. cbn [app filter].
    destruct (Py.mem c seen) eqn:E; cbn [negb].
    + rewrite IH. unfold unseen. f_equal. rewrite filter_twice.
      apply filter_ext_in. intros x _. unfold Py.mem in *.
      cbn [existsb]. rewrite orb_false_r.
      destruct (String.eqb x c) eqn:Ex; cbn [negb andb]; [|reflexivity].
      apply String.eqb_eq in Ex. subst. now rewrite E.
    + rewrite IH, <- app_assoc. unfold unseen. cbn [app]. do 2 f_equal.
      rewrite filter_twice. apply filter_ext_in. intros x _.
      unfold Py.mem. cbn [existsb]. rewrite orb_false_r.
      now destruct (String.eqb x c), (existsb (String.eqb x) seen).
Qed.

Lemma dedup_loop_app (l1 l2 seen unique_codes : list string) :
  dedup_loop (l1 ++ l2) seen unique_codes
  = dedup_loop l1 seen unique_codes
    ++ unseen (seen ++ l1) (dedup_loop l2 [] []).
Proof.
  revert seen unique_codes.
  induction l1 as [|c l1 IH]; intros seen uniq; cbn [app dedup_loop].
  - rewrite app_nil_r. apply dedup_loop_from.
  - destruct (Py.mem c seen) eqn:E; cbn [negb]; rewrite IH; f_equal;
      apply filter_ext_in; intros x _; f_equal; unfold Py.mem;
      rewrite !existsb_app; cbn [existsb app].
    + destruct (String.eqb x c) eqn:Ex; cbn [orb]; [|reflexivity].
      apply String.eqb_eq in Ex. subst. unfold Py.mem in E.
      now rewrite E.
    + now rewrite orb_assoc, (orb_comm (String.eqb x c)).
Qed.

Lemma unseen_ext (l1 l2 codes : list string) :
  (forall x, In x l1 <-> In x l2) -> unseen l1 codes = unseen l2 codes.
Proof.
  intros H. apply filter_ext_in. intros x _. f_equal.
  destruct (Py.mem x l1) eqn:E1, (Py.mem x l2) eqn:E2; trivial.
  - apply mem_In, H, mem_In in E1. congruence.
  - apply mem_In, H, mem_In in E2. congruence.
Qed.

Lemma dedup_loop_In (codes : list string) (x : string) :
  In x (dedup_loop codes [] []) <-> In x codes.
Proof.
  destruct (dedup_loop_spec codes [] []) as (_ & H & _);
    [simpl; tauto | constructor |].
  rewrite H. simpl. tauto.
Qed.

Lemma parse_append_comma (a b : string) :
  _parse_municipality_codes (a +++ "," +++ b)
  = _parse_municipality_codes a
    ++ unseen (_parse_municipality_codes a) (_parse_municipality_codes b).
Proof.
  rewrite !parse_unfold, !replace_append.
  change (Py.replace (ascii_of_nat 9) ","%char
            (Py.replace (ascii_of_nat 10) ","%char
               (Py.replace ";"%char ","%char ","))) with ",".
  cbn [String.append].
  rewrite split_append, digit_codes_app, dedup_loop_app. cbn [app].
  f_equal. apply unseen_ext. intros x. now rewrite dedup_loop_In.
Qed.

Lemma all_chars_cons (p : ascii -> bool) (c : ascii) (s : string) :
  all_chars p (String c s) = p c && all_chars p s.
Proof. reflexivity. Qed.

Lemma replace_digits (old new : ascii) (s : string) :
  Py.isdigit old = false -> all_chars Py.isdigit s = true ->
  Py.replace old new s = s.
Proof.
  intros Ho. induction s as [|c s IH]; [reflexivity|].
  rewrite all_chars_cons. intros H. apply andb_true_iff in H as [Hc Hs].
  simpl. rewrite (IH Hs). f_equal.
  destruct (Ascii.eqb c old) eqn:E; [|reflexivity].
  apply Ascii.eqb_eq in E. congruence.
Qed.

Lemma split_digits (sep : ascii) (s : string) :
  Py.isdigit sep = false -> all_chars Py.isdigit s = true ->
  Py.split sep s = [s].
Proof.
  intros Ho. induction s as [|c s IH]; [reflexivity|].
  rewrite all_chars_cons. intros H. apply andb_true_iff in H as [Hc Hs].
  simpl. rewrite (IH Hs).
  destruct (Ascii.eqb c sep) eqn:E; [|reflexivity].
  apply Ascii.eqb_eq in E. congruence.
Qed.

Lemma filter_digits (s : string) :
  all_chars Py.isdigit s = true -> Py.filter_chars Py.isdigit s = s.
Proof.
  induction s as [|c s IH]; [reflexivity|].
  rewrite all_chars_cons. intros H. apply andb_true_iff in H as [Hc Hs].
  simpl. now rewrite Hc, (IH Hs).
Qed.

Lemma parse_single (code : string) :
  code <> "" -> all_chars Py.isdigit code = true ->
  _parse_municipality_codes code = [code].
Proof.
  intros Hn Hd. rewrite parse_unfold.
  rewrite (replace_digits ";"%char ","%char code eq_refl Hd).
  rewrite (replace_digits (ascii_of_nat 10) ","%char code eq_refl Hd).
  rewrite (replace_digits (ascii_of_nat 9) ","%char code eq_refl Hd).
  rewrite (split_digits ","%char code eq_refl Hd).
  cbn [digit_codes]. rewrite (filter_digits _ Hd).
  destruct code; [now contradiction Hn | reflexivity].
Qed.

Lemma parse_leading_space (s : string) :
  _parse_municipality_codes (String " " s) = _parse_municipality_codes s.
Proof.
  rewrite !parse_unfold. cbn [Py.replace].
  change (Ascii.eqb " " ";") with false. cbv iota.
  change (Ascii.eqb " " (ascii_of_nat 10)) with false. cbv iota.
  change (Ascii.eqb " " (ascii_of_nat 9)) with false. cbv iota.
  cbn [Py.split]. change (Ascii.eqb " " ",") with false. cbv iota.
  pose proof (split_nonempty ","%char
    (Py.replace (ascii_of_nat 9) ","%char
       (Py.replace (ascii_of_nat 10) ","%char
          (Py.replace ";"%char ","%char s)))) as N.
  destruct (Py.split _ _) as [|p ps]; [now contradiction N|].
  reflexivity.
Qed.

Lemma unseen_fresh (c : string) (l : list string) :
  ~ In c l -> unseen [c] l = l.
Proof.
  intros H. unfold unseen. induction l as [|x l IH]; [reflexivity|].
  cbn [filter]. unfold Py.mem at 1. cbn [existsb]. rewrite orb_false_r.
  destruct (String.eqb x c) eqn:E.
  - apply String.eqb_eq in E. subst. simpl in H. tauto.
  - cbn [negb]. rewrite IH; [reflexivity|]. simpl in H. tauto.
Qed.

Lemma parse_join (l : list string) :
  NoDup l ->
  (forall code, In code l ->
                code <> "" /\ all_chars Py.isdigit code = true) ->
  _parse_municipality_codes (Py.join ", " l) = l.
Proof.
  induction l as [|c l IH]; intros Hn Hd; [reflexivity|].
  destruct (Hd c (or_introl eq_refl)) as [Hc1 Hc2].
  destruct l as [|c2 r]; [now apply parse_single|].
  change (Py.join ", " (c :: c2 :: r))
    with (c +++ "," +++ String " " (Py.join ", " (c2 :: r))).
  rewrite parse_append_comma, parse_leading_space, (parse_single c Hc1 Hc2).
  apply NoDup_cons_iff in Hn as [Hin Hn].
  rewrite IH; [|exact Hn|intros x Hx; apply Hd; now right].
  now rewrite unseen_fresh.
Qed.

Lemma filter_chars_nil (p : ascii -> bool) (s : string) :
  Py.filter_chars p s = ""
  <-> forall c, In c (list_ascii_of_string s) -> p c = false.
Proof.
  induction s as [|c s IH]; simpl; [tauto|].
  destruct (p c) eqn:E; split.
  - discriminate.
  - intros H. specialize (H c (or_introl eq_refl)). congruence.
  - intros H x [<-|Hx]; [exact E | now apply IH].
  - intros H. apply IH. intros x Hx. apply H. now right.
Qed.

(** X1. On every input the parser returns codes that are pairwise
    distinct, not empty and made of digits only. *)
Theorem parsed_codes_are_distinct_digit_strings (s : string) :
  NoDup (_parse_municipality_codes s)
  /\ (forall code, In code (_parse_municipality_codes s) ->
        code <> "" /\ all_chars Py.isdigit code = true).
Proof. split; [apply parse_NoDup | apply parse_digits]. Qed.

(** X2. The parser returns no code exactly when no character of the input
    is a digit: an input with a digit always gives at least one code. *)
Theorem parse_empty_iff_no_digit (s : string) :
  _parse_municipality_codes s = []
  <-> forall c, In c (list_ascii_of_string s) -> Py.isdigit c = false.
Proof. rewrite parse_nil_iff. apply filter_chars_nil. Qed.

(** X3. A semicolon, a newline and a tab each separate codes exactly as a
    comma does: replacing any of them by a comma in the input does not
    change the codes returned. *)
Theorem semicolon_newline_tab_separate_as_comma (s : string) :
  _parse_municipality_codes (Py.replace ";"%char ","%char s)
  = _parse_municipality_codes s
  /\ _parse_municipality_codes (Py.replace (ascii_of_nat 10) ","%char s)
     = _parse_municipality_codes s
  /\ _parse_municipality_codes (Py.replace (ascii_of_nat 9) ","%char s)
     = _parse_municipality_codes s.
Proof.
  rewrite !parse_unfold. split; [|split].
  - now rewrite replace_idem.
  - now rewrite (replace_comm ";"%char (ascii_of_nat 10)), replace_idem.
  - rewrite (replace_comm ";"%char (ascii_of_nat 9)).
    rewrite (replace_comm (ascii_of_nat 10) (ascii_of_nat 9)).
    now rewrite replace_idem.
Qed.

(** X4. The codes of two inputs joined by a comma are the codes of the
    first input followed by those codes of the second that the first does
    not have: codes keep the order in which they are first seen. *)
Theorem parse_of_comma_joined_inputs (a b : string) :
  _parse_municipality_codes (a +++ "," +++ b)
  = _parse_municipality_codes a
    ++ unseen (_parse_municipality_codes a) (_parse_municipality_codes b).
Proof. apply parse_append_comma. Qed.

(** X5. The codes as the run logs them, joined by a comma and a space,
    parse back to themselves: parsing its own output changes nothing. *)
Theorem parse_of_logged_codes (s : string) :
  _parse_municipality_codes (Py.join ", " (_parse_municipality_codes s))
  = _parse_municipality_codes s.
Proof. apply parse_join; [apply parse_NoDup | apply parse_digits]. Qed.

(** ** Before the loop *)

(** X6. The check of the code lengths never raises and changes neither
    the package nor the list of layers: it reports one warning for each
    code that has neither 6 nor 7 characters, in the order of the codes,
    and nothing for the others. *)
Theorem code_length_warnings (codes : list string) (s : state) :
  warn_code_lengths codes s
  = (Ok tt,
     {| trace := trace s
                 ++ map (fun code => ReportError (Msg.code_length code))
                        (filter odd_length codes);
        gpkg := gpkg s;
        created_layers := created_layers s |}).
Proof.
  revert s. induction codes as [|c rest IH]; intros s.
  - destruct s. simpl. now rewrite app_nil_r.
  - cbn [warn_code_lengths filter]. unfold bind.
    change (negb ((String.length c =? 6) || (String.length c =? 7)))
      with (odd_length c).
    destruct (odd_length c).
    + unfold report_error, log. rewrite IH. cbn [trace gpkg created_layers map].
      now rewrite <- app_assoc.
    + unfold ret. now rewrite IH.
Qed.

Lemma substring_none (s : string) : substring 0 0 s = "".
Proof. now destruct s. Qed.

Lemma substring_join (n : nat) (s : string) :
  substring 0 n s +++ substring n (String.length s - n) s = s.
Proof.
  revert n. induction s as [|c s IH]; intros [|n]; simpl;
    try reflexivity.
  - now rewrite substring_all.
  - now rewrite IH.
Qed.

Lemma splitext_join (os : os_flavour) (path : string) :
  fst (OsPath.splitext os path) +++ snd (OsPath.splitext os path) = path.
Proof.
  destruct os; unfold OsPath.splitext, OsPath._splitext;
    match goal with
    | |- context [if ?b then _ else _] => destruct b
    end; cbn [fst snd]; first [apply substring_join | apply append_nil_r].
Qed.

(** X7. A destination whose extension is [.gpkg] in any letter case is
    used as it is: the normaliser returns the path unchanged and logs
    nothing. *)
Theorem package_path_is_kept os path s :
  Py.lower (snd (OsPath.splitext os path)) = ".gpkg" ->
  normalize_output_path os path s = (Ok path, s).
Proof.
  intros H. pose proof (splitext_join os path) as J.
  unfold normalize_output_path.
  destruct (OsPath.splitext os path) as [base ext]. cbn [fst snd] in *.
  destruct ext as [|c ext]; [discriminate|].
  cbv beta iota zeta. rewrite H.
  change (String.eqb ".gpkg" ".shp") with false. cbv iota.
  unfold bind at 1, ret at 1. cbv beta iota. rewrite H.
  change (negb (String.eqb ".gpkg" ".gpkg")) with false. cbv iota.
  unfold bind, ret. now rewrite J.
Qed.

Lemma package_path_is_kept_witness :
  Py.lower (snd (OsPath.splitext Nt "C:\redes\sul.Gpkg")) = ".gpkg"
  /\ normalize_output_path Nt "C:\redes\sul.Gpkg" (initial_state [])
     = (Ok "C:\redes\sul.Gpkg", initial_state []).
Proof.
  split; [reflexivity|].
  apply (package_path_is_kept Nt "C:\redes\sul.Gpkg" (initial_state [])).
  reflexivity.
Defined.

Lemma import_failure_raises w e :
  import_failure w e -> result_of (import_modules w) = Raise e.
Proof.
  intros H. unfold result_of, import_modules, import_module.
  destruct H as [H|text H|H1 H2|text H1 H2];
    rewrite ?H, ?H1, ?H2; reflexivity.
Qed.

(** X8. When there are codes and one of the two imports fails, the run
    raises at the import, whatever the destination holds: the exception
    that names the module when [osmnx], or else [geopandas], raises
    ImportError, and the import's own exception when it raises anything
    else. Up to then the run has only written to the feedback channel: no
    external call was made, and the package and the list of created layers
    are as the run found them. *)
Theorem missing_module_aborts_before_any_call w os p pkg0 e :
  _parse_municipality_codes (mun_codes_str p) <> [] ->
  import_failure w e ->
  fst (processAlgorithm w os p (initial_state pkg0)) = Raise e
  /\ gpkg (snd (processAlgorithm w os p (initial_state pkg0))) = pkg0
  /\ created_layers (snd (processAlgorithm w os p (initial_state pkg0))) = []
  /\ Forall is_feedback
            (trace (snd (processAlgorithm w os p (initial_state pkg0)))).
Proof.
  intros Hc Hi.
  destruct (select_network_type_some (net_type_index p)) as [nt Hs].
  rewrite (processAlgorithm_loop w os p nt _ Hs Hc).
  pose proof (setup_Raise
                w os p (_parse_municipality_codes (mun_codes_str p))
                (initial_state pkg0) e (import_failure_raises w e Hi)) as F.
  rewrite (bind_Raise _ _ _ _ _ (run_Raise _ _ _ F)). cbn [fst snd].
  split; [reflexivity|].
  destruct (setup_feedback_only
              w os p (_parse_municipality_codes (mun_codes_str p))
              (initial_state pkg0)) as (G & C & evs & T & Fa).
  split; [exact G|]. split; [exact C|]. rewrite T. exact Fa.
Qed.

Lemma missing_module_aborts_before_any_call_witness :
  let w := sample_world_importing Imported (ImportRaises "DLL load failed") in
  let p := Sample.params "4305108" 0 in
  let pkg0 := [("old_layer", {| edges_id := 0; edges_len := 3;
                                edges_crs := None |})] in
  (_parse_municipality_codes (mun_codes_str p) <> []
   /\ import_failure w (PyException "DLL load failed"))
  /\ fst (processAlgorithm w Posix p (initial_state pkg0))
     = Raise (PyException "DLL load failed")
  /\ gpkg (snd (processAlgorithm w Posix p (initial_state pkg0))) = pkg0.
Proof.
  cbv zeta.
  assert (Hc : _parse_municipality_codes
                 (mun_codes_str (Sample.params "4305108" 0)) <> [])
    by (vm_compute; discriminate).
  assert (Hi : import_failure
                 (sample_world_importing
                    Imported (ImportRaises "DLL load failed"))
                 (PyException "DLL load failed"))
    by (apply geopandas_raises; reflexivity).
  split; [exact (conj Hc Hi)|].
  destruct (missing_module_aborts_before_any_call
              (sample_world_importing
                 Imported (ImportRaises "DLL load failed")) Posix
              (Sample.params "4305108" 0)
              [("old_layer", {| edges_id := 0; edges_len := 3;
                                edges_crs := None |})]
              (PyException "DLL load failed") Hc Hi) as (R & G & _).
  split; [exact R | exact G].
Defined.

(** ** The stages *)

Lemma warnings_app (l1 l2 : list event) :
  warnings (l1 ++ l2) = warnings l1 ++ warnings l2.
Proof.
  induction l1 as [|ev l1 IH]; [reflexivity|].
  destruct ev; simpl; now rewrite ?IH.
Qed.

Lemma warnings_none (evs : list event) :
  Forall not_warning evs -> warnings evs = [].
Proof.
  induction 1 as [|ev evs H _ IH]; [reflexivity|].
  destruct ev; simpl in *; tauto.
Qed.

Lemma buffered_geometry_no_warning w idx place_gdf b :
  quiet not_warning (buffered_geometry w idx place_gdf b).
Proof.
  unfold buffered_geometry, buffer_primary, buffer_fallback.
  repeat walk.
Qed.

(** X9. With a positive buffer distance, when the primary computation of
    the buffer raises and the computation through Web Mercator returns a
    frame, the stage returns the first geometry of that frame, the
    buffered polygon, and reports no warning. *)
Theorem fallback_buffer_is_used
        w idx b q place_gdf geom0 t1 g rest s :
  buffer_positive b = true ->
  result_of (buffer_primary w idx place_gdf b) = Ok (Raises t1) ->
  result_of (buffer_fallback w idx place_gdf b) = Ok (Returns (g :: rest)) ->
  fst (apply_buffer w idx b q place_gdf geom0 s) = Ok g
  /\ warnings (trace (snd (apply_buffer w idx b q place_gdf geom0 s)))
     = warnings (trace s)
  /\ unchanged s (snd (apply_buffer w idx b q place_gdf geom0 s)).
Proof.
  intros Hb H1 H2.
  assert (H1' : buffer_primary w idx place_gdf b s
                = (Ok (Raises t1), snd (buffer_primary w idx place_gdf b s))).
  { apply run_Ok. now rewrite stateless_result by stage. }
  assert (H2' : forall s0, buffer_fallback w idx place_gdf b s0
                           = (Ok (Returns (g :: rest)),
                              snd (buffer_fallback w idx place_gdf b s0))).
  { intros s0. apply run_Ok. now rewrite stateless_result by stage. }
  assert (B : fst (buffered_geometry w idx place_gdf b s) = Ok (Returns g)).
  { unfold buffered_geometry.
    rewrite (bind_Ok _ _ _ _ _ H1'). cbv beta iota.
    rewrite (bind_Ok _ _ _ _ _ (H2' _)). reflexivity. }
  unfold apply_buffer. rewrite Hb.
  rewrite (bind_Ok _ _ _ _ _ (run_Ok _ _ _ B)). cbv beta iota.
  unfold ret. cbn [fst snd].
  destruct (buffered_geometry_no_warning w idx place_gdf b s)
    as (G & C & evs & T & F).
  split; [reflexivity|]. split; [|now split].
  now rewrite T, warnings_app, (warnings_none _ F), app_nil_r.
Qed.

Lemma fallback_buffer_is_used_witness :
  let w := Sample.make_world false true true in
  buffer_positive 250%Q = true
  /\ result_of (buffer_primary w 1 [Geom 1] 250%Q)
     = Ok (Raises "no UTM zone")
  /\ result_of (buffer_fallback w 1 [Geom 1] 250%Q)
     = Ok (Returns [Geom 101])
  /\ fst (apply_buffer w 1 250%Q "Caxias do Sul, RS, Brasil"
                       [Geom 1] (Geom 1) (initial_state []))
     = Ok (Geom 101).
Proof.
  cbv zeta.
  assert (H1 : result_of (buffer_primary
                            (Sample.make_world false true true) 1
                            [Geom 1] 250%Q)
               = Ok (Raises "no UTM zone")) by (vm_compute; reflexivity).
  assert (H2 : result_of (buffer_fallback
                            (Sample.make_world false true true) 1
                            [Geom 1] 250%Q)
               = Ok (Returns [Geom 101])) by (vm_compute; reflexivity).
  split; [reflexivity|]. split; [exact H1|]. split; [exact H2|].
  exact (proj1 (fallback_buffer_is_used
                  (Sample.make_world false true true) 1 250%Q
                  "Caxias do Sul, RS, Brasil" [Geom 1] (Geom 1)
                  "no UTM zone" (Geom 101) [] (initial_state [])
                  eq_refl H1 H2)).
Defined.

(** X10. The removal of the CRS tag never raises and changes neither the
    rows of the table nor the package: the table it hands to the write has
    no CRS tag, unless the removal failed, in which case it is the table as
    it was; a table without a tag is passed on without any call. *)
Theorem crs_tag_is_removed_unless_removal_fails w idx edges s :
  (exists edges',
      fst (strip_crs w idx edges s) = Ok edges'
      /\ edges_id edges' = edges_id edges
      /\ edges_len edges' = edges_len edges
      /\ (edges_crs edges' = None
          \/ (edges' = edges /\ set_crs_fails w idx edges <> None)))
  /\ unchanged s (snd (strip_crs w idx edges s))
  /\ (edges_crs edges = None -> strip_crs w idx edges s = (Ok edges, s)).
Proof.
  split; [|split].
  - unfold strip_crs. destruct (edges_crs edges) as [crs|] eqn:Ec.
    + unfold bind, push_info, call, bind, report_error, log, ret.
      cbn [fst snd].
      destruct (set_crs_fails w idx edges) as [t|] eqn:Ef; cbn [fst].
      * exists edges. repeat split; trivial. right. split; [reflexivity|].
        discriminate.
      * eexists. split; [reflexivity|]. cbn. auto.
    + exists edges. cbn. auto.
  - split; apply tame_strip_crs.
  - intros Ec. unfold strip_crs. now rewrite Ec.
Qed.

(** ** Failures of the write and of the load *)

Lemma quiet_created P {A} (m : M A) s :
  quiet P m -> created_layers (snd (m s)) = created_layers s.
Proof. intros H. apply H. Qed.

Ltac frame_created :=
  repeat
    (erewrite quiet_created
      by first [ stage | apply quiet_push_info | apply quiet_push_either ]).

Lemma save_layer_fails w idx out ln e text s :
  to_file_fails w idx out ln e = Some text ->
  fst (save_layer w idx out ln e s)
  = Raise (QgsProcessingException (Msg.write_error ln text))
  /\ unchanged s (snd (save_layer w idx out ln e s)).
Proof.
  intros H.
  unfold save_layer, bind, call, bind, log, ret, raise. cbn [fst snd].
  rewrite H. cbn [fst snd]. now repeat split.
Qed.

Lemma save_layer_created w idx out ln e s :
  to_file_fails w idx out ln e = None ->
  created_layers (snd (save_layer w idx out ln e s))
  = created_layers s ++ [ln].
Proof.
  intros H.
  unfold save_layer, bind, call, bind, log, ret, put_layer, append_created.
  cbn [fst snd]. rewrite H. reflexivity.
Qed.

Lemma load_layer_invalid w idx out ln vn s :
  layer_is_valid w idx (out +++ "|layername=" +++ ln) vn = false ->
  fst (load_layer w idx out ln vn s)
  = Raise (QgsProcessingException (Msg.layer_invalid ln)).
Proof.
  intros H. unfold load_layer, bind, call, bind, log, ret, raise.
  cbn [fst snd]. rewrite H. reflexivity.
Qed.

Lemma logs_onto P {A} (m : M A) s t0 :
  logs P m ->
  (exists evs, trace s = t0 ++ evs /\ Forall P evs) ->
  exists evs, trace (snd (m s)) = t0 ++ evs /\ Forall P evs.
Proof.
  intros Hm (e1 & T1 & F1). destruct (Hm s) as (e2 & T2 & F2).
  exists (e1 ++ e2). split; [now rewrite T2, T1, app_assoc|].
  apply Forall_app. now split.
Qed.

Lemma save_layer_fails_trace w idx out ln e text s :
  to_file_fails w idx out ln e = Some text ->
  trace (snd (save_layer w idx out ln e s)) = trace s ++ [ToFile out ln e].
Proof.
  intros H.
  unfold save_layer, bind, call, bind, log, ret, raise. cbn [fst snd].
  rewrite H. reflexivity.
Qed.

(** X11. When the stages up to the conversion have returned and the write
    of the layer raises, the iteration raises the exception of the write,
    whose message names the layer and carries the text of the failure. The
    iteration ends with that call of the write: the layer is not put on the
    list of created layers, and no layer is opened or registered. *)
Theorem write_failure_stops_before_load
        w b nt out total idx c nome_mun uf_sigla edges text s :
  converted w b nt idx c nome_mun uf_sigla edges ->
  to_file_fails w idx out (layer_name_of c) edges = Some text ->
  let body := process_municipality w b nt out total idx c in
  fst (body s)
  = Raise (QgsProcessingException (Msg.write_error (layer_name_of c) text))
  /\ created_layers (snd (body s)) = created_layers s
  /\ (exists evs,
        trace (snd (body s))
        = trace s ++ evs ++ [ToFile out (layer_name_of c) edges]
        /\ Forall opens_no_layer evs)
  /\ Py.contains (Msg.write_error (layer_name_of c) text) (layer_name_of c)
     = true
  /\ Py.contains (Msg.write_error (layer_name_of c) text) text = true.
Proof.
  intros (Gp & e0 & (G & (g & (Hr & pg & g0 & Hb & Ha) & Hd) & Hp) & Hc & Hs)
         Hw body.
  unfold resolved in Hr.
  split; [|split; [|split; [|split]]];
    [| | | unfold Msg.write_error; find_argument
         | unfold Msg.write_error; find_argument].
  - subst body. unfold process_municipality. do 13 forward.
    erewrite bind_Raise
      by (apply run_Raise, (proj1 (save_layer_fails _ _ _ _ _ _ _ Hw))).
    reflexivity.
  - subst body. unfold process_municipality. do 13 forward.
    erewrite bind_Raise
      by (apply run_Raise, (proj1 (save_layer_fails _ _ _ _ _ _ _ Hw))).
    cbn [snd].
    rewrite (proj2 (proj2 (save_layer_fails _ _ _ _ _ _ _ Hw))).
    frame_created. reflexivity.
  - subst body. unfold process_municipality. do 13 forward.
    erewrite bind_Raise
      by (apply run_Raise, (proj1 (save_layer_fails _ _ _ _ _ _ _ Hw))).
    cbn [snd]. rewrite (save_layer_fails_trace _ _ _ _ _ _ _ Hw).
    match goal with
    | |- exists evs, trace ?S ++ _ = _ /\ _ =>
        assert (T : exists evs, trace S = trace s ++ evs
                                /\ Forall opens_no_layer evs)
    end.
    { repeat (apply logs_onto; [repeat walk_events|]).
      exists []. split; [now rewrite app_nil_r | constructor]. }
    destruct T as (evs & T & F). exists evs.
    split; [now rewrite T, app_assoc | exact F].
Qed.

(** X12. When the layer has been written and cannot be loaded, the
    iteration raises the exception of the load, whose message names the
    layer, and the layer stays in the package and on the list of created
    layers. *)
Theorem load_failure_keeps_written_layer
        w b nt out total idx c nome_mun uf_sigla edges s :
  converted w b nt idx c nome_mun uf_sigla edges ->
  to_file_fails w idx out (layer_name_of c) edges = None ->
  layer_is_valid w idx (out +++ "|layername=" +++ layer_name_of c)
                 (vlayer_name_of w nome_mun uf_sigla nt b) = false ->
  let body := process_municipality w b nt out total idx c in
  fst (body s)
  = Raise (QgsProcessingException (Msg.layer_invalid (layer_name_of c)))
  /\ gpkg (snd (body s)) = write_layer (gpkg s) (layer_name_of c) edges
  /\ created_layers (snd (body s))
     = created_layers s ++ [layer_name_of c]
  /\ Py.contains (Msg.layer_invalid (layer_name_of c)) (layer_name_of c)
     = true.
Proof.
  intros (Gp & e0 & (G & (g & (Hr & pg & g0 & Hb & Ha) & Hd) & Hp) & Hc & Hs)
         Hw Hv body.
  unfold resolved in Hr.
  subst body. unfold process_municipality.
  split; [|split; [|split; [|unfold Msg.layer_invalid; find_argument]]].
  - do 13 forward.
    erewrite bind_Ok by (apply run_Ok, save_layer_writes, Hw).
    now apply load_layer_invalid.
  - do 13 forward.
    erewrite bind_Ok by (apply run_Ok, save_layer_writes, Hw).
    erewrite quiet_gpkg by stage.
    rewrite (proj2 (save_layer_writes _ _ _ _ _ _ Hw)).
    frame. reflexivity.
  - do 13 forward.
    erewrite bind_Ok by (apply run_Ok, save_layer_writes, Hw).
    erewrite quiet_created by stage.
    rewrite (save_layer_created _ _ _ _ _ _ Hw).
    frame_created. reflexivity.
Qed.

Lemma sample_converted (write_ok load_ok : bool) :
  converted (sample_world_persisting write_ok load_ok) 0 "drive" 1 "4305108"
            (PStr "Caxias do Sul") (PStr "RS")
            {| edges_id := 1; edges_len := 12; edges_crs := None |}.
Proof.
  exists (Graph 1),
         {| edges_id := 1; edges_len := 12; edges_crs := Some "EPSG:32722" |}.
  split; [|split; vm_compute; reflexivity].
  exists (Graph 1). split; [|vm_compute; reflexivity].
  exists (Geom 1). split; [|vm_compute; reflexivity].
  split; [unfold resolved; vm_compute; reflexivity|].
  exists [Geom 1], (Geom 1). split; vm_compute; reflexivity.
Defined.

Lemma write_failure_stops_before_load_witness :
  let w := sample_world_persisting false true in
  let edges := {| edges_id := 1; edges_len := 12; edges_crs := None |} in
  let body := process_municipality w 0 "drive" "/home/ana/redes.gpkg"
                                   1 1 "4305108" in
  to_file_fails w 1 "/home/ana/redes.gpkg" (layer_name_of "4305108") edges
  = Some "disk full"
  /\ fst (body (initial_state []))
     = Raise (QgsProcessingException
                (Msg.write_error (layer_name_of "4305108") "disk full"))
  /\ created_layers (snd (body (initial_state []))) = [].
Proof.
  cbv zeta. split; [reflexivity|].
  pose proof (write_failure_stops_before_load
                (sample_world_persisting false true) 0 "drive"
                "/home/ana/redes.gpkg" 1 1 "4305108"
                (PStr "Caxias do Sul") (PStr "RS")
                {| edges_id := 1; edges_len := 12; edges_crs := None |}
                "disk full" (initial_state [])
                (sample_converted false true) eq_refl) as H.
  cbv zeta in H. destruct H as (R & C & _).
  split; [exact R | exact C].
Defined.

Lemma load_failure_keeps_written_layer_witness :
  let w := sample_world_persisting true false in
  let edges := {| edges_id := 1; edges_len := 12; edges_crs := None |} in
  let body := process_municipality w 0 "drive" "/home/ana/redes.gpkg"
                                   1 1 "4305108" in
  to_file_fails w 1 "/home/ana/redes.gpkg" (layer_name_of "4305108") edges
  = None
  /\ fst (body (initial_state []))
     = Raise (QgsProcessingException
                (Msg.layer_invalid (layer_name_of "4305108")))
  /\ gpkg (snd (body (initial_state [])))
     = write_layer (gpkg (initial_state [])) (layer_name_of "4305108") edges.
Proof.
  cbv zeta. split; [reflexivity|].
  pose proof (load_failure_keeps_written_layer
                (sample_world_persisting true false) 0 "drive"
                "/home/ana/redes.gpkg" 1 1 "4305108"
                (PStr "Caxias do Sul") (PStr "RS")
                {| edges_id := 1; edges_len := 12; edges_crs := None |}
                (initial_state [])
                (sample_converted true false) eq_refl eq_refl) as H.
  cbv zeta in H. destruct H as (R & G & _).
  split; [exact R | exact G].
Defined.

(** ** The run as a whole *)




(** A run that returns, taken apart. *)
Lemma run_Ok_inv w os p res s :
  run w os p = (Ok res, s) ->
  exists nt s1 s2,
    _parse_municipality_codes (mun_codes_str p) <> []
    /\ setup w os p (_parse_municipality_codes (mun_codes_str p))
             (initial_state [])
       = (Ok (output_path os (out_path_user p)), s1)
    /\ for_each (process_municipality
                   w (buffer_m p) nt (output_path os (out_path_user p))
                   (length (_parse_municipality_codes (mun_codes_str p))))
                1 (_parse_municipality_codes (mun_codes_str p)) s1
       = (Ok tt, s2)
    /\ finish (output_path os (out_path_user p)) s2 = (Ok res, s).
Proof.
  intros H. unfold run in H.
  destruct (select_network_type_some (net_type_index p)) as [nt Hs].
  assert (Hc : _parse_municipality_codes (mun_codes_str p) <> []).
  { intros E. unfold processAlgorithm in H. rewrite Hs, E in H.
    discriminate. }
  rewrite (processAlgorithm_loop w os p nt _ Hs Hc) in H.
  apply bind_inv in H as [(out & s1 & H1 & H)|(e & _ & E)]; [|discriminate].
  apply bind_inv in H as [([] & s2 & H2 & H)|(e & _ & E)]; [|discriminate].
  pose proof (setup_Ok _ _ _ _ _ _ _ H1) as ->.
  exists nt, s1, s2. auto.
Qed.

Lemma finish_summary out s :
  created_layers s <> [] ->
  trace (snd (finish out s))
  = trace s ++ [PushInfo (Msg.layers_created (created_layers s))].
Proof.
  intros H. unfold finish, bind, get_created, push_info, log, ret.
  cbn [fst snd]. destruct (created_layers s); [now contradiction H|].
  reflexivity.
Qed.

(** X14. The last thing a run that returns writes to the feedback channel
    is the summary of the layers created, which lists the layer of every
    code, in the order of the codes. *)
Theorem run_ends_with_summary_of_all_layers w os p res s :
  run w os p = (Ok res, s) ->
  exists earlier,
    trace s
    = earlier
      ++ [PushInfo
            (Msg.layers_created
               (map layer_name_of
                    (_parse_municipality_codes (mun_codes_str p))))].
Proof.
  intros H.
  destruct (run_Ok_inv _ _ _ _ _ H) as (nt & s1 & s2 & Hc & H1 & H2 & H3).
  pose proof (setup_quiet
                w os p (_parse_municipality_codes (mun_codes_str p))
                (initial_state [])) as (G1 & C1 & _).
  rewrite H1 in G1, C1. cbn [snd] in G1, C1.
  assert (I1 : loop_inv [] s1) by (split; [now rewrite G1 | exact C1]).
  pose proof (for_each_Ok _ _ _ _ _ _ 1 [] s1 s2 H2 I1 (parse_NoDup _))
    as [_ C2].
  cbn [app] in C2.
  assert (N : created_layers s2 <> []).
  { rewrite C2.
    destruct (_parse_municipality_codes (mun_codes_str p));
      [now contradiction Hc | discriminate]. }
  pose proof (finish_summary (output_path os (out_path_user p)) s2 N) as T.
  rewrite H3 in T. cbn [snd] in T. rewrite C2 in T.
  now exists (trace s2).
Qed.

Lemma run_ends_with_summary_of_all_layers_witness :
  let p := Sample.params "4305108; 4305108, 3550308" 0 in
  fst (run Sample.world Posix p) = Ok [(PARAM_OUTPUT, "/home/ana/redes.gpkg")]
  /\ exists earlier,
       trace (snd (run Sample.world Posix p))
       = earlier
         ++ [PushInfo
               (Msg.layers_created
                  (map layer_name_of
                       (_parse_municipality_codes (mun_codes_str p))))].
Proof.
  cbv zeta.
  assert (E : fst (run Sample.world Posix
                       (Sample.params "4305108; 4305108, 3550308" 0))
              = Ok [(PARAM_OUTPUT, "/home/ana/redes.gpkg")])
    by (vm_compute; reflexivity).
  split; [exact E|].
  exact (run_ends_with_summary_of_all_layers
           Sample.world Posix
           (Sample.params "4305108; 4305108, 3550308" 0) _ _
           (run_returns _ _ _ _ E)).
Defined.

(** ** The registry requests of a run *)

Lemma requests_app (l1 l2 : list event) :
  requests (l1 ++ l2) = requests l1 ++ requests l2.
Proof.
  induction l1 as [|ev l1 IH]; [reflexivity|].
  destruct ev; simpl; now rewrite ?IH.
Qed.

Lemma requests_none (evs : list event) :
  Forall no_request evs -> requests evs = [].
Proof.
  induction 1 as [|ev evs H _ IH]; [reflexivity|].
  destruct ev; simpl in *; tauto.
Qed.

Lemma resolve_municipality_trace w idx c s :
  trace (snd (resolve_municipality w idx c s))
  = trace s ++ [PushInfo (Msg.querying_ibge (ibge_url c));
                RequestsGet (ibge_url c)].
Proof.
  unfold resolve_municipality, bind, push_info, call, bind, log, ret, raise.
  cbn [fst snd trace]. rewrite <- app_assoc. cbn [app].
  destruct (requests_get w idx (ibge_url c)) as [e|st j]; [reflexivity|].
  destruct (negb (st =? 200)%Z); [reflexivity|].
  destruct j as [|e|data]; try reflexivity.
  destruct data as [| | | | |[|x l]|]; cbn [fst snd];
    try reflexivity; destruct (read_place w _); reflexivity.
Qed.

(** An iteration makes exactly one registry request, for its own code,
    whatever its outcome. *)
Lemma process_municipality_requests w b nt out total idx c s :
  requests (trace (snd (process_municipality w b nt out total idx c s)))
  = requests (trace s) ++ [ibge_url c].
Proof.
  unfold process_municipality.
  erewrite bind_Ok by (apply run_Ok; reflexivity). cbv beta.
  unfold bind at 1.
  pose proof (resolve_municipality_trace
                w idx c (snd (push_info (Msg.processing idx total c) s)))
    as T.
  change (trace (snd (push_info (Msg.processing idx total c) s)))
    with (trace s ++ [PushInfo (Msg.processing idx total c)]) in T.
  destruct (resolve_municipality w idx c _) as [[[nome_mun uf_sigla]|e] s2];
    cbn [snd] in T.
  - cbv beta iota.
    match goal with
    | |- context [snd (?m s2)] =>
        assert (L : logs no_request m) by (repeat walk_logs)
    end.
    destruct (L s2) as (evs & T2 & F2). rewrite T2, T.
    rewrite !requests_app, (requests_none _ F2).
    cbn [requests app]. now rewrite !app_nil_r.
  - cbn [snd]. rewrite T, !requests_app.
    cbn [requests app]. now rewrite !app_nil_r.
Qed.

Lemma for_each_requests w b nt out total codes : forall idx s,
  exists k,
    requests (trace (snd (for_each (process_municipality w b nt out total)
                                   idx codes s)))
    = requests (trace s) ++ map ibge_url (firstn k codes)
    /\ (forall a,
           fst (for_each (process_municipality w b nt out total)
                         idx codes s) = Ok a ->
           firstn k codes = codes).
Proof.
  induction codes as [|c rest IH]; intros idx s.
  - exists 0. cbn. now rewrite app_nil_r.
  - cbn [for_each]. unfold bind.
    pose proof (process_municipality_requests w b nt out total idx c s) as R.
    destruct (process_municipality w b nt out total idx c s)
      as [[a|e] s1]; cbn [snd] in *.
    + destruct (IH (S idx) s1) as (k & Hk & Hok).
      exists (S k). cbn [firstn map]. split.
      * rewrite Hk, R, <- app_assoc. reflexivity.
      * intros a' Ha. f_equal. eapply Hok, Ha.
    + exists 1. cbn [firstn map]. split; [exact R | discriminate].
Qed.

(** X15. Whatever the outcome of a run, its registry requests are one per
    code, for the first k codes in their order, each to the registry URL
    followed by the code; when the run returns there is one for every
    code. *)
Theorem one_registry_request_per_code w os p :
  exists k,
    requests (trace (snd (run w os p)))
    = map ibge_url
          (firstn k (_parse_municipality_codes (mun_codes_str p)))
    /\ (forall res,
           fst (run w os p) = Ok res ->
           requests (trace (snd (run w os p)))
           = map ibge_url (_parse_municipality_codes (mun_codes_str p))).
Proof.
  unfold run.
  destruct (select_network_type_some (net_type_index p)) as [nt Hs].
  destruct (processAlgorithm w os p (initial_state [])) as [r s] eqn:E.
  cbn [fst snd].
  destruct (_parse_municipality_codes (mun_codes_str p)) as [|c0 cs] eqn:Ec.
  - exists 0. unfold processAlgorithm in E. rewrite Hs, Ec in E.
    inversion E; subst. split; [reflexivity | discriminate].
  - assert (Hne : _parse_municipality_codes (mun_codes_str p) <> [])
      by (rewrite Ec; discriminate).
    rewrite (processAlgorithm_loop w os p nt _ Hs Hne), Ec in E.
    pose proof (setup_quiet w os p (c0 :: cs) (initial_state []))
      as (_ & _ & ev0 & T0 & F0).
    apply bind_inv in E as [(out & s1 & H1 & E)|(e & H1 & ->)];
      rewrite H1 in T0; cbn [snd trace initial_state app] in T0.
    + destruct (for_each_requests w (buffer_m p) nt out (length (c0 :: cs))
                                  (c0 :: cs) 1 s1) as (k & Hk & Hok).
      rewrite T0, (requests_none _ F0) in Hk. cbn [app] in Hk.
      exists k.
      apply bind_inv in E as [(a & s2 & H2 & E)|(e & H2 & ->)];
        rewrite H2 in Hk, Hok; cbn [fst snd] in Hk, Hok.
      * pose proof (finish_run out s2) as (_ & _ & ev2 & T2 & F2).
        rewrite E in T2. cbn [snd] in T2.
        rewrite T2, requests_app, (requests_none _ F2), app_nil_r.
        split; [exact Hk|]. intros res _.
        rewrite Hk. f_equal. now apply (Hok a).
      * split; [exact Hk | discriminate].
    + exists 0. rewrite T0, (requests_none _ F0).
      split; [reflexivity | discriminate].
Qed.

(** ** What the calls of a run are aimed at *)

Lemma aimed_at_feedback out nt codes ev :
  is_feedback ev -> aimed_at out nt codes ev.
Proof. destruct ev; cbn; tauto. Qed.

Lemma finish_feedback out : logs is_feedback (finish out).
Proof.
  intros s. unfold finish, bind, get_created, push_info, log, ret.
  cbn [fst snd]. destruct (created_layers s); cbn [fst snd trace].
  - exists []. split; [now rewrite app_nil_r | constructor].
  - eexists. split; [reflexivity|]. repeat constructor.
Qed.

(** X16. Whatever the outcome of a run, all its layers go into one file,
    the path the normaliser returned: every write is to that path and into
    the layer [osm_segments_<code>] of a code of the input, every layer
    opened or added to the store and to the project is such a layer of
    that file, and every download is for the network type selected. *)
Theorem run_is_aimed_at_one_package w os p :
  exists out_path,
    result_of (normalize_output_path os (out_path_user p)) = Ok out_path
    /\ Forall (aimed_at out_path
                        (select_network_type (net_type_index p))
                        (_parse_municipality_codes (mun_codes_str p)))
              (trace (snd (run w os p))).
Proof.
  exists (output_path os (out_path_user p)).
  split; [apply normalize_output_path_run|].
  unfold run.
  destruct (select_network_type_some (net_type_index p)) as [nt Hs].
  destruct (processAlgorithm w os p (initial_state [])) as [r s] eqn:E.
  cbn [snd]. rewrite Hs.
  destruct (_parse_municipality_codes (mun_codes_str p)) as [|c0 cs] eqn:Ec.
  - unfold processAlgorithm in E. rewrite Hs, Ec in E.
    inversion E; subst. constructor.
  - assert (Hne : _parse_municipality_codes (mun_codes_str p) <> [])
      by (rewrite Ec; discriminate).
    rewrite (processAlgorithm_loop w os p nt _ Hs Hne), Ec in E.
    pose proof (setup_feedback_only w os p (c0 :: cs) (initial_state []))
      as (_ & _ & ev0 & T0 & F0).
    assert (A0 : Forall (aimed_at (output_path os (out_path_user p))
                                  (Some nt) (c0 :: cs)) ev0).
    { eapply Forall_impl; [|exact F0]. intros ev. apply aimed_at_feedback. }
    apply bind_inv in E as [(out & s1 & H1 & E)|(e & H1 & ->)];
      rewrite H1 in T0; cbn [snd trace initial_state app] in T0.
    + pose proof (setup_Ok _ _ _ _ _ _ _ H1) as ->.
      destruct (for_each_aim w (buffer_m p) nt
                             (output_path os (out_path_user p))
                             (length (c0 :: cs)) (c0 :: cs) 1 s1)
        as (ev1 & T1 & F1).
      apply bind_inv in E as [(a & s2 & H2 & E)|(e & H2 & ->)];
        rewrite H2 in T1; cbn [snd] in T1.
      * destruct (finish_feedback (output_path os (out_path_user p)) s2)
          as (ev2 & T2 & F2).
        rewrite E in T2. cbn [snd] in T2.
        rewrite T2, T1, T0.
        apply Forall_app. split; [apply Forall_app; now split|].
        eapply Forall_impl; [|exact F2]. intros ev. apply aimed_at_feedback.
      * rewrite T1, T0. apply Forall_app. now split.
    + now rewrite T0.
Qed.

(** ** The two layer registries *)

Lemma store_layers_app (l1 l2 : list event) :
  store_layers (l1 ++ l2) = store_layers l1 ++ store_layers l2.
Proof.
  induction l1 as [|ev l1 IH]; [reflexivity|].
  destruct ev; simpl; now rewrite ?IH.
Qed.

Lemma project_layers_app (l1 l2 : list event) :
  project_layers (l1 ++ l2) = project_layers l1 ++ project_layers l2.
Proof.
  induction l1 as [|ev l1 IH]; [reflexivity|].
  destruct ev; simpl; now rewrite ?IH.
Qed.

Lemma both_nothing {A} (m : M A) :
  (forall s, trace (snd (m s)) = trace s) -> registers_in_both m.
Proof. intros H s. exists []. now rewrite H, app_nil_r. Qed.

Lemma both_log (ev : event) :
  store_layers [ev] = project_layers [ev] -> registers_in_both (log ev).
Proof. intros H s. now exists [ev]. Qed.

Lemma both_bind {A B} (m : M A) (k : A -> M B) :
  registers_in_both m -> (forall a, registers_in_both (k a)) ->
  registers_in_both (bind m k).
Proof.
  intros Hm Hk s. unfold bind. destruct (Hm s) as (e1 & T1 & F1).
  destruct (m s) as [[a|e] s1]; cbn [snd] in *; [|eauto].
  destruct (Hk a s1) as (e2 & T2 & F2). exists (e1 ++ e2). split.
  - now rewrite T2, T1, app_assoc.
  - now rewrite store_layers_app, project_layers_app, F1, F2.
Qed.

(** The load adds the layer to the store and to the project, or to
    neither. *)
Lemma both_load_layer w idx out ln vn :
  registers_in_both (load_layer w idx out ln vn).
Proof.
  intros s. unfold load_layer, bind, call, bind, push_info, log, ret, raise.
  cbn [fst snd trace].
  destruct (layer_is_valid w idx (out +++ "|layername=" +++ ln) vn);
    cbn [negb fst snd trace]; rewrite <- ?app_assoc; cbn [app];
    eexists; (split; [reflexivity|]); reflexivity.
Qed.

Ltac walk_both :=
  lazymatch goal with
  | |- registers_in_both ?m =>
      lazymatch m with
      | bind _ _ => apply both_bind; [|intros ?]
      | ret _ => apply both_nothing; reflexivity
      | raise _ => apply both_nothing; reflexivity
      | put_layer _ _ => apply both_nothing; reflexivity
      | append_created _ => apply both_nothing; reflexivity
      | get_created => apply both_nothing; reflexivity
      | log _ => apply both_log; reflexivity
      | push_info _ => apply both_log; reflexivity
      | report_error _ => apply both_log; reflexivity
      | call _ _ => unfold call
      | load_layer _ _ _ _ _ => apply both_load_layer
      | resolve_municipality _ _ _ => unfold resolve_municipality
      | fetch_boundary _ _ _ => unfold fetch_boundary
      | apply_buffer _ _ _ _ _ _ => unfold apply_buffer
      | buffered_geometry _ _ _ _ => unfold buffered_geometry
      | buffer_primary _ _ _ _ => unfold buffer_primary
      | buffer_fallback _ _ _ _ => unfold buffer_fallback
      | download_network _ _ _ _ _ => unfold download_network
      | project_network _ _ _ _ => unfold project_network
      | edge_table _ _ _ _ => unfold edge_table
      | strip_crs _ _ _ => unfold strip_crs
      | save_layer _ _ _ _ _ => unfold save_layer
      | normalize_output_path _ _ => unfold normalize_output_path
      | import_modules _ => unfold import_modules
      | import_module _ _ => unfold import_module
      | setup _ _ _ _ => unfold setup
      | finish _ => unfold finish
      | match ?x with _ => _ end => destruct x
      end
  end.

Lemma both_warn_code_lengths codes :
  registers_in_both (warn_code_lengths codes).
Proof.
  induction codes as [|c rest IH]; cbn [warn_code_lengths];
    repeat walk_both. exact IH.
Qed.

Lemma both_for_each w b nt out total codes : forall idx,
  registers_in_both
    (for_each (process_municipality w b nt out total) idx codes).
Proof.
  induction codes as [|c rest IH]; intros idx; cbn [for_each].
  - apply both_nothing. reflexivity.
  - apply both_bind; [|intros _; apply IH].
    unfold process_municipality. repeat walk_both.
Qed.

(** X17. Whatever the outcome of a run, the layers added to the run's
    temporary store are the layers added to the project, under the same
    sources and names and in the same order: no layer is registered in one
    and not in the other. *)
Theorem store_and_project_hold_the_same_layers w os p :
  store_layers (trace (snd (run w os p)))
  = project_layers (trace (snd (run w os p))).
Proof.
  assert (R : registers_in_both (processAlgorithm w os p)).
  { unfold processAlgorithm.
    repeat first
      [ apply both_warn_code_lengths | apply both_for_each | walk_both ]. }
  unfold run. destruct (R (initial_state [])) as (evs & T & F).
  now rewrite T.
Qed.

(** ** The fatal failures of an iteration, all of them *)

Lemma strip_crs_returns w idx edges s :
  exists edges', fst (strip_crs w idx edges s) = Ok edges'.
Proof.
  unfold strip_crs. destruct (edges_crs edges); [|now exists edges].
  unfold bind, push_info, call, bind, report_error, log, ret. cbn [fst snd].
  destruct (set_crs_fails w idx edges); cbn [fst]; eauto.
Qed.

Lemma lookup_raises_failure w idx c e :
  result_of (resolve_municipality w idx c) = Raise e ->
  lookup_failure w idx c e.
Proof.
  unfold result_of. rewrite resolve_municipality_result.
  destruct (requests_get w idx (ibge_url c)) as [t|st j] eqn:E.
  - intros H; inversion H; subst. now constructor.
  - destruct (st =? 200)%Z eqn:Est; simpl.
    + apply Z.eqb_eq in Est. subst st.
      destruct j as [|t|data].
      * intros H; inversion H; subst. now constructor.
      * intros H; inversion H; subst. now constructor.
      * assert (D : data = PList [] \/ data <> PList []).
        { destruct data as [| | | | |[|x l]|]; auto; right; discriminate. }
        destruct D as [->|D].
        -- intros H; inversion H; subst. now constructor.
        -- destruct (read_place w (first_element data)) as [t|pl] eqn:Er.
           ++ intros H.
              assert (H' : Raise (QgsProcessingException
                                    (Msg.ibge_unexpected c t))
                           = @Raise (pyvalue * pyvalue) e).
              { rewrite <- H.
                destruct data as [| | | | |[|x l]|];
                  try reflexivity; now contradiction D. }
              inversion H'; subst.
              eapply unexpected_shape; eauto.
           ++ intros H. exfalso.
              destruct data as [| | | | |[|x l]|];
                try discriminate; now contradiction D.
    + intros H; inversion H; subst.
      eapply status_not_200; eauto.
      intros ->. discriminate.
Qed.

Lemma resolved_registry_answers w idx c nome_mun uf_sigla :
  resolved w idx c nome_mun uf_sigla ->
  registry_answers w idx c nome_mun uf_sigla.
Proof.
  unfold resolved, result_of. rewrite resolve_municipality_result.
  destruct (requests_get w idx (ibge_url c)) as [t|st j] eqn:E;
    [discriminate|].
  destruct (st =? 200)%Z eqn:Est; simpl; [|discriminate].
  apply Z.eqb_eq in Est. subst st.
  destruct j as [|t|data]; try discriminate.
  intros H. exists data. split; [exact E|].
  assert (D : data <> PList []).
  { intros ->. discriminate H. }
  split; [exact D|].
  destruct (read_place w (first_element data)) as [t|pl] eqn:Er.
  - exfalso. destruct data as [| | | | |[|x l]|];
      try discriminate; now contradiction D.
  - f_equal.
    destruct data as [| | | | |[|x l]|];
      try (now contradiction D); now inversion H.
Qed.

(** X18. An iteration raises exactly when a collaborator fails at one of
    its seven stages, and then with the exception the script raises for
    that failure: the failures of [collaborator_failure] are all the fatal
    failures of an iteration, and the buffer and the removal of the CRS tag
    are never among them. *)
Theorem iteration_raises_exactly_on_collaborator_failure
        w b nt out total idx c e :
  result_of (process_municipality w b nt out total idx c) = Raise e
  <-> exists st, collaborator_failure w b nt out idx c st e.
Proof.
  split;
    [|intros [st H]; now apply collaborator_failure_raises with (st := st)].
  unfold result_of, process_municipality.
  forward.
  destruct (result_of (resolve_municipality w idx c)) as [[n u]|e0] eqn:Hr.
  2:{ forward_raise. cbn [fst]. intros H; inversion H; subst.
      exists RegistryLookup. constructor. now apply lookup_raises_failure. }
  forward.
  assert (Ra : registry_answers w idx c n u)
    by now apply resolved_registry_answers.
  do 3 forward.
  pose proof (fetch_boundary_raises w idx (place_query_of w n u)) as B1.
  pose proof (fetch_boundary_empty w idx (place_query_of w n u)) as B2.
  pose proof (fetch_boundary_returns w idx (place_query_of w n u)) as B3.
  destruct (geocode_to_gdf w idx (place_query_of w n u))
    as [t|[|g0 rest]] eqn:Eg.
  { specialize (B1 t eq_refl). forward_raise. cbn [fst].
    intros H; inversion H; subst. exists BoundaryFetch.
    now apply geocoder_raises. }
  { specialize (B2 eq_refl). forward_raise. cbn [fst].
    intros H; inversion H; subst. exists BoundaryFetch.
    now apply geocoder_finds_nothing. }
  specialize (B3 (g0 :: rest) g0 rest eq_refl eq_refl). forward.
  assert (Bf : boundary_found w idx c n u (g0 :: rest) g0).
  { split; [exact Ra|]. split; [exact Eg|]. now exists rest. }
  destruct (apply_buffer_returns w idx b (place_query_of w n u)
                                 (g0 :: rest) g0 (initial_state []))
    as [g Ha].
  change (result_of (apply_buffer w idx b (place_query_of w n u)
                                  (g0 :: rest) g0) = Ok g) in Ha.
  do 2 forward.
  assert (Pr : polygon_ready w b idx c n u g).
  { exists (g0 :: rest), g0. now split. }
  pose proof (download_network_result w idx (place_query_of w n u) g nt) as D.
  destruct (graph_from_polygon w idx g nt) as [t|G] eqn:Ed.
  { forward_raise. cbn [fst]. intros H; inversion H; subst.
    exists NetworkDownload. now apply download_raises with (g := g). }
  forward.
  assert (Nd : network_downloaded w b nt idx c n u G)
    by (exists g; now split).
  pose proof (project_network_result w idx (place_query_of w n u) G) as P.
  destruct (project_graph w idx G) as [t|Gp] eqn:Ep.
  { forward_raise. cbn [fst]. intros H; inversion H; subst.
    exists Reprojection. now apply projection_raises with (G := G). }
  forward.
  assert (Np : network_projected w b nt idx c n u Gp)
    by (exists G; now split).
  pose proof (edge_table_result w idx (place_query_of w n u) Gp) as T.
  destruct (graph_to_gdfs w idx Gp) as [t|ed0] eqn:Ec.
  { forward_raise. cbn [fst]. intros H; inversion H; subst.
    exists EdgeTableConversion.
    now apply conversion_raises with (G_proj := Gp). }
  do 2 forward.
  destruct (strip_crs_returns w idx ed0 (initial_state [])) as [ed Hs].
  change (result_of (strip_crs w idx ed0) = Ok ed) in Hs.
  forward.
  assert (Tr : table_ready w b nt idx c n u ed).
  { exists Gp, ed0. split; [exact Np|]. now split. }
  pose proof (save_layer_result w idx out (layer_name_of c) ed) as W.
  destruct (to_file_fails w idx out (layer_name_of c) ed) as [t|] eqn:Ew.
  { forward_raise. cbn [fst]. intros H; inversion H; subst.
    exists LayerWrite. now apply write_raises
      with (nome_mun := n) (uf_sigla := u) (edges := ed). }
  forward.
  assert (Ls : layer_stored w b nt out idx c n u)
    by (exists ed; now split).
  rewrite stateless_result by stage. rewrite load_layer_result.
  destruct (layer_is_valid w idx (out +++ "|layername=" +++ layer_name_of c)
                           (vlayer_name_of w n u nt b)) eqn:Ev;
    [discriminate|].
  intros H; inversion H; subst. exists LayerLoad.
  now apply layer_not_valid with (nome_mun := n) (uf_sigla := u).
Qed.
